(** * SwarmC2 backend ([backend/main.go]): a shallow embedding and its checked properties

    The Go program is embedded function by function.  Go strings are byte
    strings ([string], one [ascii] per byte); [float64] is the kernel's binary64;
    [int], [int64] and [time.Duration] are [Z]; maps are [gmap]; a [*T] that may
    be [nil] is an [option T].  The package-level variables of [main.go] are the
    fields of one [State] record, and every function that touches them is a
    computation in a small state monad that also records the outside-visible
    events (HTTP requests, WebSocket writes, sleeps, log lines). *)

From Stdlib Require Import ZArith Floats String Ascii List Lia Bool DecimalString.
From stdpp Require Import gmap strings list.

Set Warnings "-register-all,-inexact-float,-clear-no-such-hyp".
Local Open Scope string_scope.
Local Open Scope list_scope.
Local Open Scope Z_scope.

(** ** Go runtime values *)

Module Go.

Definition float64 : Set := PrimFloat.float.

(** [interface{}] as [encoding/json] fills it: [nil], [bool], [float64],
    [string], [[]interface{}] and [map[string]interface{}]. *)
Inductive iface : Type :=
| INil
| IBool (b : bool)
| IFloat64 (f : float64)
| IString (s : string)
| ISlice (l : list iface)
| IMap (m : gmap string iface).

Definition min_int64 : Z := - 2 ^ 63.
Definition max_int64 : Z := 2 ^ 63 - 1.

(** The conversion [int64(f)]: the fraction is discarded.  For a value outside
    the [int64] range Go leaves the result to the implementation; this is what
    the amd64 instruction returns.  A decoded JSON number is never NaN or
    infinite. *)
Definition int64_of_float64 (f : float64) : Z :=
  match Prim2SF f with
  | S754_finite s m e =>
      let a := if 0 <=? e then Z.shiftl (Z.pos m) e else Z.shiftr (Z.pos m) (- e) in
      let v := if s then - a else a in
      if (min_int64 <=? v) && (v <=? max_int64) then v else min_int64
  | S754_zero _ => 0
  | _ => min_int64
  end.


(** *** Strings as byte sequences *)

Definition byte (c : ascii) : Z := Z.of_N (N_of_ascii c).
Definition chr (b : Z) : ascii := ascii_of_N (Z.to_N b).

Definition str_take (n : nat) (s : string) : string := String.substring 0 n s.
Definition str_drop (n : nat) (s : string) : string :=
  String.substring n (String.length s - n) s.

(** The byte slice [s[lo:hi]], for [0 <= lo <= hi <= len(s)]. *)
Definition slice (s : string) (lo hi : nat) : string := String.substring lo (hi - lo) s.

(** [utf8.DecodeRune] at the head of [s]: the width of a well-formed encoding,
    or [0] where Go reports [RuneError] with width 1. *)
Definition utf8_width (s : string) : nat :=
  let cont (c : ascii) (lo hi : Z) := (lo <=? byte c) && (byte c <=? hi) in
  match s with
  | EmptyString => O
  | String c0 r =>
      let b0 := byte c0 in
      if b0 <? 128 then 1%nat
      else if (194 <=? b0) && (b0 <=? 223) then
        match r with
        | String c1 _ => if cont c1 128 191 then 2%nat else O
        | _ => O
        end
      else if (224 <=? b0) && (b0 <=? 239) then
        match r with
        | String c1 (String c2 _) =>
            let lo := if b0 =? 224 then 160 else 128 in
            let hi := if b0 =? 237 then 159 else 191 in
            if cont c1 lo hi && cont c2 128 191 then 3%nat else O
        | _ => O
        end
      else if (240 <=? b0) && (b0 <=? 244) then
        match r with
        | String c1 (String c2 (String c3 _)) =>
            let lo := if b0 =? 240 then 144 else 128 in
            let hi := if b0 =? 244 then 143 else 191 in
            if cont c1 lo hi && cont c2 128 191 && cont c3 128 191 then 4%nat else O
        | _ => O
        end
      else O
  end.

(** [utf8.EncodeRune]; a surrogate or a value above U+10FFFF is written as
    U+FFFD. *)
Definition utf8_encode (r : Z) : string :=
  let r := if (r <? 0) || (1114111 <? r) || ((55296 <=? r) && (r <=? 57343)) then 65533 else r in
  let tail (k : Z) := chr (128 + Z.land (Z.shiftr r k) 63) in
  if r <? 128 then String (chr r) ""
  else if r <? 2048 then String (chr (192 + Z.shiftr r 6)) (String (tail 0) "")
  else if r <? 65536 then
    String (chr (224 + Z.shiftr r 12)) (String (tail 6) (String (tail 0) ""))
  else
    String (chr (240 + Z.shiftr r 18)) (String (tail 12) (String (tail 6) (String (tail 0) ""))).

(** *** Fixed-width integers and time *)

Definition wrap64 (z : Z) : Z := (z + 2 ^ 63) mod 2 ^ 64 - 2 ^ 63.

(** A [time.Time] is an instant in nanoseconds since the Unix epoch; a
    [time.Duration] is an [int64] count of nanoseconds. *)
Definition Time : Set := Z.
Definition Duration : Set := Z.
Definition Second : Duration := 1000000000.

(** [time.Time{}], the value of an unset package-level [time.Time]:
    January 1 of year 1, 00:00 UTC. *)
Definition zeroTime : Time := - 62135596800 * Second.

(** [t.Sub(u)] (and so [time.Since]): the difference, saturated to the
    [Duration] range. *)
Definition timeSub (t u : Time) : Duration :=
  Z.max min_int64 (Z.min max_int64 (t - u)).

(** [t.Unix()]. *)
Definition timeUnix (t : Time) : Z := t / Second.

(** [(T, error)]. *)
Inductive result (T : Type) : Type :=
| Ok (v : T)
| Err (msg : string).
Arguments Ok {T} v.
Arguments Err {T} msg.

End Go.
Export Go.

(** ** [encoding/json]

    The decoder the program calls through [json.Unmarshal] and
    [json.NewDecoder(...).Decode]: the grammar its scanner accepts, the
    unquoting of string literals, and the rules by which a JSON value is stored
    into a Go [string], [int], slice, map or [interface{}].  A nil slice or map
    and an empty one are both the empty list or map here (they differ only in
    how they are marshalled back). *)

Module Json.

Inductive jvalue : Type :=
| JNull
| JBool (b : bool)
| JNumber (lit : string)
| JString (s : string)
| JArray (l : list jvalue)
| JObject (members : list (string * jvalue)).

Definition eqc (c d : ascii) : bool := Ascii.eqb c d.

Definition quote : ascii := chr 34.
Definition backslash : ascii := chr 92.

Definition isSpace (c : ascii) : bool :=
  eqc c " " || eqc c (chr 9) || eqc c (chr 13) || eqc c (chr 10).

Definition isDigit (c : ascii) : bool := (48 <=? byte c) && (byte c <=? 57).

Fixpoint skipSpace (s : string) : string :=
  match s with
  | String c r => if isSpace c then skipSpace r else s
  | EmptyString => s
  end.

Definition hexVal (c : ascii) : option Z :=
  let b := byte c in
  if isDigit c then Some (b - 48)
  else if (97 <=? b) && (b <=? 102) then Some (b - 87)
  else if (65 <=? b) && (b <=? 70) then Some (b - 55)
  else None.

(** [getu4] without the leading backslash and [u]: four hexadecimal digits. *)
Definition hex4 (s : string) : option (Z * string) :=
  match s with
  | String a (String b (String c (String d r))) =>
      match hexVal a, hexVal b, hexVal c, hexVal d with
      | Some x, Some y, Some z, Some w => Some (((x * 16 + y) * 16 + z) * 16 + w, r)
      | _, _, _, _ => None
      end
  | _ => None
  end.

(** [getu4]: a backslash, [u] and four hexadecimal digits. *)
Definition getu4 (s : string) : option (Z * string) :=
  match s with
  | String b (String u r) => if eqc b backslash && eqc u "u" then hex4 r else None
  | _ => None
  end.

Definition simpleEscape (c : ascii) : option ascii :=
  if eqc c quote then Some quote
  else if eqc c backslash then Some backslash
  else if eqc c "/" then Some "/"%char
  else if eqc c "b" then Some (chr 8)
  else if eqc c "f" then Some (chr 12)
  else if eqc c "n" then Some (chr 10)
  else if eqc c "r" then Some (chr 13)
  else if eqc c "t" then Some (chr 9)
  else None.

(** The inside of a string literal, after its opening quote: the scanner's
    check and [unquoteBytes] in one pass.  A surrogate escape that is not the
    first half of a valid pair, and a byte sequence that is not UTF-8, become
    U+FFFD; a control character is refused. *)
Fixpoint scanString (fuel : nat) (s : string) : option (string * string) :=
  match fuel with
  | O => None
  | S fuel =>
      let more (pre rest : string) :=
        match scanString fuel rest with
        | Some (t, r) => Some (String.append pre t, r)
        | None => None
        end in
      match s with
      | EmptyString => None
      | String c r =>
          if eqc c quote then Some ("", r)
          else if eqc c backslash then
            match r with
            | EmptyString => None
            | String e r' =>
                if eqc e "u" then
                  match hex4 r' with
                  | None => None
                  | Some (rr, r'') =>
                      if (55296 <=? rr) && (rr <? 57344) then
                        match getu4 r'' with
                        | Some (rr1, r3) =>
                            if (rr <? 56320) && (56320 <=? rr1) && (rr1 <? 57344)
                            then more (utf8_encode (Z.shiftl (rr - 55296) 10 + (rr1 - 56320) + 65536)) r3
                            else more (utf8_encode 65533) r''
                        | None => more (utf8_encode 65533) r''
                        end
                      else more (utf8_encode rr) r''
                  end
                else
                  match simpleEscape e with
                  | Some b => more (String b "") r'
                  | None => None
                  end
            end
          else if byte c <? 32 then None
          else if byte c <? 128 then more (String c "") r
          else
            match utf8_width s with
            | O => more (utf8_encode 65533) r
            | w => more (str_take w s) (str_drop w s)
            end
      end
  end.

Fixpoint spanDigits (s : string) : string * string :=
  match s with
  | String c r =>
      if isDigit c then let '(ds, rest) := spanDigits r in (String c ds, rest) else ("", s)
  | EmptyString => ("", s)
  end.

(** A number literal: an optional minus sign, an integer part with no leading
    zero, an optional fraction and an optional exponent. *)
Definition scanNumber (s : string) : option (string * string) :=
  let '(sign, s1) :=
    match s with
    | String c r => if eqc c "-" then ("-", r) else ("", s)
    | EmptyString => ("", s)
    end in
  let '(int, s2) :=
    match s1 with
    | String c r => if eqc c "0" then ("0", r) else spanDigits s1
    | EmptyString => ("", s1)
    end in
  if String.eqb int "" then None
  else
    let frac :=
      match s2 with
      | String c r =>
          if eqc c "." then
            let '(ds, rest) := spanDigits r in
            if String.eqb ds "" then None else Some (String.append "." ds, rest)
          else Some ("", s2)
      | EmptyString => Some ("", s2)
      end in
    match frac with
    | None => None
    | Some (fr, s3) =>
        let exp :=
          match s3 with
          | String c r =>
              if eqc c "e" || eqc c "E" then
                let '(sg, r1) :=
                  match r with
                  | String c1 r' =>
                      if eqc c1 "+" || eqc c1 "-" then (String c1 "", r') else ("", r)
                  | EmptyString => ("", r)
                  end in
                let '(ds, rest) := spanDigits r1 in
                if String.eqb ds "" then None
                else Some (String c (String.append sg ds), rest)
              else Some ("", s3)
          | EmptyString => Some ("", s3)
          end in
        match exp with
        | None => None
        | Some (ex, s4) =>
            Some (String.append sign (String.append int (String.append fr ex)), s4)
        end
    end.

(** [s] without the prefix [lit], when it starts with it. *)
Fixpoint stripPrefix (lit s : string) : option string :=
  match lit, s with
  | EmptyString, _ => Some s
  | String a l, String b r => if eqc a b then stripPrefix l r else None
  | String _ _, EmptyString => None
  end.

Section Containers.
  (** The parser of one value, at the nesting depth inside the container. *)
Variable parseInner : string -> option (jvalue * string).

  (** The elements after [[], the first one not yet read: values separated by
      commas, up to the closing bracket. *)
Fixpoint parseElements (fuel : nat) (s : string) : option (list jvalue * string) :=
    match fuel with
    | O => None
    | S fuel =>
        match parseInner (skipSpace s) with
        | None => None
        | Some (v, r) =>
            match skipSpace r with
            | String c r' =>
                if eqc c "," then
                  match parseElements fuel r' with
                  | Some (vs, r'') => Some (v :: vs, r'')
                  | None => None
                  end
                else if eqc c "]" then Some ([v], r')
                else None
            | EmptyString => None
            end
        end
    end.

Definition parseArray (s : string) : option (list jvalue * string) :=
    match skipSpace s with
    | String c r => if eqc c "]" then Some ([], r) else parseElements (String.length s) s
    | EmptyString => None
    end.

  (** The members after [{]: [string : value] pairs separated by commas. *)
Fixpoint parseMembers (fuel : nat) (s : string) : option (list (string * jvalue) * string) :=
    match fuel with
    | O => None
    | S fuel =>
        match skipSpace s with
        | String q r =>
            if eqc q quote then
              match scanString (String.length r) r with
              | None => None
              | Some (key, r1) =>
                  match skipSpace r1 with
                  | String c r2 =>
                      if eqc c ":" then
                        match parseInner (skipSpace r2) with
                        | None => None
                        | Some (v, r3) =>
                            match skipSpace r3 with
                            | String d r4 =>
                                if eqc d "," then
                                  match parseMembers fuel r4 with
                                  | Some (ms, r5) => Some ((key, v) :: ms, r5)
                                  | None => None
                                  end
                                else if eqc d "}" then Some ([(key, v)], r4)
                                else None
                            | EmptyString => None
                            end
                        end
                      else None
                  | EmptyString => None
                  end
              end
            else None
        | EmptyString => None
        end
    end.

Definition parseObject (s : string) : option (list (string * jvalue) * string) :=
    match skipSpace s with
    | String c r => if eqc c "}" then Some ([], r) else parseMembers (String.length s) s
    | EmptyString => None
    end.
End Containers.

(** One value at the head of [s] (leading white space already skipped), with
    [depth] further levels of arrays and objects allowed inside it. *)
Fixpoint parseValue (depth : nat) (s : string) : option (jvalue * string) :=
  match s with
  | EmptyString => None
  | String c r =>
      if eqc c "{" then
        match depth with
        | O => None
        | S d =>
            match parseObject (parseValue d) r with
            | Some (ms, r') => Some (JObject ms, r')
            | None => None
            end
        end
      else if eqc c "[" then
        match depth with
        | O => None
        | S d =>
            match parseArray (parseValue d) r with
            | Some (vs, r') => Some (JArray vs, r')
            | None => None
            end
        end
      else if eqc c quote then
        match scanString (String.length r) r with
        | Some (t, r') => Some (JString t, r')
        | None => None
        end
      else if eqc c "t" then option_map (pair (JBool true)) (stripPrefix "rue" r)
      else if eqc c "f" then option_map (pair (JBool false)) (stripPrefix "alse" r)
      else if eqc c "n" then option_map (pair JNull) (stripPrefix "ull" r)
      else
        match scanNumber s with
        | Some (lit, r') => Some (JNumber lit, r')
        | None => None
        end
  end.

(** The scanner refuses a document nested deeper than this. *)
Definition maxNestingDepth : nat := Z.to_nat 10000.

(** [json.Unmarshal] reads the whole text as one value. *)
Definition parse (s : string) : option jvalue :=
  match parseValue maxNestingDepth (skipSpace s) with
  | Some (v, r) => if String.eqb (skipSpace r) "" then Some v else None
  | None => None
  end.

(** [Decoder.Decode] reads the first value of the stream and leaves the rest. *)
Definition parseFirst (s : string) : option jvalue :=
  option_map fst (parseValue maxNestingDepth (skipSpace s)).

(** Writes a JSON text with apostrophes for its quotation marks. *)
Fixpoint text (s : string) : string :=
  match s with
  | String c r => String (if eqc c "'" then quote else c) (text r)
  | EmptyString => EmptyString
  end.

End Json.

(** ** Data model of [main.go] *)

Record Aircraft := mkAircraft {
  ICAO24 : string;
  Callsign : string;
  OriginCountry : string;
  TimePosition : option Z;
  LastContact : Z;
  Longitude : option float64;
  Latitude : option float64;
  BaroAltitude : option float64;
  OnGround : bool;
  Velocity : option float64;
  TrueTrack : option float64;
  VerticalRate : option float64;
  Sensors : list Z;
  GeoAltitude : option float64;
  Squawk : option string;
  SPI : bool;
  PositionSource : Z;
  Category : Z
}.

(** The structs of [main.go], each in a module of its own so that the fields
    keep their Go names. *)

Module Region.
Record t := mk {
    Name : string;
    MinLat : float64;
    MaxLat : float64;
    MinLon : float64;
    MaxLon : float64
  }.
End Region.
Abbreviation Region := Region.t.

Module AirspaceData.
Record t := mk {
    Timestamp : Z;
    Aircraft : list Aircraft;
    Region : string;
    Count : Z
  }.
End AirspaceData.
Abbreviation AirspaceData := AirspaceData.t.

Module OpenSkyResponse.
Record t := mk {
    Time : Z;
    States : list (list iface)
  }.
Definition zero : t := mk 0 [].
End OpenSkyResponse.
Abbreviation OpenSkyResponse := OpenSkyResponse.t.

Module TacticalAnalysis.
Record t := mk {
    Timestamp : string;
    Region : string;
    OverallThreatLevel : string;
    ThreatScore : Z;
    Summary : string;
    KeyObservations : list (gmap string iface);
    AircraftOfInterest : list (gmap string iface);
    TacticalRecommendations : list (gmap string iface);
    PatternAnalysis : gmap string iface;
    NextUpdatePriority : string;
    Raw : string
  }.
  (** [var analysis TacticalAnalysis]. *)
Definition zero : t := mk "" "" "" 0 "" [] [] [] ∅ "" "".

Definition setTimestamp (x : string) (a : t) : t :=
    mk x (Region a) (OverallThreatLevel a) (ThreatScore a) (Summary a) (KeyObservations a)
       (AircraftOfInterest a) (TacticalRecommendations a) (PatternAnalysis a)
       (NextUpdatePriority a) (Raw a).
Definition setRegion (x : string) (a : t) : t :=
    mk (Timestamp a) x (OverallThreatLevel a) (ThreatScore a) (Summary a) (KeyObservations a)
       (AircraftOfInterest a) (TacticalRecommendations a) (PatternAnalysis a)
       (NextUpdatePriority a) (Raw a).
Definition setOverallThreatLevel (x : string) (a : t) : t :=
    mk (Timestamp a) (Region a) x (ThreatScore a) (Summary a) (KeyObservations a)
       (AircraftOfInterest a) (TacticalRecommendations a) (PatternAnalysis a)
       (NextUpdatePriority a) (Raw a).
Definition setThreatScore (x : Z) (a : t) : t :=
    mk (Timestamp a) (Region a) (OverallThreatLevel a) x (Summary a) (KeyObservations a)
       (AircraftOfInterest a) (TacticalRecommendations a) (PatternAnalysis a)
       (NextUpdatePriority a) (Raw a).
Definition setSummary (x : string) (a : t) : t :=
    mk (Timestamp a) (Region a) (OverallThreatLevel a) (ThreatScore a) x (KeyObservations a)
       (AircraftOfInterest a) (TacticalRecommendations a) (PatternAnalysis a)
       (NextUpdatePriority a) (Raw a).
Definition setKeyObservations (x : list (gmap string iface)) (a : t) : t :=
    mk (Timestamp a) (Region a) (OverallThreatLevel a) (ThreatScore a) (Summary a) x
       (AircraftOfInterest a) (TacticalRecommendations a) (PatternAnalysis a)
       (NextUpdatePriority a) (Raw a).
Definition setAircraftOfInterest (x : list (gmap string iface)) (a : t) : t :=
    mk (Timestamp a) (Region a) (OverallThreatLevel a) (ThreatScore a) (Summary a)
       (KeyObservations a) x (TacticalRecommendations a) (PatternAnalysis a)
       (NextUpdatePriority a) (Raw a).
Definition setTacticalRecommendations (x : list (gmap string iface)) (a : t) : t :=
    mk (Timestamp a) (Region a) (OverallThreatLevel a) (ThreatScore a) (Summary a)
       (KeyObservations a) (AircraftOfInterest a) x (PatternAnalysis a)
       (NextUpdatePriority a) (Raw a).
Definition setPatternAnalysis (x : gmap string iface) (a : t) : t :=
    mk (Timestamp a) (Region a) (OverallThreatLevel a) (ThreatScore a) (Summary a)
       (KeyObservations a) (AircraftOfInterest a) (TacticalRecommendations a) x
       (NextUpdatePriority a) (Raw a).
Definition setNextUpdatePriority (x : string) (a : t) : t :=
    mk (Timestamp a) (Region a) (OverallThreatLevel a) (ThreatScore a) (Summary a)
       (KeyObservations a) (AircraftOfInterest a) (TacticalRecommendations a)
       (PatternAnalysis a) x (Raw a).
Definition setRaw (x : string) (a : t) : t :=
    mk (Timestamp a) (Region a) (OverallThreatLevel a) (ThreatScore a) (Summary a)
       (KeyObservations a) (AircraftOfInterest a) (TacticalRecommendations a)
       (PatternAnalysis a) (NextUpdatePriority a) x.
End TacticalAnalysis.
Abbreviation TacticalAnalysis := TacticalAnalysis.t.

Module OpenAIMessage.
Record t := mk {
    Role : string;
    Content : string
  }.
Definition zero : t := mk "" "".
End OpenAIMessage.
Abbreviation OpenAIMessage := OpenAIMessage.t.

Module OpenAIChoice.
Record t := mk { Message : OpenAIMessage }.
Definition zero : t := mk OpenAIMessage.zero.
End OpenAIChoice.
Abbreviation OpenAIChoice := OpenAIChoice.t.

(** [Error] is a pointer to a struct with the one field [Message]. *)
Module OpenAIResponse.
Record t := mk {
    Choices : list OpenAIChoice;
    Error : option string
  }.
Definition zero : t := mk [] None.
End OpenAIResponse.
Abbreviation OpenAIResponse := OpenAIResponse.t.

(** The anonymous struct [tokenResp] of [getOpenSkyToken]. *)
Module TokenResp.
Record t := mk {
    AccessToken : string;
    ExpiresIn : Z
  }.
Definition zero : t := mk "" 0.
End TokenResp.
Abbreviation TokenResp := TokenResp.t.

(** The anonymous struct [request] of [handleWebSocket]. *)
Module Request.
Record t := mk {
    Action : string;
    Region : string
  }.
Definition zero : t := mk "" "".
End Request.
Abbreviation Request := Request.t.

(** Predefined regions. *)
Definition regions : gmap string Region :=
  list_to_map
    [ ("taiwan", Region.mk "Taiwan Strait" 21.5%float 26.0%float 117.0%float 123.0%float);
      ("socal", Region.mk "Southern California" 32.5%float 34.5%float (-120.0)%float (-117.0)%float);
      ("europe", Region.mk "United Kingdom" 49.9%float 60.9%float (-8.2)%float 1.8%float);
      ("global", Region.mk "Global" (-90.0)%float 90.0%float (-180.0)%float 180.0%float) ].

(** ** Storing a JSON value into the program's types

    What [d.value] does for the kinds of target that occur in [main.go].  Every
    decoder takes the value the target holds before the call: a member that is
    repeated in the text is stored into what the earlier one left.  [None] is a
    non-nil error; the callers drop the partly filled target in that case. *)

Module Decode.
Import Json.

Fixpoint digitsValue (s : string) (acc : Z) : Z :=
  match s with
  | String c r => digitsValue r (acc * 10 + (byte c - 48))
  | EmptyString => acc
  end.

Fixpoint allDigits (s : string) : bool :=
  match s with
  | String c r => isDigit c && allDigits r
  | EmptyString => true
  end.

Definition splitSign (s : string) : bool * string :=
  match s with
  | String c r => if eqc c "-" then (true, r) else if eqc c "+" then (false, r) else (false, s)
  | EmptyString => (false, s)
  end.

(** [strconv.ParseInt(lit, 10, 64)] on a number literal: an integer in the
    [int64] range, with no fraction and no exponent. *)
Definition parseInt (lit : string) : option Z :=
  let '(neg, ds) := splitSign lit in
  if negb (String.eqb ds "") && allDigits ds then
    let v := if neg then - digitsValue ds 0 else digitsValue ds 0 in
    if (min_int64 <=? v) && (v <=? max_int64) then Some v else None
  else None.

(** [strconv.ParseFloat(lit, 64)] on a number literal: the nearest binary64,
    ties to even; a value that rounds to an infinity is a range error. *)
Definition parseFloat (lit : string) : option float64 :=
  let '(neg, s1) := splitSign lit in
  let '(ip, s2) := spanDigits s1 in
  let '(fp, s3) :=
    match s2 with
    | String c r => if eqc c "." then spanDigits r else ("", s2)
    | EmptyString => ("", s2)
    end in
  let e :=
    match s3 with
    | String _ r => let '(eneg, ds) := splitSign r in
                    if eneg then - digitsValue ds 0 else digitsValue ds 0
    | EmptyString => 0
    end in
  let m := digitsValue (String.append ip fp) 0 in
  let e10 := e - Z.of_nat (String.length fp) in
  let sf :=
    match m with
    | Z.pos pm =>
        if 0 <=? e10 then binary_normalize prec emax (if neg then - (m * 10 ^ e10) else m * 10 ^ e10) 0 false
        else SFdiv prec emax (S754_finite neg pm 0) (S754_finite false (Z.to_pos (10 ^ (- e10))) 0)
    | _ => S754_zero neg
    end in
  match sf with
  | S754_infinity _ | S754_nan => None
  | _ => Some (SF2Prim sf)
  end.

(** A value stored into an [interface{}]. *)
Fixpoint toIface (v : jvalue) : option iface :=
  match v with
  | JNull => Some INil
  | JBool b => Some (IBool b)
  | JNumber lit => option_map IFloat64 (parseFloat lit)
  | JString s => Some (IString s)
  | JArray l =>
      option_map ISlice
        ((fix elements (l : list jvalue) : option (list iface) :=
            match l with
            | [] => Some []
            | x :: r =>
                match toIface x, elements r with
                | Some a, Some b => Some (a :: b)
                | _, _ => None
                end
            end) l)
  | JObject ms =>
      option_map IMap
        ((fix members (ms : list (string * jvalue)) (acc : gmap string iface) :=
            match ms with
            | [] => Some acc
            | (k, x) :: r =>
                match toIface x with
                | Some a => members r (<[k := a]> acc)
                | None => None
                end
            end) ms ∅)
  end.

Definition intoIface (old : iface) (v : jvalue) : option iface := toIface v.

Definition intoString (old : string) (v : jvalue) : option string :=
  match v with
  | JString s => Some s
  | JNull => Some old
  | _ => None
  end.

(** [int] and [int64] targets (both 64 bits wide). *)
Definition intoInt (old : Z) (v : jvalue) : option Z :=
  match v with
  | JNumber lit => parseInt lit
  | JNull => Some old
  | _ => None
  end.

Fixpoint intoElements {T : Type} (zero : T) (into : T -> jvalue -> option T)
    (old : list T) (vs : list jvalue) : option (list T) :=
  match vs with
  | [] => Some []
  | x :: r =>
      e ← into (hd zero old) x;
      es ← intoElements zero into (tl old) r;
      Some (e :: es)
  end.

(** A slice target: element [i] of the array is stored into element [i] of the
    slice as it was, or into a zero value past its end. *)
Definition intoSlice {T : Type} (zero : T) (into : T -> jvalue -> option T)
    (old : list T) (v : jvalue) : option (list T) :=
  match v with
  | JArray vs => intoElements zero into old vs
  | JNull => Some []
  | _ => None
  end.

Fixpoint intoEntries (ms : list (string * jvalue)) (acc : gmap string iface) :
    option (gmap string iface) :=
  match ms with
  | [] => Some acc
  | (k, x) :: r => a ← toIface x; intoEntries r (<[k := a]> acc)
  end.

(** A [map[string]interface{}] target keeps the entries it has. *)
Definition intoMap (old : gmap string iface) (v : jvalue) : option (gmap string iface) :=
  match v with
  | JObject ms => intoEntries ms old
  | JNull => Some ∅
  | _ => None
  end.

(** [foldName]: the name a member is looked up by when no field matches it
    exactly.  ASCII letters are folded to upper case; the only other runes
    that fold to an ASCII letter are U+017F and U+212A. *)
Fixpoint foldName (s : string) : string :=
  match s with
  | EmptyString => EmptyString
  | String c r =>
      let b := byte c in
      if (97 <=? b) && (b <=? 122) then String (chr (b - 32)) (foldName r)
      else
        match r with
        | String c1 r1 =>
            if (b =? 197) && (byte c1 =? 191) then String "S" (foldName r1)
            else
              match r1 with
              | String c2 r2 =>
                  if (b =? 226) && (byte c1 =? 132) && (byte c2 =? 170)
                  then String "K" (foldName r2)
                  else String c (foldName r)
              | EmptyString => String c (foldName r)
              end
        | EmptyString => String c EmptyString
        end
  end.

(** The member [key] names the field tagged [name]. *)
Definition names (key name : string) : bool :=
  String.eqb (foldName key) (foldName name).

Fixpoint intoFields {T : Type} (field : T -> string -> jvalue -> option T)
    (ms : list (string * jvalue)) (x : T) : option T :=
  match ms with
  | [] => Some x
  | (k, v) :: r => y ← field x k v; intoFields field r y
  end.

(** A struct target: each member goes to the field it names, and a member that
    names no field is skipped. *)
Definition intoStruct {T : Type} (field : T -> string -> jvalue -> option T)
    (old : T) (v : jvalue) : option T :=
  match v with
  | JObject ms => intoFields field ms old
  | JNull => Some old
  | _ => None
  end.

Definition tacticalAnalysisField (a : TacticalAnalysis) (key : string) (v : jvalue) :
    option TacticalAnalysis :=
  if names key "timestamp" then
    x ← intoString (TacticalAnalysis.Timestamp a) v; Some (TacticalAnalysis.setTimestamp x a)
  else if names key "region" then
    x ← intoString (TacticalAnalysis.Region a) v; Some (TacticalAnalysis.setRegion x a)
  else if names key "overall_threat_level" then
    x ← intoString (TacticalAnalysis.OverallThreatLevel a) v;
    Some (TacticalAnalysis.setOverallThreatLevel x a)
  else if names key "threat_score" then
    x ← intoInt (TacticalAnalysis.ThreatScore a) v; Some (TacticalAnalysis.setThreatScore x a)
  else if names key "summary" then
    x ← intoString (TacticalAnalysis.Summary a) v; Some (TacticalAnalysis.setSummary x a)
  else if names key "key_observations" then
    x ← intoSlice ∅ intoMap (TacticalAnalysis.KeyObservations a) v;
    Some (TacticalAnalysis.setKeyObservations x a)
  else if names key "aircraft_of_interest" then
    x ← intoSlice ∅ intoMap (TacticalAnalysis.AircraftOfInterest a) v;
    Some (TacticalAnalysis.setAircraftOfInterest x a)
  else if names key "tactical_recommendations" then
    x ← intoSlice ∅ intoMap (TacticalAnalysis.TacticalRecommendations a) v;
    Some (TacticalAnalysis.setTacticalRecommendations x a)
  else if names key "pattern_analysis" then
    x ← intoMap (TacticalAnalysis.PatternAnalysis a) v;
    Some (TacticalAnalysis.setPatternAnalysis x a)
  else if names key "next_update_priority" then
    x ← intoString (TacticalAnalysis.NextUpdatePriority a) v;
    Some (TacticalAnalysis.setNextUpdatePriority x a)
  else if names key "raw" then
    x ← intoString (TacticalAnalysis.Raw a) v; Some (TacticalAnalysis.setRaw x a)
  else Some a.

Definition requestField (q : Request) (key : string) (v : jvalue) : option Request :=
  if names key "action" then
    x ← intoString (Request.Action q) v; Some (Request.mk x (Request.Region q))
  else if names key "region" then
    x ← intoString (Request.Region q) v; Some (Request.mk (Request.Action q) x)
  else Some q.

Definition tokenRespField (t : TokenResp) (key : string) (v : jvalue) : option TokenResp :=
  if names key "access_token" then
    x ← intoString (TokenResp.AccessToken t) v; Some (TokenResp.mk x (TokenResp.ExpiresIn t))
  else if names key "expires_in" then
    x ← intoInt (TokenResp.ExpiresIn t) v; Some (TokenResp.mk (TokenResp.AccessToken t) x)
  else Some t.

Definition openSkyResponseField (o : OpenSkyResponse) (key : string) (v : jvalue) :
    option OpenSkyResponse :=
  if names key "time" then
    x ← intoInt (OpenSkyResponse.Time o) v; Some (OpenSkyResponse.mk x (OpenSkyResponse.States o))
  else if names key "states" then
    x ← intoSlice [] (intoSlice INil intoIface) (OpenSkyResponse.States o) v;
    Some (OpenSkyResponse.mk (OpenSkyResponse.Time o) x)
  else Some o.

Definition openAIMessageField (m : OpenAIMessage) (key : string) (v : jvalue) :
    option OpenAIMessage :=
  if names key "role" then
    x ← intoString (OpenAIMessage.Role m) v; Some (OpenAIMessage.mk x (OpenAIMessage.Content m))
  else if names key "content" then
    x ← intoString (OpenAIMessage.Content m) v; Some (OpenAIMessage.mk (OpenAIMessage.Role m) x)
  else Some m.

Definition openAIChoiceField (c : OpenAIChoice) (key : string) (v : jvalue) :
    option OpenAIChoice :=
  if names key "message" then
    x ← intoStruct openAIMessageField (OpenAIChoice.Message c) v; Some (OpenAIChoice.mk x)
  else Some c.

(** The one field of the struct [Error] points to. *)
Definition errorField (m : string) (key : string) (v : jvalue) : option string :=
  if names key "message" then intoString m v else Some m.

(** A pointer target: [null] makes it nil, anything else is stored into what
    it points to, allocated when it was nil. *)
Definition intoError (old : option string) (v : jvalue) : option (option string) :=
  match v with
  | JNull => Some None
  | _ => option_map Some (intoStruct errorField (default "" old) v)
  end.

Definition openAIResponseField (o : OpenAIResponse) (key : string) (v : jvalue) :
    option OpenAIResponse :=
  if names key "choices" then
    x ← intoSlice OpenAIChoice.zero (intoStruct openAIChoiceField) (OpenAIResponse.Choices o) v;
    Some (OpenAIResponse.mk x (OpenAIResponse.Error o))
  else if names key "error" then
    x ← intoError (OpenAIResponse.Error o) v; Some (OpenAIResponse.mk (OpenAIResponse.Choices o) x)
  else Some o.

(** [json.Unmarshal(data, &x)] for a freshly declared struct [x]. *)
Definition unmarshal {T : Type} (field : T -> string -> jvalue -> option T) (zero : T)
    (data : string) : option T :=
  v ← parse data; intoStruct field zero v.

(** [json.NewDecoder(r).Decode(&x)] for a freshly declared struct [x]. *)
Definition decodeFirst {T : Type} (field : T -> string -> jvalue -> option T) (zero : T)
    (data : string) : option T :=
  v ← parseFirst data; intoStruct field zero v.

End Decode.

(** *** Helper functions for type conversion *)

Definition getString (v : iface) : string :=
  match v with IString s => s | _ => "" end.

Definition getStringPtr (v : iface) : option string :=
  match v with IString s => Some s | _ => None end.

Definition getFloat64Ptr (v : iface) : option float64 :=
  match v with IFloat64 f => Some f | _ => None end.

Definition getInt64Ptr (v : iface) : option Z :=
  match v with IFloat64 f => Some (int64_of_float64 f) | _ => None end.

Definition getInt64 (v : iface) : Z :=
  match v with IFloat64 f => int64_of_float64 f | _ => 0 end.

Definition getInt (v : iface) : Z :=
  match v with IFloat64 f => int64_of_float64 f | _ => 0 end.

Definition getBool (v : iface) : bool :=
  match v with IBool b => b | _ => false end.

(** *** [parseAircraftStates] *)

(** [state[i]]: the loop body only indexes a row it has checked to hold at least
    17 fields, so the default is never returned there. *)
Definition index (state : list iface) (i : nat) : iface := nth i state INil.

(** The composite literal [ac := Aircraft{...}] of the loop body; [Sensors] and
    [Category] are not listed in it and keep their zero values. *)
Definition aircraftOfState (state : list iface) : Aircraft :=
  {| ICAO24 := getString (index state 0);
     Callsign := getString (index state 1);
     OriginCountry := getString (index state 2);
     TimePosition := getInt64Ptr (index state 3);
     LastContact := getInt64 (index state 4);
     Longitude := getFloat64Ptr (index state 5);
     Latitude := getFloat64Ptr (index state 6);
     BaroAltitude := getFloat64Ptr (index state 7);
     OnGround := getBool (index state 8);
     Velocity := getFloat64Ptr (index state 9);
     TrueTrack := getFloat64Ptr (index state 10);
     VerticalRate := getFloat64Ptr (index state 11);
     Sensors := [];
     GeoAltitude := getFloat64Ptr (index state 13);
     Squawk := getStringPtr (index state 14);
     SPI := getBool (index state 15);
     PositionSource := getInt (index state 16);
     Category := 0 |}.

(** One iteration of [for _, state := range states]. *)
Definition parseStep (aircraft : list Aircraft) (state : list iface) : list Aircraft :=
  if (length state <? 17)%nat then aircraft
  else
    let ac := aircraftOfState state in
    if bool_decide (is_Some (Latitude ac)) && bool_decide (is_Some (Longitude ac))
    then aircraft ++ [ac]
    else aircraft.

Definition parseAircraftStates (states : list (list iface)) : list Aircraft :=
  fold_left parseStep states [].

(** *** The rows of the upstream response, said without the parser

    A state vector of the upstream API is a JSON array; its fields 5 and 6
    are the longitude and the latitude, each a number or [null]. *)

(** The JSON value at position [i] of a row. *)
Definition field (state : list iface) (i : nat) : iface := nth i state INil.

Definition jsonString (v : iface) : option string :=
  match v with IString s => Some s | _ => None end.
Definition jsonNumber (v : iface) : option float64 :=
  match v with IFloat64 f => Some f | _ => None end.
Definition jsonBool (v : iface) : option bool :=
  match v with IBool b => Some b | _ => None end.

(** A row that has its 17 fields, and numbers for longitude and latitude. *)
Definition located (state : list iface) : Prop :=
  (17 <= length state)%nat
  /\ is_Some (jsonNumber (field state 5))
  /\ is_Some (jsonNumber (field state 6)).

#[global] Instance located_dec (state : list iface) : Decision (located state).
Proof. unfold located. apply _. Defined.

(** [ac] is the record of the row [state]: every field of the record is what
    the row has at its position when that is of the right kind, and absent
    (or the zero value, for a field that cannot be absent) when it is not. *)
Definition rowRecord (state : list iface) (ac : Aircraft) : Prop :=
  ICAO24 ac = default "" (jsonString (field state 0))
  /\ Callsign ac = default "" (jsonString (field state 1))
  /\ OriginCountry ac = default "" (jsonString (field state 2))
  /\ TimePosition ac = int64_of_float64 <$> jsonNumber (field state 3)
  /\ LastContact ac = default 0 (int64_of_float64 <$> jsonNumber (field state 4))
  /\ Longitude ac = jsonNumber (field state 5)
  /\ Latitude ac = jsonNumber (field state 6)
  /\ BaroAltitude ac = jsonNumber (field state 7)
  /\ OnGround ac = default false (jsonBool (field state 8))
  /\ Velocity ac = jsonNumber (field state 9)
  /\ TrueTrack ac = jsonNumber (field state 10)
  /\ VerticalRate ac = jsonNumber (field state 11)
  /\ Sensors ac = []
  /\ GeoAltitude ac = jsonNumber (field state 13)
  /\ Squawk ac = jsonString (field state 14)
  /\ SPI ac = default false (jsonBool (field state 15))
  /\ PositionSource ac = default 0 (int64_of_float64 <$> jsonNumber (field state 16))
  /\ Category ac = 0.

(** ** The process and its surroundings *)

(** The environment variables the program reads with [os.Getenv]. *)
Record Env := mkEnv {
  OPENAI_API_KEY : string;
  OPENSKY_CLIENT_ID : string;
  OPENSKY_CLIENT_SECRET : string;
  OPENSKY_USERNAME : string;
  OPENSKY_PASSWORD : string
}.

(** A [*websocket.Conn]. *)
Definition Conn : Set := nat.

(** The [Authorization] header of a request to the position provider. *)
Inductive Auth : Type :=
| NoAuth
| Bearer (token : string)
| Basic (username password : string).

(** What [conn.WriteJSON] is given: an [*AirspaceData], or the map with the
    keys [type] (always [analysis]), [region] and [analysis]. *)
Inductive Message : Type :=
| Snapshot (data : AirspaceData)
| Analysis (region : string) (analysis : TacticalAnalysis).

(** What the process does to the outside, in the order it does it. *)
Inductive Event : Type :=
| TokenRequest (clientID clientSecret : string)
| OpenSkyRequest (region : Region) (auth : Auth)
| OpenAIRequest (apiKey region : string) (aircraft : list Aircraft)
| WriteJSON (conn : Conn) (m : Message)
| Close (conn : Conn)
| Sleep (d : Duration)
| Log (line : string).

(** How an HTTP exchange ends: no response at all, or a status with a body
    ([None] when reading the body fails). *)
Inductive HttpResult : Type :=
| HttpFailed
| HttpResponse (status : Z) (body : option string).

(** What a remote endpoint answers when it is asked, and how long that takes. *)
Record HttpReply := mkReply {
  latency : N;
  outcome : HttpResult
}.

(** The library calls whose results the program only passes on: the decoders of
    [encoding/json] at the types they are used at ([None] for a non-nil error)
    and [time.Time.UTC().Format(time.RFC3339)]. *)
Class GoLib := {
  unmarshalOpenAIResponse : string -> option OpenAIResponse;
  unmarshalTacticalAnalysis : string -> option TacticalAnalysis;
  decodeTokenResp : string -> option TokenResp;
  unmarshalOpenSkyResponse : string -> option OpenSkyResponse;
  unmarshalRequest : string -> option Request;
  formatRFC3339 : Time -> string
}.

(** The package-level variables of [main.go] (the mutexes apart: a function
    below runs from start to end without another goroutine in between), the
    clock [time.Now] reads, the events so far, latest first, and what the
    surroundings decide: the connections a write fails on, and by how much
    [time.Sleep] oversleeps. *)
Record State := mkState {
  clients : gmap Conn string;
  airspaceCache : gmap string AirspaceData;
  analysisCache : gmap string TacticalAnalysis;
  lastOpenSkyCall : Time;
  oauthToken : string;
  oauthTokenExpiry : Time;
  clock : Time;
  trace : list Event;
  lost : gset Conn;
  late : N
}.

Definition setClients (x : gmap Conn string) (s : State) : State :=
  mkState x (airspaceCache s) (analysisCache s) (lastOpenSkyCall s) (oauthToken s)
    (oauthTokenExpiry s) (clock s) (trace s) (lost s) (late s).
Definition setAirspaceCache (x : gmap string AirspaceData) (s : State) : State :=
  mkState (clients s) x (analysisCache s) (lastOpenSkyCall s) (oauthToken s)
    (oauthTokenExpiry s) (clock s) (trace s) (lost s) (late s).
Definition setAnalysisCache (x : gmap string TacticalAnalysis) (s : State) : State :=
  mkState (clients s) (airspaceCache s) x (lastOpenSkyCall s) (oauthToken s)
    (oauthTokenExpiry s) (clock s) (trace s) (lost s) (late s).
Definition setLastOpenSkyCall (x : Time) (s : State) : State :=
  mkState (clients s) (airspaceCache s) (analysisCache s) x (oauthToken s)
    (oauthTokenExpiry s) (clock s) (trace s) (lost s) (late s).
Definition setOauthToken (x : string) (s : State) : State :=
  mkState (clients s) (airspaceCache s) (analysisCache s) (lastOpenSkyCall s) x
    (oauthTokenExpiry s) (clock s) (trace s) (lost s) (late s).
Definition setOauthTokenExpiry (x : Time) (s : State) : State :=
  mkState (clients s) (airspaceCache s) (analysisCache s) (lastOpenSkyCall s) (oauthToken s)
    x (clock s) (trace s) (lost s) (late s).
Definition setClock (x : Time) (s : State) : State :=
  mkState (clients s) (airspaceCache s) (analysisCache s) (lastOpenSkyCall s) (oauthToken s)
    (oauthTokenExpiry s) x (trace s) (lost s) (late s).
Definition setTrace (x : list Event) (s : State) : State :=
  mkState (clients s) (airspaceCache s) (analysisCache s) (lastOpenSkyCall s) (oauthToken s)
    (oauthTokenExpiry s) (clock s) x (lost s) (late s).
Definition setLost (x : gset Conn) (s : State) : State :=
  mkState (clients s) (airspaceCache s) (analysisCache s) (lastOpenSkyCall s) (oauthToken s)
    (oauthTokenExpiry s) (clock s) (trace s) x (late s).
Definition setLate (x : N) (s : State) : State :=
  mkState (clients s) (airspaceCache s) (analysisCache s) (lastOpenSkyCall s) (oauthToken s)
    (oauthTokenExpiry s) (clock s) (trace s) (lost s) x.

(** The state of a process that starts at [boot]. *)
Definition initial (boot : Time) : State :=
  mkState ∅ ∅ ∅ zeroTime "" zeroTime boot [] ∅ 0.

(** *** Computations over the state *)

Definition M (A : Type) : Type := State -> A * State.

#[global] Instance M_ret : MRet M := fun A x s => (x, s).
#[global] Instance M_bind : MBind M :=
  fun A B f m s => let '(x, s') := m s in f x s'.

Definition gets {A : Type} (f : State -> A) : M A := fun s => (f s, s).
Definition modify (f : State -> State) : M unit := fun s => (tt, f s).
Definition emit (e : Event) : M unit := modify (fun s => setTrace (e :: trace s) s).

(** The state a computation ends in, and the events it added (oldest first). *)
Definition exec {A : Type} (m : M A) (s : State) : State := snd (m s).
Definition eval {A : Type} (m : M A) (s : State) : A := fst (m s).
Definition events {A : Type} (m : M A) (s : State) : list Event :=
  rev (take (length (trace (exec m s)) - length (trace s)) (trace (exec m s))).

Fixpoint forEach {A : Type} (l : list A) (body : A -> M unit) : M unit :=
  match l with
  | [] => mret tt
  | x :: r => body x;; forEach r body
  end.

(** [time.Now()].  The clock moves where a goroutine blocks: in an HTTP
    exchange, in [time.Sleep], in a read from a connection, and between the
    actions of a run; what lies between two such points takes no time. *)
Definition timeNow : M Time := gets clock.

(** [time.Sleep(d)] pauses for at least [d], and returns at once for a [d]
    that is not positive; by how much it oversleeps is not the program's to
    decide. *)
Definition timeSleep (d : Duration) : M unit :=
  emit (Sleep d);;
  modify (fun s => setClock (clock s + (if 0 <? d then d + Z.of_N (late s) else 0)) s).

Definition logPrintf (line : string) : M unit := emit (Log line).

(** Sends a request and waits for the answer. *)
Definition httpDo (request : Event) (reply : HttpReply) : M HttpResult :=
  emit request;;
  modify (fun s => setClock (clock s + Z.of_N (latency reply)) s);;
  mret (outcome reply).

(** [conn.WriteJSON(v)]: the call is an event whether it succeeds or not; the
    result is [true] for a nil error.  The write fails on a connection that
    is lost. *)
Definition writeJSON (conn : Conn) (m : Message) : M bool :=
  emit (WriteJSON conn m);;
  gone ← gets lost;
  mret (bool_decide (conn ∉ gone)).

(** *** Kinds of event *)

(** What the limiter and the credential cache do to the outside. *)
Definition credential (e : Event) : Prop :=
  match e with
  | TokenRequest _ _ | Sleep _ | Log _ => True
  | OpenSkyRequest _ _ | OpenAIRequest _ _ _ | WriteJSON _ _ | Close _ => False
  end.

(** What the fetcher does to the outside. *)
Definition upstream (e : Event) : Prop :=
  match e with
  | TokenRequest _ _ | OpenSkyRequest _ _ | Sleep _ | Log _ => True
  | OpenAIRequest _ _ _ | WriteJSON _ _ | Close _ => False
  end.

(** What a broadcast does for one subscriber: it writes the message, and logs
    [line] when the write fails, which it does on a connection that is
    [gone]. *)
Definition attempt (gone : gset Conn) (m : Message) (line : string) (conn : Conn) :
    list Event :=
  WriteJSON conn m :: (if decide (conn ∈ gone) then [Log line] else []).

(** What a WebSocket session does to the outside: it writes snapshots of
    [cache] to its own connection, closes it, and logs. *)
Definition serves (conn : Conn) (cache : gmap string AirspaceData) (e : Event) : Prop :=
  match e with
  | WriteJSON c (Snapshot data) => c = conn /\ exists key, cache !! key = Some data
  | Close c => c = conn
  | Log _ => True
  | WriteJSON _ (Analysis _ _) | TokenRequest _ _ | OpenSkyRequest _ _ | OpenAIRequest _ _ _
  | Sleep _ => False
  end.

(** [s'] comes after [s] in the session of [conn]: the caches are as they
    were, the clock is not set back, no subscription but that of [conn] has
    changed, and only events of the session were added. *)
Record attends (conn : Conn) (s s' : State) : Prop := mkAttends {
  attends_airspace : airspaceCache s' = airspaceCache s;
  attends_analysis : analysisCache s' = analysisCache s;
  attends_clock : clock s <= clock s';
  attends_others : delete conn (clients s') = delete conn (clients s);
  attends_trace : exists new, trace s' = new ++ trace s /\ Forall (serves conn (airspaceCache s)) new
}.

(** [s'] comes after [s] with the registry and both caches as they were, the
    clock not set back, and only events of the kind [P] added. *)
Record calm (P : Event -> Prop) (s s' : State) : Prop := mkCalm {
  calm_clients : clients s' = clients s;
  calm_airspace : airspaceCache s' = airspaceCache s;
  calm_analysis : analysisCache s' = analysisCache s;
  calm_clock : clock s <= clock s';
  calm_trace : exists new, trace s' = new ++ trace s /\ Forall P new
}.

(** [s'] is [s] with events added. *)
Definition traced (s s' : State) : Prop := exists new, s' = setTrace (new ++ trace s) s.

Section Program.
Context {lib : GoLib}.
Variable env : Env.

(** *** The credential cache: [getOpenSkyToken] *)

(** [json.NewDecoder(resp.Body).Decode(&tokenResp)]: the decoder reads the body
    itself, and fails when the read or the text does. *)
Definition decodeBody (body : option string) : option TokenResp :=
  match body with
  | Some data => decodeTokenResp data
  | None => None
  end.

Definition getOpenSkyToken (issuer : HttpReply) : M (result string) :=
  let clientID := OPENSKY_CLIENT_ID env in
  let clientSecret := OPENSKY_CLIENT_SECRET env in
  if String.eqb clientID "" || String.eqb clientSecret "" then
    mret (Err "no OAuth2 credentials")
  else
    token ← gets oauthToken;
    expiry ← gets oauthTokenExpiry;
    now ← timeNow;
    (* Return cached token if still valid (60s buffer) *)
    if negb (String.eqb token "") && (now <? expiry - 60 * Second) then
      mret (Ok token)
    else
      resp ← httpDo (TokenRequest clientID clientSecret) issuer;
      match resp with
      | HttpFailed => mret (Err "token request failed")
      | HttpResponse status body =>
          if negb (status =? 200) then mret (Err "token request returned")
          else
            match decodeBody body with
            | None => mret (Err "token parse failed")
            | Some tokenResp =>
                modify (setOauthToken (TokenResp.AccessToken tokenResp));;
                now ← timeNow;
                modify (setOauthTokenExpiry
                          (now + wrap64 (TokenResp.ExpiresIn tokenResp * Second)));;
                logPrintf "OpenSky OAuth2 token acquired";;
                token ← gets oauthToken;
                mret (Ok token)
            end
      end.

(** Both OAuth2 variables are set. *)
Definition configured : Prop :=
  OPENSKY_CLIENT_ID env <> "" /\ OPENSKY_CLIENT_SECRET env <> "".

(** A token is cached and more than 60 seconds remain before it expires. *)
Definition unexpired (s : State) : Prop :=
  oauthToken s <> "" /\ clock s < oauthTokenExpiry s - 60 * Second.

(** The state once the token request has been answered. *)
Definition asked (issuer : HttpReply) (s : State) : State :=
  setClock (clock s + Z.of_N (latency issuer))
    (setTrace (TokenRequest (OPENSKY_CLIENT_ID env) (OPENSKY_CLIENT_SECRET env) :: trace s) s).

(** The token response of an exchange that succeeds. *)
Definition granted (issuer : HttpReply) : option TokenResp :=
  match outcome issuer with
  | HttpResponse status body => if status =? 200 then decodeBody body else None
  | HttpFailed => None
  end.

(** *** The rate-limited fetcher: [fetchOpenSkyData] *)

Definition hasAuth : bool :=
  negb (String.eqb (OPENSKY_CLIENT_ID env) "") || negb (String.eqb (OPENSKY_USERNAME env) "").

Definition minGap : Duration := if hasAuth then 3 * Second else 6 * Second.

(** Auth priority: OAuth2 > Basic Auth > Anonymous. *)
Definition requestAuth (issuer : HttpReply) : M Auth :=
  if negb (String.eqb (OPENSKY_CLIENT_ID env) "") then
    r ← getOpenSkyToken issuer;
    match r with
    | Err _ => logPrintf "OAuth2 token error (falling back to anonymous)";; mret NoAuth
    | Ok token => mret (Bearer token)
    end
  else if negb (String.eqb (OPENSKY_USERNAME env) "")
          && negb (String.eqb (OPENSKY_PASSWORD env) "") then
    mret (Basic (OPENSKY_USERNAME env) (OPENSKY_PASSWORD env))
  else mret NoAuth.

(** The global rate limiter: the lines between [openSkyMutex.Lock()] and
    [openSkyMutex.Unlock()]. *)
Definition rateLimit : M unit :=
  last ← gets lastOpenSkyCall;
  now ← timeNow;
  let elapsed := timeSub now last in
  (if elapsed <? minGap then
     let wait := wrap64 (minGap - elapsed) in
     logPrintf "Rate limiter: waiting before next OpenSky call";;
     timeSleep wait
   else mret tt);;
  now ← timeNow;
  modify (setLastOpenSkyCall now).

Definition fetchOpenSkyData (region : Region) (issuer opensky : HttpReply) :
    M (result (list Aircraft)) :=
  rateLimit;;
  auth ← requestAuth issuer;
  resp ← httpDo (OpenSkyRequest region auth) opensky;
  match resp with
  | HttpFailed => mret (Err "request failed")
  | HttpResponse status body =>
      if status =? 429 then mret (Err "OpenSky rate limited (429) - will retry next cycle")
      else if status =? 401 then
        (* Clear cached OAuth token on 401 *)
        modify (setOauthToken "");;
        mret (Err "OpenSky auth failed (401) - check credentials")
      else if negb (status =? 200) then mret (Err "API returned")
      else
        match body with
        | None => mret (Err "read body failed")
        | Some respBody =>
            match unmarshalOpenSkyResponse respBody with
            | None => mret (Err "JSON parse failed")
            | Some openSkyResp =>
                mret (Ok (parseAircraftStates (OpenSkyResponse.States openSkyResp)))
            end
        end
  end.

(** The state in which [fetchOpenSkyData] receives the response: the limiter
    has run, the credential has been looked up and the request is out. *)
Definition answered (region : Region) (issuer opensky : HttpReply) (s : State) : State :=
  let s1 := exec rateLimit s in
  let s2 := exec (requestAuth issuer) s1 in
  setClock (clock s2 + Z.of_N (latency opensky))
    (setTrace (OpenSkyRequest region (eval (requestAuth issuer) s1) :: trace s2) s2).

(** *** The broadcaster and the poller *)

(** The clients are visited in the order of [map_to_list]; Go fixes no order. *)
Definition broadcastToClients (region : string) (data : AirspaceData) : M unit :=
  cs ← gets clients;
  forEach (map_to_list cs) (fun '(conn, clientRegion) =>
    if String.eqb clientRegion region then
      writeJSON conn (Snapshot data) ≫= fun ok : bool =>
      if ok then mret tt else logPrintf "Write to client failed"
    else mret tt).

Definition broadcastAnalysisToClients (region : string) (analysis : TacticalAnalysis) : M unit :=
  cs ← gets clients;
  forEach (map_to_list cs) (fun '(conn, clientRegion) =>
    if String.eqb clientRegion region then
      writeJSON conn (Analysis region analysis) ≫= fun ok : bool =>
      if ok then mret tt else logPrintf "Write analysis to client failed"
    else mret tt).

Definition fetchAndBroadcast (regionName : string) (region : Region)
    (issuer opensky : HttpReply) : M unit :=
  r ← fetchOpenSkyData region issuer opensky;
  match r with
  | Err _ => logPrintf "Error fetching OpenSky data"
  | Ok aircraft =>
      now ← timeNow;
      let data := AirspaceData.mk (timeUnix now) aircraft regionName (Z.of_nat (length aircraft)) in
      (* Update cache *)
      modify (fun s => setAirspaceCache (<[regionName := data]> (airspaceCache s)) s);;
      (* Broadcast to subscribed clients *)
      broadcastToClients regionName data;;
      logPrintf "Fetched aircraft"
  end.

(** [pollOpenSky] over the cycles it gets to run: the initial fetch and one per
    tick, each with what the two endpoints answer in it. *)
Definition pollOpenSky (regionName : string) (cycles : list (HttpReply * HttpReply)) : M unit :=
  match regions !! regionName with
  | None => logPrintf "Unknown region"
  | Some region =>
      forEach cycles (fun '(issuer, opensky) =>
        fetchAndBroadcast regionName region issuer opensky)
  end.

(** *** The analysis engine *)

(** The two scans walk the string rune by rune, with [i] the byte offset of
    the rune.  A brace is one byte, and that byte occurs in no longer encoding,
    so the scans are written over the bytes. *)
Fixpoint findJSONStartFrom (i : Z) (s : string) : Z :=
  match s with
  | EmptyString => -1
  | String c r => if Ascii.eqb c "{" then i else findJSONStartFrom (i + 1) r
  end.

Definition findJSONStart (s : string) : Z := findJSONStartFrom 0 s.

Fixpoint findJSONEndFrom (i depth : Z) (s : string) : Z :=
  match s with
  | EmptyString => -1
  | String c r =>
      if Ascii.eqb c "{" then findJSONEndFrom (i + 1) (depth + 1) r
      else if Ascii.eqb c "}" then
        let depth := depth - 1 in
        if depth =? 0 then i else findJSONEndFrom (i + 1) depth r
      else findJSONEndFrom (i + 1) depth r
  end.

Definition findJSONEnd (s : string) : Z := findJSONEndFrom 0 0 s.

(** [jsonContent]: the part of the reply that is handed to the decoder. *)
Definition jsonContent (content : string) : string :=
  let jsonStart := let idx := findJSONStart content in if 0 <=? idx then idx else 0 in
  let jsonEnd :=
    let idx := findJSONEnd (str_drop (Z.to_nat jsonStart) content) in
    if 0 <=? idx then jsonStart + idx + 1 else Z.of_nat (String.length content) in
  slice content (Z.to_nat jsonStart) (Z.to_nat jsonEnd).

(** *** Balanced braces

    What the two scans look for, said without the scans. *)

(** The depth of braces at the end of [s]: opening braces minus closing ones. *)
Fixpoint braceDepth (s : string) : Z :=
  match s with
  | EmptyString => 0
  | String c r =>
      (if Ascii.eqb c "{" then 1 else if Ascii.eqb c "}" then -1 else 0) + braceDepth r
  end.

(** [i] is the offset of the first opening brace of [s]. *)
Definition firstBrace (s : string) (i : nat) : Prop :=
  String.get i s = Some "{"%char
  /\ forall k, (k < i)%nat -> String.get k s <> Some "{"%char.

(** The first [n] bytes of [t] are one balanced group: their braces balance,
    and those of no shorter prefix do. *)
Definition balancedGroup (t : string) (n : nat) : Prop :=
  (0 < n <= String.length t)%nat
  /\ braceDepth (str_take n t) = 0
  /\ forall m, (0 < m < n)%nat -> 0 < braceDepth (str_take m t).

(** The record returned when the reply does not decode. *)
Definition degraded (timestamp region content : string) : TacticalAnalysis :=
  TacticalAnalysis.mk timestamp region "UNKNOWN" 0
    "Analysis parsing failed - raw response available" [] [] [] ∅ "" content.

(** The end of [callOpenAIAnalysis], from [content] on. *)
Definition parseAnalysis (region content : string) : M TacticalAnalysis :=
  match unmarshalTacticalAnalysis (jsonContent content) with
  | None =>
      (* If parsing fails, return a basic analysis with the raw content *)
      now ← timeNow;
      mret (degraded (formatRFC3339 now) region content)
  | Some analysis =>
      now ← timeNow;
      mret (TacticalAnalysis.setRegion region
              (TacticalAnalysis.setTimestamp (formatRFC3339 now) analysis))
  end.

(** Building the request cannot fail: the body is made of strings and two
    constants, and the URL is fixed.  The status of the response is not looked
    at. *)
Definition callOpenAIAnalysis (apiKey region : string) (aircraft : list Aircraft)
    (openai : HttpReply) : M (result TacticalAnalysis) :=
  resp ← httpDo (OpenAIRequest apiKey region aircraft) openai;
  match resp with
  | HttpFailed => mret (Err "API request")
  | HttpResponse _ None => mret (Err "read response")
  | HttpResponse _ (Some body) =>
      match unmarshalOpenAIResponse body with
      | None => mret (Err "parse response")
      | Some openAIResp =>
          match OpenAIResponse.Error openAIResp with
          | Some message => mret (Err (String.append "OpenAI error: " message))
          | None =>
              match OpenAIResponse.Choices openAIResp with
              | [] => mret (Err "no response choices")
              | choice :: _ =>
                  (* Parse the JSON response from the AI *)
                  let content := OpenAIMessage.Content (OpenAIChoice.Message choice) in
                  analysis ← parseAnalysis region content;
                  mret (Ok analysis)
              end
          end
      end
  end.

(** The state once the reasoning service has answered. *)
Definition consulted (apiKey region : string) (aircraft : list Aircraft) (openai : HttpReply)
    (s : State) : State :=
  setClock (clock s + Z.of_N (latency openai))
    (setTrace (OpenAIRequest apiKey region aircraft :: trace s) s).

Definition performAnalysis (regionName : string) (openai : HttpReply) : M unit :=
  let apiKey := OPENAI_API_KEY env in
  if String.eqb apiKey "" then logPrintf "OPENAI_API_KEY not set, skipping analysis"
  else
    (* Get cached aircraft data *)
    cache ← gets airspaceCache;
    match cache !! regionName with
    | None => logPrintf "No aircraft data for analysis"
    | Some data =>
        if (length (AirspaceData.Aircraft data) =? 0)%nat then
          logPrintf "No aircraft data for analysis"
        else
          r ← callOpenAIAnalysis apiKey regionName (AirspaceData.Aircraft data) openai;
          match r with
          | Err _ => logPrintf "AI analysis error"
          | Ok analysis =>
              (* Cache the analysis *)
              modify (fun s => setAnalysisCache (<[regionName := analysis]> (analysisCache s)) s);;
              logPrintf "AI Analysis complete";;
              (* Broadcast analysis to WebSocket clients *)
              broadcastAnalysisToClients regionName analysis
          end
    end.

(** The periodic analysis asks the reasoning service exactly when the key is
    set and the snapshot cache holds an aircraft for the region. *)
Definition analysable (regionName : string) (s : State) : Prop :=
  OPENAI_API_KEY env <> ""
  /\ exists data, airspaceCache s !! regionName = Some data /\ AirspaceData.Aircraft data <> [].

(** [runTacticalAnalysis] over the analyses it gets to run: the initial one and
    one per tick, each with what the reasoning service answers in it. *)
Definition runTacticalAnalysis (regionName : string) (ticks : list HttpReply) : M unit :=
  (* Initial analysis after first data fetch *)
  timeSleep (15 * Second);;
  forEach ticks (performAnalysis regionName).

(** *** REST handlers *)

Inductive Body : Type :=
| Text (s : string)
| SnapshotJSON (data : AirspaceData)
| AnalysisJSON (analysis : TacticalAnalysis).

Record Response := mkResponse {
  status : Z;
  body : Body
}.

Definition queryRegion (region : string) : string :=
  if String.eqb region "" then "taiwan" else region.

Definition handleGetAnalysis (region : string) : M Response :=
  let region := queryRegion region in
  cache ← gets analysisCache;
  match cache !! region with
  | Some analysis => mret (mkResponse 200 (AnalysisJSON analysis))
  | None =>
      (* Return empty analysis if none cached *)
      now ← timeNow;
      mret (mkResponse 200 (AnalysisJSON
        (TacticalAnalysis.mk (formatRFC3339 now) region "NOMINAL" 0
           "Awaiting initial analysis..." [] [] [] ∅ "NORMAL" "")))
  end.

Definition handleRunAnalysis (method region : string) (openai : HttpReply) : M Response :=
  if negb (String.eqb method "POST") then mret (mkResponse 405 (Text "Method not allowed"))
  else
    let region := queryRegion region in
    (* Run analysis synchronously *)
    let apiKey := OPENAI_API_KEY env in
    if String.eqb apiKey "" then mret (mkResponse 503 (Text "OPENAI_API_KEY not configured"))
    else
      cache ← gets airspaceCache;
      match cache !! region with
      | None => mret (mkResponse 503 (Text "No aircraft data available"))
      | Some data =>
          if (length (AirspaceData.Aircraft data) =? 0)%nat then
            mret (mkResponse 503 (Text "No aircraft data available"))
          else
            r ← callOpenAIAnalysis apiKey region (AirspaceData.Aircraft data) openai;
            match r with
            | Err e => mret (mkResponse 500 (Text e))
            | Ok analysis =>
                (* Update cache *)
                modify (fun s => setAnalysisCache (<[region := analysis]> (analysisCache s)) s);;
                mret (mkResponse 200 (AnalysisJSON analysis))
            end
      end.

Definition handleGetAircraft (region : string) (issuer opensky : HttpReply) : M Response :=
  let region := queryRegion region in
  cache ← gets airspaceCache;
  match cache !! region with
  | Some data => mret (mkResponse 200 (SnapshotJSON data))
  | None =>
      (* Fetch fresh if not cached *)
      match regions !! region with
      | None => mret (mkResponse 400 (Text "Unknown region"))
      | Some regionDef =>
          r ← fetchOpenSkyData regionDef issuer opensky;
          match r with
          | Err e => mret (mkResponse 500 (Text e))
          | Ok aircraft =>
              now ← timeNow;
              mret (mkResponse 200 (SnapshotJSON
                (AirspaceData.mk (timeUnix now) aircraft region (Z.of_nat (length aircraft)))))
          end
      end
  end.

(** *** The WebSocket handler

    [handleWebSocket] in its three parts: what it does once the connection is
    upgraded, what it does with each message it reads, and the deferred
    function that runs when reading fails. *)

Definition sendCached (conn : Conn) (region : string) : M unit :=
  cache ← gets airspaceCache;
  match cache !! region with
  | Some data => writeJSON conn (Snapshot data);; mret tt
  | None => mret tt
  end.

Definition wsConnect (conn : Conn) (region : string) : M unit :=
  (* Default to Taiwan region *)
  let region := queryRegion region in
  modify (fun s => setClients (<[conn := region]> (clients s)) s);;
  logPrintf "Client connected";;
  (* Send initial cached data if available *)
  sendCached conn region.

Definition wsMessage (conn : Conn) (msg : string) : M unit :=
  (* Handle region switch requests *)
  match unmarshalRequest msg with
  | Some request =>
      if String.eqb (Request.Action request) "subscribe" then
        modify (fun s => setClients (<[conn := Request.Region request]> (clients s)) s);;
        (* Send cached data for new region *)
        sendCached conn (Request.Region request);;
        logPrintf "Client switched to region"
      else mret tt
  | None => mret tt
  end.

Definition wsDisconnect (conn : Conn) : M unit :=
  modify (fun s => setClients (delete conn (clients s)) s);;
  emit (Close conn);;
  logPrintf "Client disconnected".

(** [conn.ReadMessage()] blocks until a message is there, or the read fails. *)
Definition readMessage (waited : N) : M unit :=
  modify (fun s => setClock (clock s + Z.of_N waited) s).

(** [upgraded] is the connection [upgrader.Upgrade] returns, if it returns
    one; [msgs] are the messages read before [ReadMessage] fails, each with
    the time the read waited for it, and [last] is the time the read that
    fails waited. *)
Definition handleWebSocket (upgraded : option Conn) (region : string)
    (msgs : list (N * string)) (last : N) : M unit :=
  match upgraded with
  | None => logPrintf "WebSocket upgrade failed"
  | Some conn =>
      wsConnect conn region;;
      forEach msgs (fun '(waited, msg) => readMessage waited;; wsMessage conn msg);;
      readMessage last;;
      wsDisconnect conn
  end.

(** *** What holds of the caches in every state *)

(** [analysis] is a record the analysis engine stores under [key]: it bears the
    key and a reading of the server's clock between [boot] and now. *)
Definition stampedUnder (boot : Time) (s : State) (key : string) (analysis : TacticalAnalysis) :
    Prop :=
  TacticalAnalysis.Region analysis = key
  /\ exists t, boot <= t <= clock s /\ TacticalAnalysis.Timestamp analysis = formatRFC3339 t.

(** [data] is a snapshot the poller stores under [key]: a configured region, its
    own name, its count, a reading of the clock, and only located aircraft. *)
Definition snapshotUnder (boot : Time) (s : State) (key : string) (data : AirspaceData) :
    Prop :=
  is_Some (regions !! key)
  /\ AirspaceData.Region data = key
  /\ AirspaceData.Count data = Z.of_nat (length (AirspaceData.Aircraft data))
  /\ (exists t, boot <= t <= clock s /\ AirspaceData.Timestamp data = timeUnix t)
  /\ (forall ac, ac ∈ AirspaceData.Aircraft data ->
        is_Some (Latitude ac) /\ is_Some (Longitude ac)).

Record consistent (boot : Time) (s : State) : Prop := mkConsistent {
  consistent_clock : boot <= clock s;
  consistent_analyses :
    forall key analysis, analysisCache s !! key = Some analysis -> stampedUnder boot s key analysis;
  consistent_snapshots :
    forall key data, airspaceCache s !! key = Some data -> snapshotUnder boot s key data
}.

(** *** The server as a transition system

    What the goroutines of the process do, one piece at a time: a cycle of a
    poller, a run of the periodic analysis, a part of a WebSocket session, a
    REST request, or the passing of time; and what the surroundings do: from
    now on the writes fail on the connections [gone] and on no other, or a
    sleep lasts [by] longer than asked. *)
Inductive Action : Type :=
| PollCycle (regionName : string) (issuer opensky : HttpReply)
| AnalysisTick (regionName : string) (openai : HttpReply)
| WsConnect (conn : Conn) (region : string)
| WsMessage (conn : Conn) (msg : string)
| WsDisconnect (conn : Conn)
| GetAircraft (region : string) (issuer opensky : HttpReply)
| GetAnalysis (region : string)
| RunAnalysis (method region : string) (openai : HttpReply)
| Wait (d : N)
| Sever (gone : gset Conn)
| Oversleep (extra : N).

Definition step (a : Action) : M unit :=
  match a with
  | PollCycle regionName issuer opensky => pollOpenSky regionName [(issuer, opensky)]
  | AnalysisTick regionName openai => performAnalysis regionName openai
  | WsConnect conn region => wsConnect conn region
  | WsMessage conn msg => wsMessage conn msg
  | WsDisconnect conn => wsDisconnect conn
  | GetAircraft region issuer opensky => handleGetAircraft region issuer opensky;; mret tt
  | GetAnalysis region => handleGetAnalysis region;; mret tt
  | RunAnalysis method region openai => handleRunAnalysis method region openai;; mret tt
  | Wait d => modify (fun s => setClock (clock s + Z.of_N d) s)
  | Sever gone => modify (setLost gone)
  | Oversleep extra => modify (setLate extra)
  end.

Definition run (actions : list Action) : M unit := forEach actions step.

End Program.

(** ** The library as the Go distribution implements it *)

Module TimeFormat.

Definition decimal (n : Z) : string := NilZero.string_of_uint (N.to_uint (Z.to_N n)).

(** [n] in decimal, on at least [width] digits. *)
Definition padded (width : nat) (n : Z) : string :=
  let digits := decimal (Z.abs n) in
  let zeros := String.concat "" (repeat "0" (width - String.length digits)) in
  String.append (if n <? 0 then "-" else "") (String.append zeros digits).

(** The civil date of the day [days] days after 1970-01-01. *)
Definition civil (days : Z) : Z * Z * Z :=
  let z := days + 719468 in
  let era := z / 146097 in
  let doe := z - era * 146097 in
  let yoe := (doe - doe / 1460 + doe / 36524 - doe / 146096) / 365 in
  let doy := doe - (365 * yoe + yoe / 4 - yoe / 100) in
  let mp := (5 * doy + 2) / 153 in
  let d := doy - (153 * mp + 2) / 5 + 1 in
  let m := if mp <? 10 then mp + 3 else mp - 9 in
  let y := yoe + era * 400 + (if m <=? 2 then 1 else 0) in
  (y, m, d).

(** [t.UTC().Format(time.RFC3339)]. *)
Definition formatRFC3339 (t : Time) : string :=
  let sec := timeUnix t in
  let '(y, m, d) := civil (sec / 86400) in
  let sod := sec mod 86400 in
  String.concat ""
    [ padded 4 y; "-"; padded 2 m; "-"; padded 2 d; "T";
      padded 2 (sod / 3600); ":"; padded 2 (sod mod 3600 / 60); ":"; padded 2 (sod mod 60); "Z" ].

End TimeFormat.

#[global] Instance goLib : GoLib := {|
  unmarshalOpenAIResponse := Decode.unmarshal Decode.openAIResponseField OpenAIResponse.zero;
  unmarshalTacticalAnalysis := Decode.unmarshal Decode.tacticalAnalysisField TacticalAnalysis.zero;
  decodeTokenResp := Decode.decodeFirst Decode.tokenRespField TokenResp.zero;
  unmarshalOpenSkyResponse := Decode.unmarshal Decode.openSkyResponseField OpenSkyResponse.zero;
  unmarshalRequest := Decode.unmarshal Decode.requestField Request.zero;
  formatRFC3339 := TimeFormat.formatRFC3339
|}.

(** ** The rate limiter among concurrent goroutines

    The first lines of [fetchOpenSkyData], statement by statement, for any
    number of goroutines that call it while time passes: taking
    [openSkyMutex], measuring the time since [lastOpenSkyCall], sleeping,
    stamping [lastOpenSkyCall] and releasing the mutex, and then sending the
    request. *)

Module Limiter.

(** Where a goroutine is in [fetchOpenSkyData]. *)
Inductive Pc : Type :=
| Idle
| Locked
| Sleeping (until : Time)
| Stamping
| Unlocked (stamp : Time).

Inductive Mark : Type :=
| Stamped (g : nat) (t : Time)
| Requested (g : nat) (stamp t : Time).

Record Sched := mkSched {
  now : Time;
  last : Time;
  mutex : option nat;
  pc : nat -> Pc;
  marks : list Mark
}.

Definition setPc (g : nat) (p : Pc) (f : nat -> Pc) : nat -> Pc :=
  fun h => if Nat.eqb h g then p else f h.

(** Between [Lock] and [Unlock]. *)
Definition critical (p : Pc) : bool :=
  match p with
  | Locked | Sleeping _ | Stamping => true
  | Idle | Unlocked _ => false
  end.

(** The instants [lastOpenSkyCall] was stamped with, latest first. *)
Fixpoint stamps (l : list Mark) : list Time :=
  match l with
  | [] => []
  | Stamped _ t :: r => t :: stamps r
  | Requested _ _ _ :: r => stamps r
  end.

Definition start (boot : Time) : Sched := mkSched boot zeroTime None (fun _ => Idle) [].

(** What a step leaves behind: time passes, [g] takes the mutex, [g] moves on
    inside its call, [g] stamps [lastOpenSkyCall] and releases the mutex, [g]
    sends its request. *)
Definition elapse (d : N) (s : Sched) : Sched :=
  mkSched (now s + Z.of_N d) (last s) (mutex s) (pc s) (marks s).
Definition acquire (g : nat) (s : Sched) : Sched :=
  mkSched (now s) (last s) (Some g) (setPc g Locked (pc s)) (marks s).
Definition move (g : nat) (p : Pc) (s : Sched) : Sched :=
  mkSched (now s) (last s) (mutex s) (setPc g p (pc s)) (marks s).
Definition stampNow (g : nat) (s : Sched) : Sched :=
  mkSched (now s) (now s) None (setPc g (Unlocked (now s)) (pc s))
    (Stamped g (now s) :: marks s).
Definition send (g : nat) (stamp : Time) (s : Sched) : Sched :=
  mkSched (now s) (last s) (mutex s) (setPc g Idle (pc s))
    (Requested g stamp (now s) :: marks s).

(** Instants, latest first, each at least [gap] after the one before. *)
Fixpoint spaced (gap : Duration) (l : list Time) : Prop :=
  match l with
  | t :: r => match r with u :: _ => u + gap <= t | [] => True end /\ spaced gap r
  | [] => True
  end.

Section Steps.
Variable env : Env.

(** When the sleeper of [measure_wait] is due. *)
Definition due (s : Sched) : Time :=
  now s + Z.max 0 (wrap64 (minGap env - timeSub (now s) (last s))).

Inductive sstep : Sched -> Sched -> Prop :=
| tick s (d : N) :
    sstep s (elapse d s)
| lock s g :
    pc s g = Idle -> mutex s = None ->
    sstep s (acquire g s)
| measure_wait s g :
    pc s g = Locked ->
    timeSub (now s) (last s) < minGap env ->
    sstep s (move g (Sleeping (due s)) s)
| measure_pass s g :
    pc s g = Locked ->
    minGap env <= timeSub (now s) (last s) ->
    sstep s (move g Stamping s)
| wake s g until :
    pc s g = Sleeping until -> until <= now s ->
    sstep s (move g Stamping s)
| stamp s g :
    pc s g = Stamping ->
    sstep s (stampNow g s)
| request s g st :
    pc s g = Unlocked st ->
    sstep s (send g st s).

(** The states the goroutines can bring a process started at [boot] into. *)
Definition reachable (boot : Time) (s : Sched) : Prop := rtc sstep (start boot) s.

(** What the mutex keeps true. *)
Record inv (s : Sched) : Prop := mkInv {
  inv_last : last s <= now s;
  inv_holder : forall g, critical (pc s g) = true -> mutex s = Some g;
  inv_sleeping : forall g until, pc s g = Sleeping until -> last s + minGap env <= until;
  inv_stamping : forall g, pc s g = Stamping -> last s + minGap env <= now s;
  inv_head : forall t, head (stamps (marks s)) = Some t -> t = last s;
  inv_spaced : spaced (minGap env) (stamps (marks s))
}.

End Steps.
End Limiter.

(** ** A session of the server

    The values the examples below are run on: a deployment with OAuth2
    credentials and a reasoning-service key, the answers of the three remote
    endpoints, and the states a short session goes through.  The position
    provider reports two aircraft over the Taiwan Strait, the second without a
    longitude. *)

Module Scenario.

Definition env : Env := mkEnv "sk-test" "swarm-c2" "secret" "" "".

Definition boot : Time := 1700000000 * Second.

Definition token : HttpReply :=
  mkReply 200 (HttpResponse 200 (Some (Json.text "{'access_token':'T1','expires_in':1800}"))).

Definition states : HttpReply :=
  mkReply 300 (HttpResponse 200 (Some (Json.text
    "{'time':1700000000,'states':[
      ['780a1b','CCA101  ','China',1700000000,1700000000,121.5,25.1,10000,false,230.5,90,0,null,10200,'1000',false,0],
      ['899001','EVA5    ','Taiwan',null,1700000000,null,24.9,null,true,0,null,null,null,null,null,false,0]]}"))).

Definition rateLimited : HttpReply := mkReply 100 (HttpResponse 429 (Some "")).

Definition unauthorized : HttpReply := mkReply 100 (HttpResponse 401 (Some "")).

(** The reasoning service wraps its JSON in a sentence. *)
Definition reasoning : HttpReply :=
  mkReply 900 (HttpResponse 200 (Some (Json.text
    "{'choices':[{'message':{'role':'assistant','content':'Assessment: {\'region\':\'mars\',\'overall_threat_level\':\'LOW\',\'threat_score\':12,\'summary\':\'Routine traffic\'} End.'}}]}"))).

Definition taiwan : Region :=
  Region.mk "Taiwan Strait" 21.5%float 26.0%float 117.0%float 123.0%float.

(** One cycle of the Taiwan poller, a client that connects, and one run of
    the periodic analysis. *)
Definition session : list Action :=
  [ PollCycle "taiwan" token states;
    WsConnect 1%nat "";
    AnalysisTick "taiwan" reasoning ].

Definition polled : State := exec (run env [PollCycle "taiwan" token states]) (initial boot).

Definition served : State := exec (run env session) (initial boot).

Definition snapshot : AirspaceData :=
  default (AirspaceData.mk 0 [] "" 0) (airspaceCache served !! "taiwan").

Definition analysis : TacticalAnalysis :=
  default TacticalAnalysis.zero (analysisCache served !! "taiwan").

(** Two pollers at the limiter: the first passes at once, the second has to
    sleep for the gap; both send their requests afterwards. *)
Definition contended : Limiter.Sched :=
  let s1 := Limiter.stampNow 0 (Limiter.move 0 Limiter.Stamping
              (Limiter.acquire 0 (Limiter.start boot))) in
  let s2 := Limiter.acquire 1 s1 in
  let s3 := Limiter.elapse 3000000000 (Limiter.move 1 (Limiter.Sleeping (Limiter.due env s2)) s2) in
  let s4 := Limiter.stampNow 1 (Limiter.move 1 Limiter.Stamping s3) in
  Limiter.send 0 boot (Limiter.send 1 (boot + 3 * Second) s4).

(** The state once the Taiwan poller has run a cycle and a client has
    connected. *)
Definition connected : State :=
  exec (run env [PollCycle "taiwan" token states; WsConnect 1%nat ""]) (initial boot).

(** The same once the peer of that client is gone. *)
Definition severed : State :=
  exec (run env [PollCycle "taiwan" token states; WsConnect 1%nat ""; Sever {[1%nat]}])
    (initial boot).

End Scenario.

(** * Properties *)

(** ** Parsing the state rows *)

Section ParseStates.

Lemma parseStep_acc (acc : list Aircraft) (state : list iface) :
  parseStep acc state = acc ++ parseStep [] state.
Proof.
  unfold parseStep.
  destruct (length state <? 17)%nat; [by rewrite app_nil_r|].
  cbn zeta. destruct (_ && _); [done | by rewrite app_nil_r].
Qed.

Lemma fold_parseStep (states : list (list iface)) (acc : list Aircraft) :
  fold_left parseStep states acc = acc ++ parseAircraftStates states.
Proof.
  unfold parseAircraftStates. revert acc.
  induction states as [|state states IH]; intros acc; cbn [fold_left].
  - by rewrite app_nil_r.
  - rewrite (IH (parseStep acc state)), (IH (parseStep [] state)).
    rewrite (parseStep_acc acc). by rewrite <- app_assoc.
Qed.

Lemma parseAircraftStates_cons (state : list iface) (states : list (list iface)) :
  parseAircraftStates (state :: states) = parseStep [] state ++ parseAircraftStates states.
Proof. unfold parseAircraftStates at 1. cbn [fold_left]. apply fold_parseStep. Qed.

Lemma parseAircraftStates_app (pre post : list (list iface)) :
  parseAircraftStates (pre ++ post) = parseAircraftStates pre ++ parseAircraftStates post.
Proof.
  unfold parseAircraftStates at 1. rewrite fold_left_app.
  fold (parseAircraftStates pre). apply fold_parseStep.
Qed.

(** What one row contributes. *)
Lemma parseStep_short (state : list iface) :
  (length state < 17)%nat -> parseStep [] state = [].
Proof.
  intros Hlen. unfold parseStep.
  destruct (Nat.ltb_spec (length state) 17); [done | lia].
Qed.

Lemma parseStep_long (state : list iface) :
  (17 <= length state)%nat ->
  parseStep [] state =
    if bool_decide (is_Some (Latitude (aircraftOfState state)))
       && bool_decide (is_Some (Longitude (aircraftOfState state)))
    then [aircraftOfState state] else [].
Proof.
  intros Hlen. unfold parseStep.
  destruct (Nat.ltb_spec (length state) 17); [lia | done].
Qed.

Lemma parseStep_coordinates (state : list iface) (ac : Aircraft) :
  ac ∈ parseStep [] state -> is_Some (Latitude ac) /\ is_Some (Longitude ac).
Proof.
  unfold parseStep. destruct (length state <? 17)%nat; [by intros ?%elem_of_nil|].
  cbn zeta.
  destruct (bool_decide (is_Some (Latitude _))) eqn:Hlat;
    destruct (bool_decide (is_Some (Longitude _))) eqn:Hlon; cbn;
    try by intros ?%elem_of_nil.
  intros ->%list_elem_of_singleton.
  by apply bool_decide_eq_true in Hlat, Hlon.
Qed.

Lemma parseAircraftStates_coordinates (states : list (list iface)) (ac : Aircraft) :
  ac ∈ parseAircraftStates states -> is_Some (Latitude ac) /\ is_Some (Longitude ac).
Proof.
  induction states as [|state states IH].
  - by intros ?%elem_of_nil.
  - rewrite parseAircraftStates_cons, elem_of_app.
    intros [Hin | Hin]; [by eapply parseStep_coordinates | by apply IH].
Qed.

(** The record the parser builds for a row is the record of that row. *)
Lemma aircraftOfState_rowRecord (state : list iface) : rowRecord state (aircraftOfState state).
Proof.
  unfold rowRecord, aircraftOfState, field, index; cbn.
  repeat split; by destruct (nth _ state INil).
Qed.

Lemma rowRecord_coordinates (state : list iface) (ac : Aircraft) :
  rowRecord state ac ->
  Longitude ac = jsonNumber (field state 5) /\ Latitude ac = jsonNumber (field state 6).
Proof. intros (_ & _ & _ & _ & _ & Hlon & Hlat & _). done. Qed.

(** C1. A row with fewer than 17 fields contributes nothing, and the rows
    before and after it are parsed as they would be without it. A row with its
    17 fields contributes one record, the record of that row, when its fields
    5 and 6 are both JSON numbers, which are then the longitude and the
    latitude of the record; it contributes nothing when either of the two is
    anything else. So every record of the result has both coordinates. *)
Theorem parseAircraftStates_rows (pre post : list (list iface)) (state : list iface) :
  exists kept : list Aircraft,
    parseAircraftStates (pre ++ state :: post)
      = parseAircraftStates pre ++ kept ++ parseAircraftStates post
    /\ ((length state < 17)%nat -> kept = [])
    /\ ((17 <= length state)%nat ->
        (forall lon lat,
           nth 5 state INil = IFloat64 lon -> nth 6 state INil = IFloat64 lat ->
           exists ac, kept = [ac] /\ rowRecord state ac
                      /\ Longitude ac = Some lon /\ Latitude ac = Some lat)
        /\ ((forall lon, nth 5 state INil <> IFloat64 lon)
            \/ (forall lat, nth 6 state INil <> IFloat64 lat) ->
            kept = []))
    /\ (forall ac : Aircraft,
          ac ∈ parseAircraftStates (pre ++ state :: post) ->
          is_Some (Latitude ac) /\ is_Some (Longitude ac)).
Proof.
  exists (parseStep [] state).
  split; [by rewrite parseAircraftStates_app, parseAircraftStates_cons|].
  split; [apply parseStep_short|].
  split; [|apply parseAircraftStates_coordinates].
  intros Hlen. rewrite (parseStep_long _ Hlen).
  pose proof (aircraftOfState_rowRecord state) as Hrecord.
  destruct (rowRecord_coordinates _ _ Hrecord) as [Hlon Hlat].
  rewrite Hlon, Hlat. unfold field in *. split.
  - intros lon lat H5 H6. exists (aircraftOfState state).
    rewrite Hlon, Hlat, H5, H6. cbn. done.
  - intros [Hno|Hno].
    + destruct (nth 5 state INil) eqn:H5; cbn; rewrite ?andb_false_r; try done.
      by edestruct Hno.
    + destruct (nth 6 state INil) eqn:H6; cbn; try done.
      by edestruct Hno.
Qed.

End ParseStates.

(** ** Running computations *)

Lemma run_bind {A B : Type} (m : M A) (f : A -> M B) (s : State) :
  (m ≫= f) s = f (eval m s) (exec m s).
Proof. unfold mbind, M_bind, eval, exec. by destruct (m s). Qed.

Lemma eval_bind {A B : Type} (m : M A) (f : A -> M B) (s : State) :
  eval (m ≫= f) s = eval (f (eval m s)) (exec m s).
Proof. unfold eval at 1. by rewrite run_bind. Qed.

Lemma exec_bind {A B : Type} (m : M A) (f : A -> M B) (s : State) :
  exec (m ≫= f) s = exec (f (eval m s)) (exec m s).
Proof. unfold exec at 1. by rewrite run_bind. Qed.

Lemma events_of {A : Type} (m : M A) (s : State) (new : list Event) :
  trace (exec m s) = new ++ trace s -> events m s = rev new.
Proof.
  intros H. unfold events. rewrite H, length_app.
  replace (length new + length (trace s) - length (trace s))%nat with (length new) by lia.
  by rewrite take_app_length.
Qed.

(** Unfolds the primitive computations. *)
Ltac mstep :=
  cbv [mbind M_bind mret M_ret gets modify emit timeNow logPrintf httpDo writeJSON timeSleep
       eval exec];
  cbn.

Lemma eqb_empty (x : string) : String.eqb x "" = false <-> x <> "".
Proof. by rewrite String.eqb_neq. Qed.

Section Token.
Context {lib : GoLib}.
Variable env : Env.

Lemma guard_spec :
  String.eqb (OPENSKY_CLIENT_ID env) "" || String.eqb (OPENSKY_CLIENT_SECRET env) "" = false
  <-> configured env.
Proof. unfold configured. rewrite orb_false_iff, !eqb_empty. tauto. Qed.

Lemma fresh_spec (s : State) :
  negb (String.eqb (oauthToken s) "") && (clock s <? oauthTokenExpiry s - 60 * Second) = true
  <-> unexpired s.
Proof.
  unfold unexpired. rewrite andb_true_iff, negb_true_iff, eqb_empty, Z.ltb_lt. tauto.
Qed.

Lemma getOpenSkyToken_unconfigured (issuer : HttpReply) (s : State) :
  ~ configured env -> getOpenSkyToken env issuer s = (Err "no OAuth2 credentials", s).
Proof.
  intros Hno. unfold getOpenSkyToken.
  destruct (_ || _) eqn:Hguard; [done|]. by apply guard_spec in Hguard.
Qed.

Lemma getOpenSkyToken_cached (issuer : HttpReply) (s : State) :
  configured env -> unexpired s -> getOpenSkyToken env issuer s = (Ok (oauthToken s), s).
Proof.
  intros Hcfg%guard_spec Hfresh%fresh_spec. unfold getOpenSkyToken.
  rewrite Hcfg. mstep. by rewrite Hfresh.
Qed.

Lemma getOpenSkyToken_granted (issuer : HttpReply) (s : State) (tokenResp : TokenResp) :
  configured env -> ~ unexpired s -> granted issuer = Some tokenResp ->
  getOpenSkyToken env issuer s =
    (Ok (TokenResp.AccessToken tokenResp),
     setTrace (Log "OpenSky OAuth2 token acquired" :: trace (asked env issuer s))
       (setOauthTokenExpiry
          (clock (asked env issuer s) + wrap64 (TokenResp.ExpiresIn tokenResp * Second))
          (setOauthToken (TokenResp.AccessToken tokenResp) (asked env issuer s)))).
Proof.
  intros Hcfg%guard_spec Hstale. unfold getOpenSkyToken, granted.
  rewrite Hcfg. mstep.
  destruct (_ && _) eqn:Hfresh; [by apply fresh_spec in Hfresh|].
  destruct (outcome issuer) as [|status body]; mstep; [done|].
  destruct (status =? 200); mstep; [|done].
  by intros ->.
Qed.

Lemma getOpenSkyToken_refused (issuer : HttpReply) (s : State) :
  configured env -> ~ unexpired s -> granted issuer = None ->
  exists e, getOpenSkyToken env issuer s = (Err e, asked env issuer s).
Proof.
  intros Hcfg%guard_spec Hstale. unfold getOpenSkyToken, granted.
  rewrite Hcfg. mstep.
  destruct (_ && _) eqn:Hfresh; [by apply fresh_spec in Hfresh|].
  destruct (outcome issuer) as [|status body]; mstep; [by eauto|].
  destruct (status =? 200); mstep; [|by eauto].
  intros ->. by eauto.
Qed.

End Token.

(** ** What the upstream calls leave alone *)

Lemma calm_refl (P : Event -> Prop) (s : State) : calm P s s.
Proof. split; try done. by exists []. Qed.

Lemma calm_trans (P : Event -> Prop) (s1 s2 s3 : State) :
  calm P s1 s2 -> calm P s2 s3 -> calm P s1 s3.
Proof.
  intros [Hc Ha Hn Ht [new1 [Hnew1 Hup1]]] [Hc' Ha' Hn' Ht' [new2 [Hnew2 Hup2]]].
  split; try congruence; [lia|].
  exists (new2 ++ new1). split; [by rewrite Hnew2, Hnew1, app_assoc | by apply Forall_app].
Qed.

Lemma calm_weaken (P Q : Event -> Prop) (s s' : State) :
  (forall e, P e -> Q e) -> calm P s s' -> calm Q s s'.
Proof.
  intros HPQ [Hc Ha Hn Ht [new [Hnew Hup]]]. split; try done.
  exists new. split; [done|]. by eapply Forall_impl.
Qed.

Lemma calm_bind {A B : Type} (P : Event -> Prop) (m : M A) (f : A -> M B) (s : State) :
  calm P s (exec m s) -> (forall x s', calm P s' (exec (f x) s')) ->
  calm P s (exec (m ≫= f) s).
Proof. intros Hm Hf. rewrite exec_bind. eapply calm_trans; [exact Hm | apply Hf]. Qed.

Lemma calm_events {A : Type} (P : Event -> Prop) (m : M A) (s : State) :
  calm P s (exec m s) -> Forall P (events m s).
Proof.
  intros [_ _ _ _ [new [Hnew Hup]]]. rewrite (events_of _ _ _ Hnew).
  by apply Forall_rev.
Qed.

Lemma credential_upstream (e : Event) : credential e -> upstream e.
Proof. by destruct e. Qed.

(** Closes [calm P s s'] for an [s'] that is [s] with its clock, its limiter and
    token variables and its trace set. *)
Ltac calm_now :=
  split; mstep; try done; try lia;
  first [ by exists (@nil Event); split; [|repeat constructor]
        | by eexists [_]; split; [|repeat constructor]
        | by eexists [_; _]; split; [|repeat constructor] ].

Section Upstream.
Context {lib : GoLib}.
Variable env : Env.

Lemma calm_log (P : Event -> Prop) (line : string) (s : State) :
  P (Log line) -> calm P s (exec (logPrintf line) s).
Proof. intros HP. split; mstep; try done. by exists [Log line]; split; [|repeat constructor]. Qed.

Lemma calm_rateLimit (s : State) : calm credential s (exec (rateLimit env) s).
Proof.
  unfold rateLimit. mstep.
  destruct (_ <? minGap env); mstep; [|calm_now].
  destruct (Z.ltb_spec 0 (wrap64 (minGap env - timeSub (clock s) (lastOpenSkyCall s))));
    calm_now.
Qed.

Lemma calm_getOpenSkyToken (issuer : HttpReply) (s : State) :
  calm credential s (exec (getOpenSkyToken env issuer) s).
Proof.
  unfold getOpenSkyToken.
  destruct (_ || _); [apply calm_refl|]. mstep.
  destruct (_ && _); [apply calm_refl|]. mstep.
  destruct (outcome issuer) as [|status body]; mstep; [calm_now|].
  destruct (negb _); mstep; [calm_now|].
  destruct (decodeBody body); mstep; calm_now.
Qed.

Lemma calm_requestAuth (issuer : HttpReply) (s : State) :
  calm credential s (exec (requestAuth env issuer) s).
Proof.
  unfold requestAuth.
  destruct (negb _).
  - apply calm_bind; [apply calm_getOpenSkyToken|].
    intros [token|e] s'; [apply calm_refl|].
    apply calm_bind; [by apply calm_log | intros; apply calm_refl].
  - destruct (_ && _); apply calm_refl.
Qed.

Lemma calm_answered (region : Region) (issuer opensky : HttpReply) (s : State) :
  calm upstream s (answered env region issuer opensky s).
Proof.
  unfold answered. cbn zeta.
  eapply calm_trans; [eapply calm_weaken, calm_rateLimit; apply credential_upstream|].
  eapply calm_trans; [eapply calm_weaken, calm_requestAuth; apply credential_upstream|].
  calm_now.
Qed.

(** Whatever the provider answers, [fetchOpenSkyData] returns in the state
    [answered], with the token cleared when the answer is 401. *)
Lemma exec_fetchOpenSkyData (region : Region) (issuer opensky : HttpReply) (s : State) :
  exec (fetchOpenSkyData env region issuer opensky) s =
    match outcome opensky with
    | HttpResponse status _ =>
        if (status =? 401) && negb (status =? 429)
        then setOauthToken "" (answered env region issuer opensky s)
        else answered env region issuer opensky s
    | HttpFailed => answered env region issuer opensky s
    end.
Proof.
  unfold fetchOpenSkyData. rewrite !exec_bind.
  destruct (outcome opensky) as [|status body] eqn:Hout; mstep; rewrite Hout; [done|].
  destruct (status =? 429); [by rewrite andb_false_r|].
  destruct (status =? 401); [done|]. cbn [andb].
  destruct (negb _); [done|].
  destruct body as [respBody|]; [|done].
  by destruct (unmarshalOpenSkyResponse respBody).
Qed.

Lemma calm_fetchOpenSkyData (region : Region) (issuer opensky : HttpReply) (s : State) :
  calm upstream s (exec (fetchOpenSkyData env region issuer opensky) s).
Proof.
  rewrite exec_fetchOpenSkyData.
  assert (Hset : calm upstream s (setOauthToken "" (answered env region issuer opensky s))).
  { eapply calm_trans; [apply calm_answered | calm_now]. }
  destruct (outcome opensky) as [|status body]; [apply calm_answered|].
  destruct (_ && _); [done | apply calm_answered].
Qed.

End Upstream.

Section Fetcher.
Context {lib : GoLib}.
Variable env : Env.

Lemma fetchOpenSkyData_429 (region : Region) (issuer opensky : HttpReply)
    (body : option string) (s : State) :
  outcome opensky = HttpResponse 429 body ->
  fetchOpenSkyData env region issuer opensky s =
    (Err "OpenSky rate limited (429) - will retry next cycle", answered env region issuer opensky s).
Proof.
  intros Hout. unfold fetchOpenSkyData. rewrite !run_bind. mstep. by rewrite Hout.
Qed.

Lemma fetchOpenSkyData_401 (region : Region) (issuer opensky : HttpReply)
    (body : option string) (s : State) :
  outcome opensky = HttpResponse 401 body ->
  fetchOpenSkyData env region issuer opensky s =
    (Err "OpenSky auth failed (401) - check credentials",
     setOauthToken "" (answered env region issuer opensky s)).
Proof.
  intros Hout. unfold fetchOpenSkyData. rewrite !run_bind. mstep. by rewrite Hout.
Qed.

(** X3. In a poll cycle in which the position provider answers 429, the
    snapshot cache is left as it was (the entry of the polled region with it),
    nothing is written to any client, and the error of the fetcher ends in the
    poller as a log line: the cycle returns nothing. *)
Theorem poll_cycle_rate_limited (regionName : string) (issuer opensky : HttpReply)
    (body : option string) (s : State) :
  outcome opensky = HttpResponse 429 body ->
  airspaceCache (exec (step env (PollCycle regionName issuer opensky)) s) = airspaceCache s
  /\ airspaceCache (exec (step env (PollCycle regionName issuer opensky)) s) !! regionName
     = airspaceCache s !! regionName
  /\ (forall conn m, WriteJSON conn m ∉ events (step env (PollCycle regionName issuer opensky)) s)
  /\ eval (step env (PollCycle regionName issuer opensky)) s = tt
  /\ (forall region, regions !! regionName = Some region ->
        exists e older,
          eval (fetchOpenSkyData env region issuer opensky) s = Err e
          /\ events (step env (PollCycle regionName issuer opensky)) s
             = older ++ [Log "Error fetching OpenSky data"]).
Proof.
  intros Hout.
  assert (Hquiet : calm upstream s (exec (step env (PollCycle regionName issuer opensky)) s)).
  { cbn [step]. unfold pollOpenSky. destruct (regions !! regionName) as [region|].
    - cbn [forEach]. unfold fetchAndBroadcast. rewrite !exec_bind.
      unfold eval, exec. rewrite (fetchOpenSkyData_429 _ _ _ _ _ Hout). cbn [fst snd].
      eapply calm_trans; [apply calm_answered|]. calm_now.
    - by apply calm_log. }
  split; [apply Hquiet|]. split; [by rewrite (calm_airspace _ _ _ Hquiet)|].
  split.
  { intros conn m Hin. apply calm_events in Hquiet.
    rewrite Forall_forall in Hquiet. by apply (Hquiet _ Hin). }
  split; [by destruct (eval _ s)|].
  intros region Hregion.
  exists "OpenSky rate limited (429) - will retry next cycle".
  destruct (calm_answered env region issuer opensky s) as [_ _ _ _ [new [Hnew _]]].
  exists (rev new). split.
  - unfold eval. by rewrite (fetchOpenSkyData_429 _ _ _ _ _ Hout).
  - rewrite (events_of _ _ (Log "Error fetching OpenSky data" :: new)); [done|].
    cbn [step]. unfold pollOpenSky. rewrite Hregion. cbn [forEach].
    unfold fetchAndBroadcast. rewrite !exec_bind.
    unfold eval, exec. rewrite (fetchOpenSkyData_429 _ _ _ _ _ Hout). cbn [fst snd].
    mstep. by rewrite <- Hnew.
Qed.

End Fetcher.

Lemma poll_cycle_rate_limited_example :
  outcome Scenario.rateLimited = HttpResponse 429 (Some "")
  /\ airspaceCache
       (exec (step Scenario.env (PollCycle "taiwan" Scenario.token Scenario.rateLimited))
          Scenario.served)
     = airspaceCache Scenario.served.
Proof.
  split; [reflexivity|].
  exact (proj1 (poll_cycle_rate_limited Scenario.env "taiwan" Scenario.token
                  Scenario.rateLimited (Some "") Scenario.served eq_refl)).
Defined.


Section Credentials.
Context {lib : GoLib}.
Variable env : Env.

Lemma asked_longer (issuer : HttpReply) (s : State) (x : State) :
  trace x = trace (asked env issuer s) -> x <> s.
Proof.
  intros Htrace ->. cbn in Htrace.
  apply (f_equal length) in Htrace. cbn in Htrace. lia.
Qed.

(** X4. With both OAuth2 variables set, [getOpenSkyToken]
    returns the cached token and leaves everything as it was exactly when a
    token is cached and more than 60 seconds remain before it expires;
    otherwise its first act is the token request, a refused exchange returns
    an error and a granted one stores and returns the new token with its
    expiry. With either variable unset it returns an error at once, without an
    exchange. On an error the caller sends its request with no
    [Authorization] header. *)
Theorem getOpenSkyToken_contract (issuer : HttpReply) (s : State) :
  (~ configured env ->
     getOpenSkyToken env issuer s = (Err "no OAuth2 credentials", s))
  /\ (configured env ->
      (getOpenSkyToken env issuer s = (Ok (oauthToken s), s) <-> unexpired s)
      /\ (~ unexpired s ->
          (exists later,
             events (getOpenSkyToken env issuer) s
             = TokenRequest (OPENSKY_CLIENT_ID env) (OPENSKY_CLIENT_SECRET env) :: later)
          /\ (granted issuer = None ->
              (exists e, eval (getOpenSkyToken env issuer) s = Err e)
              /\ oauthToken (exec (getOpenSkyToken env issuer) s) = oauthToken s
              /\ oauthTokenExpiry (exec (getOpenSkyToken env issuer) s) = oauthTokenExpiry s)
          /\ (forall tokenResp, granted issuer = Some tokenResp ->
              eval (getOpenSkyToken env issuer) s = Ok (TokenResp.AccessToken tokenResp)
              /\ oauthToken (exec (getOpenSkyToken env issuer) s)
                 = TokenResp.AccessToken tokenResp
              /\ oauthTokenExpiry (exec (getOpenSkyToken env issuer) s)
                 = clock (exec (getOpenSkyToken env issuer) s)
                   + wrap64 (TokenResp.ExpiresIn tokenResp * Second))))
  /\ (OPENSKY_CLIENT_ID env <> "" ->
      forall e, eval (getOpenSkyToken env issuer) s = Err e ->
      eval (requestAuth env issuer) s = NoAuth).
Proof.
  split; [apply getOpenSkyToken_unconfigured|]. split.
  - intros Hcfg. split.
    + split; [|by apply getOpenSkyToken_cached].
      intros Hrun. destruct (decide (unexpired s)) as [|Hstale]; [done|exfalso].
      destruct (granted issuer) as [tokenResp|] eqn:Hgranted.
      * rewrite (getOpenSkyToken_granted _ _ _ _ Hcfg Hstale Hgranted) in Hrun.
        injection Hrun as _ Hs. eapply (asked_longer issuer s); [|exact Hs].
        cbn. apply (f_equal trace) in Hs. cbn in Hs.
        apply (f_equal length) in Hs. cbn in Hs. lia.
      * destruct (getOpenSkyToken_refused _ _ _ Hcfg Hstale Hgranted) as [e He].
        rewrite He in Hrun. discriminate.
    + intros Hstale. split; [|split].
      * destruct (granted issuer) as [tokenResp|] eqn:Hgranted.
        -- exists [Log "OpenSky OAuth2 token acquired"].
           rewrite (events_of _ _
             [Log "OpenSky OAuth2 token acquired";
              TokenRequest (OPENSKY_CLIENT_ID env) (OPENSKY_CLIENT_SECRET env)]); [done|].
           unfold exec. by rewrite (getOpenSkyToken_granted _ _ _ _ Hcfg Hstale Hgranted).
        -- destruct (getOpenSkyToken_refused _ _ _ Hcfg Hstale Hgranted) as [e He].
           exists [].
           rewrite (events_of _ _
             [TokenRequest (OPENSKY_CLIENT_ID env) (OPENSKY_CLIENT_SECRET env)]); [done|].
           unfold exec. by rewrite He.
      * intros Hgranted.
        destruct (getOpenSkyToken_refused _ _ _ Hcfg Hstale Hgranted) as [e He].
        unfold eval, exec. rewrite He. eauto.
      * intros tokenResp Hgranted. unfold eval, exec.
        by rewrite (getOpenSkyToken_granted _ _ _ _ Hcfg Hstale Hgranted).
  - intros Hid%eqb_empty e He. unfold requestAuth. rewrite Hid. cbn [negb].
    rewrite eval_bind, He. by mstep.
Qed.

End Credentials.

Section Unauthorized.
Context {lib : GoLib}.
Variable env : Env.

Lemma requestAuth_bearer (issuer : HttpReply) (s : State) (token : string) :
  eval (requestAuth env issuer) s = Bearer token -> configured env.
Proof.
  unfold requestAuth. destruct (negb _).
  - rewrite eval_bind.
    destruct (String.eqb (OPENSKY_CLIENT_ID env) "" || String.eqb (OPENSKY_CLIENT_SECRET env) "")
      eqn:Hguard; [|by apply guard_spec in Hguard].
    unfold eval at 2. rewrite getOpenSkyToken_unconfigured; [by mstep|].
    intros Hcfg%guard_spec. congruence.
  - by destruct (_ && _).
Qed.

Lemma trace_answered (region : Region) (issuer opensky : HttpReply) (s : State) :
  exists new,
    trace (answered env region issuer opensky s)
    = OpenSkyRequest region (eval (requestAuth env issuer) (exec (rateLimit env) s))
      :: new ++ trace s
    /\ Forall credential new.
Proof.
  destruct (calm_rateLimit env s) as [_ _ _ _ [new1 [Hnew1 Hcred1]]].
  destruct (calm_requestAuth env issuer (exec (rateLimit env) s))
    as [_ _ _ _ [new2 [Hnew2 Hcred2]]].
  exists (new2 ++ new1). split; [|by apply Forall_app].
  unfold answered. cbn. by rewrite Hnew2, Hnew1, app_assoc.
Qed.

Lemma trace_fetchOpenSkyData (region : Region) (issuer opensky : HttpReply) (s : State) :
  trace (exec (fetchOpenSkyData env region issuer opensky) s)
  = trace (answered env region issuer opensky s).
Proof.
  rewrite exec_fetchOpenSkyData.
  destruct (outcome opensky) as [|status body]; [done|].
  by destruct (_ && _).
Qed.

(** The one request of a fetch carries what [requestAuth] chose. *)
Lemma fetchOpenSkyData_request (region region' : Region) (issuer opensky : HttpReply)
    (s : State) (auth : Auth) :
  OpenSkyRequest region' auth ∈ events (fetchOpenSkyData env region issuer opensky) s ->
  auth = eval (requestAuth env issuer) (exec (rateLimit env) s).
Proof.
  destruct (trace_answered region issuer opensky s) as [new [Hnew Hcred]].
  rewrite (events_of _ _ (OpenSkyRequest region (eval (requestAuth env issuer)
                                                   (exec (rateLimit env) s)) :: new)).
  2: { by rewrite trace_fetchOpenSkyData. }
  rewrite list_elem_of_In, <- in_rev, <- list_elem_of_In, elem_of_cons.
  intros [Heq | Hin]; [congruence|].
  rewrite Forall_forall in Hcred. by apply Hcred in Hin.
Qed.

(** X5. A fetch that is answered 401 returns an error and leaves the cached
    token empty. While the token stays empty, a call of [getOpenSkyToken] does
    not return from the cache: a token it returns comes out of a token
    request it has just made, and with both OAuth2 variables set (as they are
    whenever the rejected request carried a bearer token) it makes that
    request. *)
Theorem fetch_unauthorized (region : Region) (issuer opensky : HttpReply)
    (body : option string) (s : State) :
  outcome opensky = HttpResponse 401 body ->
  (exists e, eval (fetchOpenSkyData env region issuer opensky) s = Err e)
  /\ oauthToken (exec (fetchOpenSkyData env region issuer opensky) s) = ""
  /\ (forall (next : State) (issuer' : HttpReply),
        oauthToken next = oauthToken (exec (fetchOpenSkyData env region issuer opensky) s) ->
        ~ unexpired next
        /\ (forall token, eval (getOpenSkyToken env issuer') next = Ok token ->
              exists tokenResp later,
                granted issuer' = Some tokenResp
                /\ token = TokenResp.AccessToken tokenResp
                /\ events (getOpenSkyToken env issuer') next
                   = TokenRequest (OPENSKY_CLIENT_ID env) (OPENSKY_CLIENT_SECRET env) :: later)
        /\ (configured env ->
              exists later,
                events (getOpenSkyToken env issuer') next
                = TokenRequest (OPENSKY_CLIENT_ID env) (OPENSKY_CLIENT_SECRET env) :: later))
  /\ (forall token,
        OpenSkyRequest region (Bearer token)
          ∈ events (fetchOpenSkyData env region issuer opensky) s ->
        configured env).
Proof.
  intros Hout.
  assert (Hrun := fetchOpenSkyData_401 env region issuer opensky body s Hout).
  split; [unfold eval; rewrite Hrun; by eauto|].
  split; [unfold exec; by rewrite Hrun|].
  split.
  - intros next issuer' Hnext. unfold exec in Hnext. rewrite Hrun in Hnext. cbn in Hnext.
    assert (Hstale : ~ unexpired next) by (intros [Htoken _]; done).
    split; [done|].
    destruct (getOpenSkyToken_contract env issuer' next) as (Hno & Hyes & _).
    split.
    + intros token Htoken.
      destruct (String.eqb (OPENSKY_CLIENT_ID env) ""
                || String.eqb (OPENSKY_CLIENT_SECRET env) "") eqn:Hguard.
      { unfold eval in Htoken. rewrite Hno in Htoken; [done|].
        intros Hcfg%guard_spec. congruence. }
      apply guard_spec in Hguard.
      destruct (Hyes Hguard) as (_ & Hexchange).
      destruct (Hexchange Hstale) as ([later Hlater] & Hrefused & Hgranted).
      destruct (granted issuer') as [tokenResp|].
      * destruct (Hgranted tokenResp eq_refl) as (Heval & _).
        exists tokenResp, later. split; [done|]. split; [congruence | done].
      * destruct (Hrefused eq_refl) as ([e He] & _). congruence.
    + intros Hcfg. destruct (Hyes Hcfg) as (_ & Hexchange).
      by destruct (Hexchange Hstale) as (Hlater & _).
  - intros token Hin%fetchOpenSkyData_request. symmetry in Hin.
    by apply requestAuth_bearer in Hin.
Qed.

End Unauthorized.

Lemma fetch_unauthorized_example :
  outcome Scenario.unauthorized = HttpResponse 401 (Some "")
  /\ oauthToken
       (exec (fetchOpenSkyData Scenario.env Scenario.taiwan Scenario.token Scenario.unauthorized)
          Scenario.served)
     = "".
Proof.
  split; [reflexivity|].
  exact (proj1 (proj2 (fetch_unauthorized Scenario.env Scenario.taiwan Scenario.token
                         Scenario.unauthorized (Some "") Scenario.served eq_refl))).
Defined.


(** ** The WebSocket handler *)

Lemma setTrace_same (s : State) : setTrace (trace s) s = s.
Proof. by destruct s. Qed.

Section WebSocket.
Context {lib : GoLib}.

Lemma sendCached_run (conn : Conn) (region : string) (s : State) :
  sendCached conn region s =
    (tt, match airspaceCache s !! region with
         | Some data => setTrace (WriteJSON conn (Snapshot data) :: trace s) s
         | None => s
         end).
Proof. unfold sendCached. mstep. by destruct (airspaceCache s !! region). Qed.

(** What the handler writes for a region: the cached snapshot, if there is one. *)
Lemma events_wsConnect (conn : Conn) (region : string) (s : State) :
  events (wsConnect conn region) s =
    Log "Client connected" :: option_list ((WriteJSON conn ∘ Snapshot) <$> airspaceCache s !! queryRegion region).
Proof.
  unfold wsConnect. cbn zeta.
  destruct (airspaceCache s !! queryRegion region) as [data|] eqn:Hcache.
  - apply (events_of _ _ [WriteJSON conn (Snapshot data); Log "Client connected"]).
    rewrite !exec_bind. unfold exec at 1. rewrite sendCached_run. mstep. by rewrite Hcache.
  - apply (events_of _ _ [Log "Client connected"]).
    rewrite !exec_bind. unfold exec at 1. rewrite sendCached_run. mstep. by rewrite Hcache.
Qed.

Lemma events_wsMessage (conn : Conn) (msg : string) (s : State) :
  events (wsMessage conn msg) s =
    match unmarshalRequest msg with
    | Some request =>
        if String.eqb (Request.Action request) "subscribe" then
          option_list ((WriteJSON conn ∘ Snapshot) <$> airspaceCache s !! Request.Region request)
          ++ [Log "Client switched to region"]
        else []
    | None => []
    end.
Proof.
  unfold wsMessage.
  destruct (unmarshalRequest msg) as [request|]; [|by apply (events_of _ _ [])].
  destruct (String.eqb _ _); [|by apply (events_of _ _ [])].
  destruct (airspaceCache s !! Request.Region request) as [data|] eqn:Hcache.
  - apply (events_of _ _ [Log "Client switched to region"; WriteJSON conn (Snapshot data)]).
    rewrite !exec_bind. mstep. unfold exec, eval. rewrite sendCached_run. mstep. by rewrite Hcache.
  - apply (events_of _ _ [Log "Client switched to region"]).
    rewrite !exec_bind. mstep. unfold exec, eval. rewrite sendCached_run. mstep. by rewrite Hcache.
Qed.

(** X1. A message that decodes to a request with the
    action [subscribe] sets the subscription of the connection to the region
    it names, whether or not that region is configured; any other message
    leaves every subscription as it was. *)
Theorem subscribe_sets_region (conn : Conn) (msg : string) (s : State) :
  clients (exec (wsMessage conn msg) s) =
    match unmarshalRequest msg with
    | Some request =>
        if String.eqb (Request.Action request) "subscribe"
        then <[conn := Request.Region request]> (clients s)
        else clients s
    | None => clients s
    end.
Proof.
  unfold wsMessage.
  destruct (unmarshalRequest msg) as [request|]; [|done].
  destruct (String.eqb _ _); [|done].
  rewrite !exec_bind. mstep. unfold exec, eval. rewrite sendCached_run. mstep.
  by destruct (airspaceCache s !! Request.Region request).
Qed.

(** X2. On connecting, and on every message that decodes
    to a request with the action [subscribe], the handler writes the cached
    snapshot of the region to the connection at once, when there is one, and
    writes nothing else: the cached analysis is not sent. *)
Theorem handler_sends_snapshot_only (conn : Conn) (region msg : string) (s : State) :
  events (wsConnect conn region) s =
    Log "Client connected"
    :: option_list ((WriteJSON conn ∘ Snapshot) <$> airspaceCache s !! queryRegion region)
  /\ (forall request,
        unmarshalRequest msg = Some request -> Request.Action request = "subscribe" ->
        events (wsMessage conn msg) s =
          option_list ((WriteJSON conn ∘ Snapshot) <$> airspaceCache s !! Request.Region request)
          ++ [Log "Client switched to region"])
  /\ (forall c r analysis,
        (WriteJSON c (Analysis r analysis) ∉ events (wsConnect conn region) s)
        /\ (WriteJSON c (Analysis r analysis) ∉ events (wsMessage conn msg) s)).
Proof.
  split; [apply events_wsConnect|]. split.
  - intros request Hreq Haction. rewrite events_wsMessage, Hreq, Haction. done.
  - intros c r analysis. rewrite events_wsConnect, events_wsMessage. split.
    + destruct (airspaceCache s !! queryRegion region); cbn; set_solver.
    + destruct (unmarshalRequest msg) as [request|]; [|set_solver].
      destruct (String.eqb _ _); [|set_solver].
      destruct (airspaceCache s !! Request.Region request); cbn; set_solver.
Qed.

End WebSocket.

(** ** The analysis engine *)

Lemma traced_refl (s : State) : traced s s.
Proof. exists []. symmetry. apply setTrace_same. Qed.

Lemma traced_trans (s1 s2 s3 : State) : traced s1 s2 -> traced s2 s3 -> traced s1 s3.
Proof.
  intros [new1 ->] [new2 ->]. exists (new2 ++ new1). cbn. by rewrite app_assoc.
Qed.

Lemma traced_forEach {A : Type} (l : list A) (body : A -> M unit) (s : State) :
  (forall x s', traced s' (exec (body x) s')) -> traced s (exec (forEach l body) s).
Proof.
  intros Hbody. revert s. induction l as [|x l IH]; intros s; cbn [forEach].
  - apply traced_refl.
  - rewrite exec_bind. eapply traced_trans; [apply Hbody | apply IH].
Qed.

Lemma traced_broadcastToClients (region : string) (data : AirspaceData) (s : State) :
  traced s (exec (broadcastToClients region data) s).
Proof.
  unfold broadcastToClients. rewrite exec_bind.
  apply traced_forEach. intros [conn clientRegion] s'.
  destruct (String.eqb _ _); [|apply traced_refl].
  rewrite exec_bind. mstep.
  case_bool_decide;
    [by exists [WriteJSON conn (Snapshot data)]
    | by exists [Log "Write to client failed"; WriteJSON conn (Snapshot data)]].
Qed.

Lemma traced_broadcastAnalysisToClients (region : string) (analysis : TacticalAnalysis)
    (s : State) :
  traced s (exec (broadcastAnalysisToClients region analysis) s).
Proof.
  unfold broadcastAnalysisToClients. rewrite exec_bind.
  apply traced_forEach. intros [conn clientRegion] s'.
  destruct (String.eqb _ _); [|apply traced_refl].
  rewrite exec_bind. mstep.
  case_bool_decide;
    [by exists [WriteJSON conn (Analysis region analysis)]
    | by exists [Log "Write analysis to client failed";
                 WriteJSON conn (Analysis region analysis)]].
Qed.

Section Analysis.
Context {lib : GoLib}.
Variable env : Env.

(** Whatever the decoder makes of the reply, the record that comes back bears
    the region it was asked for and the time of the server. *)
Lemma parseAnalysis_run (region content : string) (s : State) :
  parseAnalysis region content s =
    (match unmarshalTacticalAnalysis (jsonContent content) with
     | Some analysis =>
         TacticalAnalysis.setRegion region
           (TacticalAnalysis.setTimestamp (formatRFC3339 (clock s)) analysis)
     | None => degraded (formatRFC3339 (clock s)) region content
     end, s).
Proof. unfold parseAnalysis. by destruct (unmarshalTacticalAnalysis _). Qed.

Lemma parseAnalysis_stamped (region content : string) (s : State) :
  TacticalAnalysis.Region (eval (parseAnalysis region content) s) = region
  /\ TacticalAnalysis.Timestamp (eval (parseAnalysis region content) s) = formatRFC3339 (clock s).
Proof.
  unfold eval. rewrite parseAnalysis_run. cbn [fst].
  by destruct (unmarshalTacticalAnalysis _).
Qed.

(** The state once the reasoning service has answered. *)
Lemma exec_callOpenAIAnalysis (apiKey region : string) (aircraft : list Aircraft)
    (openai : HttpReply) (s : State) :
  exec (callOpenAIAnalysis apiKey region aircraft openai) s = consulted apiKey region aircraft openai s.
Proof.
  unfold callOpenAIAnalysis, consulted. rewrite exec_bind. mstep.
  destruct (outcome openai) as [|status [body|]]; try done.
  destruct (unmarshalOpenAIResponse body) as [openAIResp|]; [|done].
  destruct (OpenAIResponse.Error openAIResp); [done|].
  destruct (OpenAIResponse.Choices openAIResp); [done|].
  by rewrite parseAnalysis_run.
Qed.

Lemma callOpenAIAnalysis_stamped (apiKey region : string) (aircraft : list Aircraft)
    (openai : HttpReply) (s : State) (analysis : TacticalAnalysis) :
  eval (callOpenAIAnalysis apiKey region aircraft openai) s = Ok analysis ->
  TacticalAnalysis.Region analysis = region
  /\ TacticalAnalysis.Timestamp analysis
     = formatRFC3339 (clock (consulted apiKey region aircraft openai s)).
Proof.
  unfold callOpenAIAnalysis. rewrite eval_bind. mstep.
  destruct (outcome openai) as [|status [body|]]; try done.
  destruct (unmarshalOpenAIResponse body) as [openAIResp|]; [|done].
  destruct (OpenAIResponse.Error openAIResp); [done|].
  destruct (OpenAIResponse.Choices openAIResp) as [|choice ?]; [done|].
  rewrite parseAnalysis_run. cbn [fst]. intros [= <-].
  by destruct (unmarshalTacticalAnalysis _).
Qed.

Lemma performAnalysis_skips (regionName : string) (openai : HttpReply) (s : State) :
  ~ analysable env regionName s ->
  exists line, exec (performAnalysis env regionName openai) s = setTrace (Log line :: trace s) s.
Proof.
  intros Hno. unfold performAnalysis. cbn zeta.
  destruct (String.eqb (OPENAI_API_KEY env) "") eqn:Hkey; [by eexists|].
  apply eqb_empty in Hkey. rewrite exec_bind. mstep.
  destruct (airspaceCache s !! regionName) as [data|] eqn:Hcache; [|by eexists].
  destruct (AirspaceData.Aircraft data) as [|ac acs] eqn:Hacs; [by eexists|].
  destruct Hno. split; [done|]. exists data. split; [done|]. by rewrite Hacs.
Qed.

Lemma performAnalysis_asks (regionName : string) (openai : HttpReply) (s : State)
    (data : AirspaceData) :
  OPENAI_API_KEY env <> "" ->
  airspaceCache s !! regionName = Some data -> AirspaceData.Aircraft data <> [] ->
  exec (performAnalysis env regionName openai) s =
    let s1 := consulted (OPENAI_API_KEY env) regionName (AirspaceData.Aircraft data) openai s in
    match eval (callOpenAIAnalysis (OPENAI_API_KEY env) regionName
                  (AirspaceData.Aircraft data) openai) s with
    | Err _ => setTrace (Log "AI analysis error" :: trace s1) s1
    | Ok analysis =>
        exec (broadcastAnalysisToClients regionName analysis)
          (setTrace (Log "AI Analysis complete" :: trace s1)
             (setAnalysisCache (<[regionName := analysis]> (analysisCache s1)) s1))
    end.
Proof.
  intros Hkey%eqb_empty Hcache Hacs. unfold performAnalysis. cbn zeta.
  rewrite Hkey, exec_bind.
  change (eval (gets airspaceCache) s) with (airspaceCache s).
  change (exec (gets airspaceCache) s) with s. rewrite Hcache.
  destruct (AirspaceData.Aircraft data) as [|ac acs] eqn:Hdata; [done|]. cbn [length Nat.eqb].
  rewrite exec_bind, exec_callOpenAIAnalysis.
  destruct (eval _ s) as [analysis|e]; [|done].
  by rewrite !exec_bind.
Qed.

End Analysis.

Lemma traced_fields (s s' : State) :
  traced s s' ->
  clients s' = clients s /\ airspaceCache s' = airspaceCache s
  /\ analysisCache s' = analysisCache s /\ clock s' = clock s
  /\ exists new, trace s' = new ++ trace s.
Proof. intros [new ->]. repeat split. by exists new. Qed.

Section Periodic.
Context {lib : GoLib}.
Variable env : Env.

Lemma analysable_dec (regionName : string) (s : State) :
  analysable env regionName s \/ ~ analysable env regionName s.
Proof.
  unfold analysable.
  destruct (decide (OPENAI_API_KEY env = "")) as [Hkey|Hkey]; [right; tauto|].
  destruct (airspaceCache s !! regionName) as [data|] eqn:Hcache.
  - destruct (AirspaceData.Aircraft data) as [|ac acs] eqn:Hacs.
    + right. intros [_ [data' [[= <-] Hne]]]. done.
    + left. split; [done|]. exists data. split; [done|]. by rewrite Hacs.
  - right. by intros [_ [data' [? _]]].
Qed.

Lemma performAnalysis_request (regionName : string) (openai : HttpReply) (s : State)
    (data : AirspaceData) :
  OPENAI_API_KEY env <> "" ->
  airspaceCache s !! regionName = Some data -> AirspaceData.Aircraft data <> [] ->
  exists later,
    events (performAnalysis env regionName openai) s
    = OpenAIRequest (OPENAI_API_KEY env) regionName (AirspaceData.Aircraft data) :: later.
Proof.
  intros Hkey Hcache Hacs.
  assert (exists new, trace (exec (performAnalysis env regionName openai) s)
            = (new ++ [OpenAIRequest (OPENAI_API_KEY env) regionName (AirspaceData.Aircraft data)])
              ++ trace s) as [new Hnew].
  { rewrite (performAnalysis_asks env _ _ _ _ Hkey Hcache Hacs). cbn zeta.
    destruct (eval _ s) as [analysis|e].
    - destruct (traced_fields _ _ (traced_broadcastAnalysisToClients regionName analysis
        (setTrace (Log "AI Analysis complete" :: trace (consulted (OPENAI_API_KEY env) regionName
                     (AirspaceData.Aircraft data) openai s))
           (setAnalysisCache (<[regionName := analysis]>
              (analysisCache (consulted (OPENAI_API_KEY env) regionName
                     (AirspaceData.Aircraft data) openai s)))
              (consulted (OPENAI_API_KEY env) regionName (AirspaceData.Aircraft data) openai s)))))
        as (_ & _ & _ & _ & [new Hnew]).
      exists (new ++ [Log "AI Analysis complete"]). rewrite Hnew. cbn.
      by rewrite <- !app_assoc.
    - by exists [Log "AI analysis error"]. }
  exists (rev new). rewrite (events_of _ _ _ Hnew). by rewrite rev_app_distr.
Qed.

(** X6. A run of the periodic analysis sends a request to
    the reasoning service exactly when the key is set and the snapshot cache
    holds at least one aircraft for the region; who is subscribed plays no
    part in it. *)
Theorem periodic_analysis_ignores_subscribers (regionName : string) (openai : HttpReply)
    (s : State) (registry : gmap Conn string) :
  ((exists apiKey region aircraft,
      OpenAIRequest apiKey region aircraft ∈ events (performAnalysis env regionName openai) s)
   <-> analysable env regionName s)
  /\ ((exists apiKey region aircraft,
         OpenAIRequest apiKey region aircraft
           ∈ events (performAnalysis env regionName openai) (setClients registry s))
      <-> analysable env regionName s).
Proof.
  assert (Hany : forall s',
    (exists apiKey region aircraft,
       OpenAIRequest apiKey region aircraft ∈ events (performAnalysis env regionName openai) s')
    <-> analysable env regionName s').
  { intros s'. split.
    - intros (apiKey & region & aircraft & Hin).
      destruct (analysable_dec regionName s') as [|Hno]; [done|exfalso].
      destruct (performAnalysis_skips env regionName openai s' Hno) as [line Hline].
      rewrite (events_of _ _ [Log line]) in Hin; [|by rewrite Hline]. set_solver.
    - intros (Hkey & data & Hcache & Hacs).
      destruct (performAnalysis_request regionName openai s' data Hkey Hcache Hacs)
        as [later Hlater].
      eexists _, _, _. rewrite Hlater. by left. }
  split; [apply Hany|]. by rewrite Hany.
Qed.

End Periodic.

(** ** The caches in every reachable state *)

Section Invariants.
Context {lib : GoLib}.
Variable env : Env.

Lemma calm_kept (P : Event -> Prop) (s s' : State) :
  calm P s s' ->
  airspaceCache s' = airspaceCache s /\ analysisCache s' = analysisCache s
  /\ clock s <= clock s'.
Proof. by intros [_ ? ? ? _]. Qed.

Lemma stampedUnder_later (boot : Time) (s s' : State) (key : string)
    (analysis : TacticalAnalysis) :
  clock s <= clock s' -> stampedUnder boot s key analysis -> stampedUnder boot s' key analysis.
Proof.
  intros Hle (Hregion & t & Ht & Hstamp). split; [done|].
  exists t. split; [lia | done].
Qed.

Lemma snapshotUnder_later (boot : Time) (s s' : State) (key : string) (data : AirspaceData) :
  clock s <= clock s' -> snapshotUnder boot s key data -> snapshotUnder boot s' key data.
Proof.
  intros Hle (Hcfg & Hregion & Hcount & (t & Ht & Hstamp) & Hcoords).
  split; [done|]. split; [done|]. split; [done|]. split; [|done].
  exists t. split; [lia | done].
Qed.

Lemma consistent_kept (boot : Time) (s s' : State) :
  consistent boot s ->
  airspaceCache s' = airspaceCache s -> analysisCache s' = analysisCache s ->
  clock s <= clock s' ->
  consistent boot s'.
Proof.
  intros [Hclock Hana Hsnap] Hair Hanalysis Hle. split; [lia| |].
  - intros key analysis Hkey. rewrite Hanalysis in Hkey.
    by eapply stampedUnder_later, Hana.
  - intros key data Hkey. rewrite Hair in Hkey.
    by eapply snapshotUnder_later, Hsnap.
Qed.

(** A fetch that succeeds returns parsed rows. *)
Lemma fetchOpenSkyData_parsed (region : Region) (issuer opensky : HttpReply) (s : State)
    (aircraft : list Aircraft) :
  eval (fetchOpenSkyData env region issuer opensky) s = Ok aircraft ->
  exists respBody openSkyResp,
    outcome opensky = HttpResponse 200 (Some respBody)
    /\ unmarshalOpenSkyResponse respBody = Some openSkyResp
    /\ aircraft = parseAircraftStates (OpenSkyResponse.States openSkyResp).
Proof.
  unfold fetchOpenSkyData. rewrite !eval_bind.
  destruct (outcome opensky) as [|status body] eqn:Hout; mstep; rewrite Hout; [done|].
  destruct (status =? 429); [done|].
  destruct (status =? 401); [done|].
  destruct (status =? 200) eqn:Hstatus; [|done]. apply Z.eqb_eq in Hstatus as ->.
  destruct body as [respBody|]; [|done].
  destruct (unmarshalOpenSkyResponse respBody) as [openSkyResp|] eqn:Hdecode; [|done].
  intros [= <-]. by exists respBody, openSkyResp.
Qed.

(** What a cycle of the poller does to the state. *)
Lemma exec_fetchAndBroadcast (regionName : string) (region : Region)
    (issuer opensky : HttpReply) (s : State) :
  exec (fetchAndBroadcast env regionName region issuer opensky) s =
    let s1 := exec (fetchOpenSkyData env region issuer opensky) s in
    match eval (fetchOpenSkyData env region issuer opensky) s with
    | Err _ => setTrace (Log "Error fetching OpenSky data" :: trace s1) s1
    | Ok aircraft =>
        let data := AirspaceData.mk (timeUnix (clock s1)) aircraft regionName
                      (Z.of_nat (length aircraft)) in
        let s2 := exec (broadcastToClients regionName data)
                    (setAirspaceCache (<[regionName := data]> (airspaceCache s1)) s1) in
        setTrace (Log "Fetched aircraft" :: trace s2) s2
    end.
Proof.
  unfold fetchAndBroadcast. rewrite exec_bind.
  destruct (eval _ s) as [aircraft|e]; [|done].
  by rewrite !exec_bind.
Qed.

Lemma consistent_snapshot (boot : Time) (s s1 s' : State) (key : string)
    (data : AirspaceData) :
  consistent boot s ->
  airspaceCache s1 = airspaceCache s -> analysisCache s1 = analysisCache s ->
  clock s <= clock s1 ->
  snapshotUnder boot s1 key data ->
  airspaceCache s' = <[key := data]> (airspaceCache s1) ->
  analysisCache s' = analysisCache s1 ->
  clock s' = clock s1 ->
  consistent boot s'.
Proof.
  intros [Hboot Hanalyses Hsnaps] Hair Hana Hclock Hdata Hair' Hana' Hclock'.
  split.
  - lia.
  - intros k a. rewrite Hana', Hana. intros Hk.
    eapply stampedUnder_later, Hanalyses; [lia | done].
  - intros k d. rewrite Hair', Hair.
    destruct (decide (key = k)) as [<-|Hne].
    + rewrite lookup_insert_eq. intros [= <-].
      eapply snapshotUnder_later, Hdata. lia.
    + rewrite lookup_insert_ne by done. intros Hk.
      eapply snapshotUnder_later, Hsnaps; [lia | done].
Qed.

Lemma consistent_fetchAndBroadcast (boot : Time) (regionName : string) (region : Region)
    (issuer opensky : HttpReply) (s : State) :
  regions !! regionName = Some region ->
  consistent boot s ->
  consistent boot (exec (fetchAndBroadcast env regionName region issuer opensky) s).
Proof.
  intros Hregion Hs. rewrite exec_fetchAndBroadcast. cbn zeta.
  destruct (calm_kept _ _ _ (calm_fetchOpenSkyData env region issuer opensky s))
    as (Hair & Hana & Hclock).
  set (s1 := exec (fetchOpenSkyData env region issuer opensky) s) in *.
  destruct (eval _ s) as [aircraft|e] eqn:Hfetch.
  - destruct (fetchOpenSkyData_parsed _ _ _ _ _ Hfetch) as (respBody & resp & _ & _ & ->).
    set (data := AirspaceData.mk _ _ _ _).
    set (s2 := setAirspaceCache _ s1).
    destruct (traced_fields _ _ (traced_broadcastToClients regionName data s2))
      as (_ & Hair2 & Hana2 & Hclock2 & _).
    eapply (consistent_snapshot boot s s1 _ regionName data Hs Hair Hana Hclock).
    + split; [by rewrite Hregion|]. split; [done|]. split; [done|]. split.
      * exists (clock s1). split; [|done]. destruct Hs. lia.
      * apply parseAircraftStates_coordinates.
    + cbn. by rewrite Hair2.
    + cbn. by rewrite Hana2.
    + cbn. by rewrite Hclock2.
  - eapply consistent_kept; [exact Hs | done | done | cbn; lia].
Qed.

(** What an analysis does to the state. *)
Lemma consistent_store (boot : Time) (s s1 s' : State) (key : string)
    (analysis : TacticalAnalysis) :
  consistent boot s ->
  airspaceCache s1 = airspaceCache s -> analysisCache s1 = analysisCache s ->
  clock s <= clock s1 ->
  TacticalAnalysis.Region analysis = key ->
  TacticalAnalysis.Timestamp analysis = formatRFC3339 (clock s1) ->
  airspaceCache s' = airspaceCache s1 ->
  analysisCache s' = <[key := analysis]> (analysisCache s1) ->
  clock s' = clock s1 ->
  consistent boot s'.
Proof.
  intros [Hboot Hanalyses Hsnaps] Hair Hana Hclock Hregion Hstamp Hair' Hana' Hclock'.
  split.
  - lia.
  - intros k a. rewrite Hana', Hana.
    destruct (decide (key = k)) as [<-|Hne].
    + rewrite lookup_insert_eq. intros [= <-]. split; [done|].
      exists (clock s1). split; [lia | done].
    + rewrite lookup_insert_ne by done. intros Hk.
      eapply stampedUnder_later, Hanalyses; [lia | done].
  - intros k d. rewrite Hair', Hair. intros Hk.
    eapply snapshotUnder_later, Hsnaps; [lia | done].
Qed.

Lemma consulted_fields (apiKey region : string) (aircraft : list Aircraft)
    (openai : HttpReply) (s : State) :
  airspaceCache (consulted apiKey region aircraft openai s) = airspaceCache s
  /\ analysisCache (consulted apiKey region aircraft openai s) = analysisCache s
  /\ clock s <= clock (consulted apiKey region aircraft openai s).
Proof. unfold consulted. cbn. repeat split. lia. Qed.

Lemma consistent_performAnalysis (boot : Time) (regionName : string) (openai : HttpReply)
    (s : State) :
  consistent boot s -> consistent boot (exec (performAnalysis env regionName openai) s).
Proof.
  intros Hs. destruct (analysable_dec env regionName s) as [(Hkey & data & Hcache & Hacs)|Hno].
  - rewrite (performAnalysis_asks env _ _ _ _ Hkey Hcache Hacs). cbn zeta.
    destruct (consulted_fields (OPENAI_API_KEY env) regionName (AirspaceData.Aircraft data)
                openai s) as (Hair & Hana & Hclock).
    destruct (eval _ s) as [analysis|e] eqn:Hcall.
    + destruct (callOpenAIAnalysis_stamped _ _ _ _ _ _ Hcall) as [Hregion Hstamp].
      match goal with |- consistent _ (exec ?m ?s0) =>
        destruct (traced_fields _ _ (traced_broadcastAnalysisToClients regionName analysis s0))
          as (_ & Hair2 & Hana2 & Hclock2 & _)
      end.
      eapply (consistent_store boot s _ _ regionName analysis Hs Hair Hana Hclock Hregion Hstamp).
      * by rewrite Hair2.
      * by rewrite Hana2.
      * by rewrite Hclock2.
    + eapply consistent_kept; [exact Hs | done | done | cbn; lia].
  - destruct (performAnalysis_skips env regionName openai s Hno) as [line ->].
    by eapply consistent_kept.
Qed.

Lemma exec_handleRunAnalysis (method region : string) (openai : HttpReply) (s : State) :
  exec (handleRunAnalysis env method region openai) s = s
  \/ exists data,
       airspaceCache s !! queryRegion region = Some data
       /\ AirspaceData.Aircraft data <> []
       /\ OPENAI_API_KEY env <> ""
       /\ method = "POST"
       /\ exec (handleRunAnalysis env method region openai) s =
            let s1 := consulted (OPENAI_API_KEY env) (queryRegion region)
                        (AirspaceData.Aircraft data) openai s in
            match eval (callOpenAIAnalysis (OPENAI_API_KEY env) (queryRegion region)
                          (AirspaceData.Aircraft data) openai) s with
            | Err _ => s1
            | Ok analysis =>
                setAnalysisCache (<[queryRegion region := analysis]> (analysisCache s1)) s1
            end.
Proof.
  unfold handleRunAnalysis.
  destruct (String.eqb method "POST") eqn:Hmethod; [|by left]. cbn [negb]. cbn zeta.
  apply String.eqb_eq in Hmethod.
  destruct (String.eqb (OPENAI_API_KEY env) "") eqn:Hkey; [by left|].
  apply eqb_empty in Hkey. rewrite exec_bind.
  change (eval (gets airspaceCache) s) with (airspaceCache s).
  change (exec (gets airspaceCache) s) with s.
  destruct (airspaceCache s !! queryRegion region) as [data|] eqn:Hcache; [|by left].
  destruct (AirspaceData.Aircraft data) as [|ac acs] eqn:Hacs; [by left|].
  right. exists data. rewrite Hacs. repeat split; try done.
  cbn [length Nat.eqb]. rewrite exec_bind, exec_callOpenAIAnalysis.
  destruct (eval _ s) as [analysis|e]; [|done].
  by rewrite !exec_bind.
Qed.

Lemma consistent_handleRunAnalysis (boot : Time) (method region : string)
    (openai : HttpReply) (s : State) :
  consistent boot s ->
  consistent boot (exec (handleRunAnalysis env method region openai) s).
Proof.
  intros Hs.
  destruct (exec_handleRunAnalysis method region openai s)
    as [-> | (data & Hcache & Hacs & Hkey & Hmethod & ->)]; [done|]. cbn zeta.
  destruct (consulted_fields (OPENAI_API_KEY env) (queryRegion region)
              (AirspaceData.Aircraft data) openai s) as (Hair & Hana & Hclock).
  destruct (eval _ s) as [analysis|e] eqn:Hcall.
  - destruct (callOpenAIAnalysis_stamped _ _ _ _ _ _ Hcall) as [Hregion Hstamp].
    by eapply (consistent_store boot s _ _ (queryRegion region) analysis Hs Hair Hana Hclock
                 Hregion Hstamp).
  - by eapply consistent_kept.
Qed.

Lemma exec_sendCached (conn : Conn) (region : string) (s : State) :
  exec (sendCached conn region) s =
    match airspaceCache s !! region with
    | Some data => setTrace (WriteJSON conn (Snapshot data) :: trace s) s
    | None => s
    end.
Proof. unfold exec. by rewrite sendCached_run. Qed.

Lemma kept_sendCached (conn : Conn) (region : string) (s : State) :
  clients (exec (sendCached conn region) s) = clients s
  /\ airspaceCache (exec (sendCached conn region) s) = airspaceCache s
  /\ analysisCache (exec (sendCached conn region) s) = analysisCache s
  /\ clock (exec (sendCached conn region) s) = clock s.
Proof. rewrite exec_sendCached. by destruct (airspaceCache s !! region). Qed.

Lemma kept_wsConnect (conn : Conn) (region : string) (s : State) :
  airspaceCache (exec (wsConnect conn region) s) = airspaceCache s
  /\ analysisCache (exec (wsConnect conn region) s) = analysisCache s
  /\ clock (exec (wsConnect conn region) s) = clock s.
Proof.
  unfold wsConnect. cbn zeta. rewrite !exec_bind.
  match goal with |- context [exec (sendCached ?c ?r) ?s0] =>
    destruct (kept_sendCached c r s0) as (_ & -> & -> & ->) end.
  done.
Qed.

Lemma kept_wsMessage (conn : Conn) (msg : string) (s : State) :
  airspaceCache (exec (wsMessage conn msg) s) = airspaceCache s
  /\ analysisCache (exec (wsMessage conn msg) s) = analysisCache s
  /\ clock (exec (wsMessage conn msg) s) = clock s.
Proof.
  unfold wsMessage.
  destruct (unmarshalRequest msg) as [request|]; [|done].
  destruct (String.eqb _ _); [|done].
  rewrite !exec_bind. cbn [exec logPrintf emit modify snd airspaceCache analysisCache clock setTrace].
  match goal with |- context [exec (sendCached ?c ?r) ?s0] =>
    destruct (kept_sendCached c r s0) as (_ & -> & -> & ->) end.
  done.
Qed.

Lemma calm_handleGetAircraft (region : string) (issuer opensky : HttpReply) (s : State) :
  calm upstream s (exec (handleGetAircraft env region issuer opensky) s).
Proof.
  unfold handleGetAircraft. cbn zeta. rewrite exec_bind.
  change (eval (gets airspaceCache) s) with (airspaceCache s).
  change (exec (gets airspaceCache) s) with s.
  destruct (airspaceCache s !! queryRegion region); [apply calm_refl|].
  destruct (regions !! queryRegion region) as [regionDef|]; [|apply calm_refl].
  apply calm_bind; [apply calm_fetchOpenSkyData|].
  intros [aircraft|e] s'; apply calm_refl.
Qed.

Lemma exec_handleGetAnalysis (region : string) (s : State) :
  exec (handleGetAnalysis region) s = s.
Proof.
  unfold handleGetAnalysis. cbn zeta. rewrite exec_bind.
  change (eval (gets analysisCache) s) with (analysisCache s).
  change (exec (gets analysisCache) s) with s.
  by destruct (analysisCache s !! queryRegion region).
Qed.

Lemma consistent_step (boot : Time) (a : Action) (s : State) :
  consistent boot s -> consistent boot (exec (step env a) s).
Proof.
  intros Hs. destruct a; cbn [step].
  - unfold pollOpenSky. destruct (regions !! regionName) as [region|] eqn:Hregion.
    + cbn [forEach]. rewrite exec_bind.
      by apply consistent_fetchAndBroadcast.
    + by eapply consistent_kept.
  - by apply consistent_performAnalysis.
  - destruct (kept_wsConnect conn region s) as (? & ? & ?).
    eapply consistent_kept; [exact Hs | done | done | lia].
  - destruct (kept_wsMessage conn msg s) as (? & ? & ?).
    eapply consistent_kept; [exact Hs | done | done | lia].
  - by eapply consistent_kept.
  - rewrite exec_bind.
    destruct (calm_kept _ _ _ (calm_handleGetAircraft region issuer opensky s)) as (? & ? & ?).
    by eapply consistent_kept.
  - rewrite exec_bind, exec_handleGetAnalysis. done.
  - rewrite exec_bind. by apply consistent_handleRunAnalysis.
  - eapply consistent_kept; [exact Hs | done | done | cbn; lia].
  - by eapply consistent_kept.
  - by eapply consistent_kept.
Qed.

Lemma consistent_run (boot : Time) (actions : list Action) (s : State) :
  consistent boot s -> consistent boot (exec (run env actions) s).
Proof.
  revert s. induction actions as [|a actions IH]; intros s Hs; [done|].
  unfold run. cbn [forEach]. rewrite exec_bind.
  apply IH. by apply consistent_step.
Qed.

Lemma consistent_initial (boot : Time) : consistent boot (initial boot).
Proof. split; [cbn; lia | done | done]. Qed.

(** X7. Whatever the goroutines have done since the process started, a record
    in the analysis cache bears the key it is stored under as its region and
    the server's clock, read between the start and now, as its timestamp;
    this holds for the periodic and the on-demand path, for a decoded and a
    degraded record alike. *)
Theorem analysis_cache_stamped (boot : Time) (actions : list Action)
    (key : string) (analysis : TacticalAnalysis) :
  analysisCache (exec (run env actions) (initial boot)) !! key = Some analysis ->
  TacticalAnalysis.Region analysis = key
  /\ exists t, boot <= t <= clock (exec (run env actions) (initial boot))
       /\ TacticalAnalysis.Timestamp analysis = formatRFC3339 t.
Proof.
  apply (consistent_analyses _ _ (consistent_run boot actions _ (consistent_initial boot))).
Qed.

(** X8. Whatever the goroutines have done since the process started, a
    snapshot in the snapshot cache is stored under a configured region, names
    that region, counts its own aircraft, bears a reading of the server's
    clock, and holds only aircraft whose latitude and longitude are known. *)
Theorem snapshot_cache_well_formed (boot : Time) (actions : list Action)
    (key : string) (data : AirspaceData) :
  airspaceCache (exec (run env actions) (initial boot)) !! key = Some data ->
  is_Some (regions !! key)
  /\ AirspaceData.Region data = key
  /\ AirspaceData.Count data = Z.of_nat (length (AirspaceData.Aircraft data))
  /\ (exists t, boot <= t <= clock (exec (run env actions) (initial boot))
        /\ AirspaceData.Timestamp data = timeUnix t)
  /\ (forall ac, ac ∈ AirspaceData.Aircraft data ->
        is_Some (Latitude ac) /\ is_Some (Longitude ac)).
Proof.
  apply (consistent_snapshots _ _ (consistent_run boot actions _ (consistent_initial boot))).
Qed.

End Invariants.

Lemma analysis_cache_stamped_example :
  analysisCache Scenario.served !! "taiwan" = Some Scenario.analysis
  /\ TacticalAnalysis.Region Scenario.analysis = "taiwan".
Proof.
  assert (H : analysisCache Scenario.served !! "taiwan" = Some Scenario.analysis)
    by (vm_compute; reflexivity).
  split; [exact H|].
  exact (proj1 (analysis_cache_stamped Scenario.env Scenario.boot Scenario.session
                  "taiwan" Scenario.analysis H)).
Defined.

Lemma snapshot_cache_well_formed_example :
  airspaceCache Scenario.served !! "taiwan" = Some Scenario.snapshot
  /\ AirspaceData.Region Scenario.snapshot = "taiwan".
Proof.
  assert (H : airspaceCache Scenario.served !! "taiwan" = Some Scenario.snapshot)
    by (vm_compute; reflexivity).
  split; [exact H|].
  exact (proj1 (proj2 (snapshot_cache_well_formed Scenario.env Scenario.boot Scenario.session
                         "taiwan" Scenario.snapshot H))).
Defined.


(** ** Cutting the JSON out of a reply *)

Section Strings.

Lemma str_take_cons (n : nat) (c : ascii) (r : string) :
  str_take (S n) (String c r) = String c (str_take n r).
Proof. done. Qed.

Lemma str_take_zero (s : string) : str_take 0 s = "".
Proof. by destruct s. Qed.

Lemma str_drop_cons (n : nat) (c : ascii) (r : string) :
  str_drop (S n) (String c r) = str_drop n r.
Proof. done. Qed.

Lemma str_drop_zero (s : string) : str_drop 0 s = s.
Proof.
  unfold str_drop. rewrite Nat.sub_0_r.
  induction s as [|c r IH]; [done|]. cbn. by rewrite IH.
Qed.

Lemma substring_drop (i n : nat) (s : string) :
  String.substring 0 n (str_drop i s) = String.substring i n s.
Proof.
  revert s. induction i as [|i IH]; intros s; [by rewrite str_drop_zero|].
  destruct s as [|c r]; [by destruct n|].
  rewrite str_drop_cons. apply IH.
Qed.

Lemma slice_from (s : string) (i n : nat) :
  slice s i (i + n) = str_take n (str_drop i s).
Proof.
  unfold slice, str_take. rewrite substring_drop. f_equal. lia.
Qed.

Lemma slice_to_end (s : string) (i : nat) :
  slice s i (String.length s) = str_drop i s.
Proof. done. Qed.

Lemma get_drop (i k : nat) (s : string) :
  String.get k (str_drop i s) = String.get (i + k) s.
Proof.
  revert s. induction i as [|i IH]; intros s; [by rewrite str_drop_zero|].
  destruct s as [|c r]; [by destruct k|].
  rewrite str_drop_cons. apply IH.
Qed.

End Strings.

Section Scans.

Lemma findJSONStartFrom_spec (k : Z) (s : string) :
  (findJSONStartFrom k s = -1 /\ forall i, String.get i s <> Some "{"%char)
  \/ exists i, findJSONStartFrom k s = k + Z.of_nat i /\ firstBrace s i.
Proof.
  revert k. induction s as [|c r IH]; intros k; cbn [findJSONStartFrom].
  - left. split; [done|]. by intros [|i].
  - destruct (Ascii.eqb_spec c "{") as [->|Hc].
    + right. exists O. split; [lia|]. split; [done|]. lia.
    + destruct (IH (k + 1)) as [[Hnone Hno] | (i & Hi & Hget & Hfirst)].
      * left. split; [done|]. intros [|i]; cbn; [congruence | apply Hno].
      * right. exists (S i). split; [lia|]. split; [done|].
        intros [|j] Hj; cbn; [congruence | apply Hfirst; lia].
Qed.

Lemma findJSONStart_spec (s : string) :
  (findJSONStart s = -1 /\ forall i, String.get i s <> Some "{"%char)
  \/ exists i, findJSONStart s = Z.of_nat i /\ firstBrace s i.
Proof.
  destruct (findJSONStartFrom_spec 0 s) as [?|(i & Hi & ?)]; [by left|].
  right. exists i. by rewrite Z.add_0_l in Hi.
Qed.

Lemma firstBrace_unique (s : string) (i j : nat) : firstBrace s i -> firstBrace s j -> i = j.
Proof.
  intros [Hi Hfi] [Hj Hfj].
  destruct (Nat.lt_trichotomy i j) as [Hlt | [-> | Hlt]]; [|done|].
  - by destruct (Hfj _ Hlt).
  - by destruct (Hfi _ Hlt).
Qed.

(** Inside a group ([depth] at least one), the scan for the closing brace
    stops at the first byte that brings the depth to zero. *)
Lemma findJSONEndFrom_inside (i depth : Z) (s : string) :
  1 <= depth ->
  (findJSONEndFrom i depth s = -1
   /\ forall n, (n <= String.length s)%nat -> 1 <= depth + braceDepth (str_take n s))
  \/ exists k,
       (k < String.length s)%nat
       /\ findJSONEndFrom i depth s = i + Z.of_nat k
       /\ depth + braceDepth (str_take (S k) s) = 0
       /\ forall n, (n <= k)%nat -> 1 <= depth + braceDepth (str_take n s).
Proof.
  revert i depth. induction s as [|c r IH]; intros i depth Hdepth; cbn [findJSONEndFrom].
  - left. split; [done|]. intros n Hn. rewrite str_take_zero || destruct n; cbn; lia.
  - assert (Hcons : forall d' : Z,
      1 <= d' ->
      d' = depth + (if Ascii.eqb c "{" then 1 else if Ascii.eqb c "}" then -1 else 0) ->
      (findJSONEndFrom (i + 1) d' r = -1
       /\ forall n, (n <= String.length (String c r))%nat ->
            1 <= depth + braceDepth (str_take n (String c r)))
      \/ exists k,
           (k < String.length (String c r))%nat
           /\ findJSONEndFrom (i + 1) d' r = i + Z.of_nat k
           /\ depth + braceDepth (str_take (S k) (String c r)) = 0
           /\ forall n, (n <= k)%nat -> 1 <= depth + braceDepth (str_take n (String c r))).
    { intros d' Hd' Heq.
      destruct (IH (i + 1) d' Hd') as [[Hnone Hall] | (k & Hk & Hfound & Hzero & Hbefore)].
      - left. split; [done|]. intros [|n] Hn; [rewrite str_take_zero; cbn; lia|].
        rewrite str_take_cons. cbn [braceDepth]. cbn in Hn.
        specialize (Hall n ltac:(lia)). lia.
      - right. exists (S k). split; [cbn; lia|]. split; [lia|]. split.
        + rewrite str_take_cons. cbn [braceDepth]. lia.
        + intros [|n] Hn; [rewrite str_take_zero; cbn; lia|].
          rewrite str_take_cons. cbn [braceDepth].
          specialize (Hbefore n ltac:(lia)). lia. }
    destruct (Ascii.eqb c "{") eqn:Hopen.
    + apply Hcons; lia.
    + destruct (Ascii.eqb c "}") eqn:Hclose.
      * cbn zeta. destruct (Z.eqb_spec (depth - 1) 0) as [Hz|Hnz].
        -- right. exists O. split; [cbn; lia|]. split; [lia|]. split.
           ++ rewrite str_take_cons, str_take_zero. cbn [braceDepth].
              rewrite Hopen, Hclose. lia.
           ++ intros n Hn. replace n with O by lia. rewrite str_take_zero. cbn. lia.
        -- apply Hcons; lia.
      * apply Hcons; lia.
Qed.

(** Outside any group and with no opening brace ahead, the scan finds nothing. *)
Lemma findJSONEndFrom_outside (i depth : Z) (s : string) :
  depth <= 0 -> (forall k, String.get k s <> Some "{"%char) ->
  findJSONEndFrom i depth s = -1.
Proof.
  revert i depth. induction s as [|c r IH]; intros i depth Hdepth Hno; cbn [findJSONEndFrom];
    [done|].
  destruct (Ascii.eqb_spec c "{") as [->|Hc]; [by destruct (Hno O)|].
  assert (Hr : forall k, String.get k r <> Some "{"%char) by (intros k; apply (Hno (S k))).
  destruct (Ascii.eqb c "}"); cbn zeta.
  - destruct (Z.eqb_spec (depth - 1) 0); [lia|]. apply IH; [lia | done].
  - by apply IH.
Qed.

Lemma findJSONEnd_spec (r : string) :
  (findJSONEnd (String "{" r) = -1 /\ forall n, ~ balancedGroup (String "{" r) n)
  \/ exists n, findJSONEnd (String "{" r) = Z.of_nat n - 1 /\ balancedGroup (String "{" r) n.
Proof.
  unfold findJSONEnd. cbn [findJSONEndFrom]. rewrite Ascii.eqb_refl.
  change (0 + 1) with 1.
  destruct (findJSONEndFrom_inside 1 1 r ltac:(lia))
    as [[Hnone Hall] | (k & Hk & Hfound & Hzero & Hbefore)].
  - left. split; [done|]. intros [|n] ([Hpos Hlen] & Hbal & _); [lia|].
    rewrite str_take_cons in Hbal. cbn [braceDepth] in Hbal. rewrite Ascii.eqb_refl in Hbal.
    cbn in Hlen. specialize (Hall n ltac:(lia)). lia.
  - right. exists (S (S k)). split; [lia|]. split; [cbn; lia|]. split.
    + rewrite str_take_cons. cbn [braceDepth]. rewrite Ascii.eqb_refl. lia.
    + intros [|m] Hm; [lia|]. rewrite str_take_cons. cbn [braceDepth].
      rewrite Ascii.eqb_refl. specialize (Hbefore m ltac:(lia)). lia.
Qed.

Lemma balancedGroup_unique (t : string) (n m : nat) :
  balancedGroup t n -> balancedGroup t m -> n = m.
Proof.
  intros (Hn & Hzn & Hbn) (Hm & Hzm & Hbm).
  destruct (Nat.lt_trichotomy n m) as [Hlt | [-> | Hlt]]; [|done|].
  - specialize (Hbm n ltac:(lia)). lia.
  - specialize (Hbn m ltac:(lia)). lia.
Qed.

Lemma firstBrace_drop (s : string) (i : nat) :
  firstBrace s i -> exists r, str_drop i s = String "{" r.
Proof.
  intros [Hget _]. assert (Hhead : String.get 0 (str_drop i s) = Some "{"%char).
  { by rewrite get_drop, Nat.add_0_r. }
  destruct (str_drop i s) as [|c r]; [done|]. cbn in Hhead. injection Hhead as ->. by exists r.
Qed.

(** X9. What [callOpenAIAnalysis] hands to the decoder. When the reply has an
    opening brace and the bytes from the first one on start with a balanced
    group of braces, it is that group; when they do not, it is everything from
    the first opening brace to the end; when the reply has no opening brace,
    it is the whole reply. *)
Theorem jsonContent_cut (content : string) :
  (forall i n, firstBrace content i -> balancedGroup (str_drop i content) n ->
     jsonContent content = str_take n (str_drop i content))
  /\ (forall i, firstBrace content i -> (forall n, ~ balancedGroup (str_drop i content) n) ->
        jsonContent content = str_drop i content)
  /\ ((forall i, String.get i content <> Some "{"%char) -> jsonContent content = content).
Proof.
  unfold jsonContent.
  destruct (findJSONStart_spec content) as [[Hstart Hno] | (i & Hstart & Hfirst)].
  - rewrite Hstart. cbn [Z.leb Z.compare Z.to_nat]. rewrite str_drop_zero.
    unfold findJSONEnd. rewrite (findJSONEndFrom_outside 0 0 content ltac:(lia) Hno).
    cbn [Z.leb Z.compare]. rewrite Nat2Z.id, slice_to_end, str_drop_zero.
    split; [|split]; [| |done].
    + intros j n [Hget _]. by destruct (Hno j).
    + intros j [Hget _]. by destruct (Hno j).
  - rewrite Hstart. destruct (Z.leb_spec 0 (Z.of_nat i)) as [_|]; [|lia]. rewrite Nat2Z.id.
    destruct (firstBrace_drop _ _ Hfirst) as [r Hr]. rewrite Hr.
    destruct (findJSONEnd_spec r) as [[Hend Hnone] | (n & Hend & Hgroup)].
    + rewrite Hend. cbn [Z.leb Z.compare]. rewrite Nat2Z.id, slice_to_end, Hr.
      split; [|split].
      * intros j n Hj. rewrite <- (firstBrace_unique _ _ _ Hfirst Hj), Hr.
        intros Hgroup. by destruct (Hnone n).
      * intros j Hj _. by rewrite <- (firstBrace_unique _ _ _ Hfirst Hj), Hr.
      * intros Hno. destruct Hfirst as [Hget _]. by destruct (Hno i).
    + rewrite Hend. assert (0 < n)%nat by (destruct Hgroup; lia).
      destruct (Z.leb_spec 0 (Z.of_nat n - 1)) as [_|]; [|lia].
      replace (Z.to_nat (Z.of_nat i + (Z.of_nat n - 1) + 1)) with (i + n)%nat by lia.
      rewrite slice_from, Hr.
      split; [|split].
      * intros j m Hj. rewrite <- (firstBrace_unique _ _ _ Hfirst Hj), Hr.
        intros Hm. by rewrite (balancedGroup_unique _ _ _ Hm Hgroup).
      * intros j Hj. rewrite <- (firstBrace_unique _ _ _ Hfirst Hj), Hr.
        intros Hnone. by destruct (Hnone n).
      * intros Hno. destruct Hfirst as [Hget _]. by destruct (Hno i).
Qed.

End Scans.

(** ** The rate limiter under concurrency *)

Section LimiterProofs.
Import Limiter.
Variable env : Env.

Lemma minGap_range : 0 < minGap env <= 6 * Second.
Proof. unfold minGap, Second. destruct (hasAuth env); lia. Qed.

Lemma wrap64_small (z : Z) : min_int64 <= z <= max_int64 -> wrap64 z = z.
Proof.
  unfold wrap64, min_int64, max_int64. intros Hz.
  rewrite Z.mod_small; lia.
Qed.

(** A measured gap that is short is the exact gap. *)
Lemma timeSub_short (t u : Time) :
  u <= t -> timeSub t u < minGap env -> timeSub t u = t - u.
Proof.
  pose proof minGap_range as Hgap. revert Hgap.
  unfold timeSub, min_int64, max_int64, Second. lia.
Qed.

Lemma timeSub_le (t u : Time) : u <= t -> timeSub t u <= t - u.
Proof. unfold timeSub, min_int64, max_int64. lia. Qed.

Lemma due_spec (s : Sched) :
  last s <= now s -> timeSub (now s) (last s) < minGap env ->
  due env s = last s + minGap env.
Proof.
  intros Hlast Hshort. unfold due. rewrite (timeSub_short _ _ Hlast Hshort).
  pose proof minGap_range as Hgap. rewrite (timeSub_short _ _ Hlast Hshort) in Hshort.
  rewrite wrap64_small; [lia|]. revert Hgap. unfold min_int64, max_int64, Second. lia.
Qed.

Lemma setPc_eq (g : nat) (p : Pc) (f : nat -> Pc) : setPc g p f g = p.
Proof. unfold setPc. by rewrite Nat.eqb_refl. Qed.

Lemma setPc_cases (g h : nat) (p : Pc) (f : nat -> Pc) :
  (h = g /\ setPc g p f h = p) \/ (h <> g /\ setPc g p f h = f h).
Proof. unfold setPc. destruct (Nat.eqb_spec h g); [by left | by right]. Qed.

Lemma inv_start (boot : Time) : zeroTime <= boot -> inv env (start boot).
Proof.
  intros Hboot. pose proof minGap_range. split; cbn; try done.
Qed.

Lemma inv_step (s s' : Sched) : sstep env s s' -> inv env s -> inv env s'.
Proof.
  pose proof minGap_range as Hgap.
  intros Hstep [Hlast Hholder Hsleeping Hstamping Hhead Hspaced].
  destruct Hstep as [s d | s g Hidle Hfree | s g Hlocked Hshort | s g Hlocked Hlong
                    | s g until Hsleep Hdue | s g Hstamp | s g st Hunlocked].
  - (* tick *)
    split; cbn; try done; [lia|].
    intros g Hg. specialize (Hstamping g Hg). lia.
  - (* lock *)
    assert (Hnone : forall h, critical (pc s h) = false).
    { intros h. destruct (critical (pc s h)) eqn:Hc; [|done].
      rewrite (Hholder h Hc) in Hfree. done. }
    split; cbn; try done.
    + intros h. destruct (setPc_cases g h Locked (pc s)) as [[-> ->] | [_ ->]]; [done|].
      by rewrite Hnone.
    + intros h until. destruct (setPc_cases g h Locked (pc s)) as [[-> ->] | [_ ->]]; [done|].
      apply Hsleeping.
    + intros h. destruct (setPc_cases g h Locked (pc s)) as [[-> ->] | [_ ->]]; [done|].
      apply Hstamping.
  - (* measure_wait *)
    split; cbn; try done.
    + intros h. destruct (setPc_cases g h (Sleeping (due env s)) (pc s)) as [[-> ->] | [_ ->]];
        [|apply Hholder].
      intros _. apply Hholder. by rewrite Hlocked.
    + intros h until.
      destruct (setPc_cases g h (Sleeping (due env s)) (pc s)) as [[-> ->] | [_ ->]];
        [|apply Hsleeping].
      intros [= <-]. rewrite due_spec by done. lia.
    + intros h. destruct (setPc_cases g h (Sleeping (due env s)) (pc s)) as [[-> ->] | [_ ->]];
        [done | apply Hstamping].
  - (* measure_pass *)
    split; cbn; try done.
    + intros h. destruct (setPc_cases g h Stamping (pc s)) as [[-> ->] | [_ ->]];
        [|apply Hholder].
      intros _. apply Hholder. by rewrite Hlocked.
    + intros h until. destruct (setPc_cases g h Stamping (pc s)) as [[-> ->] | [_ ->]];
        [done | apply Hsleeping].
    + intros h. destruct (setPc_cases g h Stamping (pc s)) as [[-> ->] | [_ ->]];
        [|apply Hstamping].
      intros _. pose proof (timeSub_le _ _ Hlast). lia.
  - (* wake *)
    split; cbn; try done.
    + intros h. destruct (setPc_cases g h Stamping (pc s)) as [[-> ->] | [_ ->]];
        [|apply Hholder].
      intros _. apply Hholder. by rewrite Hsleep.
    + intros h until'. destruct (setPc_cases g h Stamping (pc s)) as [[-> ->] | [_ ->]];
        [done | apply Hsleeping].
    + intros h. destruct (setPc_cases g h Stamping (pc s)) as [[-> ->] | [_ ->]];
        [|apply Hstamping].
      intros _. specialize (Hsleeping g until Hsleep). lia.
  - (* stamp *)
    assert (Hmine : mutex s = Some g) by (apply Hholder; by rewrite Hstamp).
    assert (Hothers : forall h, h <> g -> critical (pc s h) = false).
    { intros h Hh. destruct (critical (pc s h)) eqn:Hc; [|done].
      rewrite (Hholder h Hc) in Hmine. congruence. }
    split; cbn; try done.
    + intros h. destruct (setPc_cases g h (Unlocked (now s)) (pc s)) as [[-> ->] | [Hh ->]];
        [done|]. by rewrite (Hothers h Hh).
    + intros h until.
      destruct (setPc_cases g h (Unlocked (now s)) (pc s)) as [[-> ->] | [Hh ->]]; [done|].
      intros Hs. specialize (Hothers h Hh). by rewrite Hs in Hothers.
    + intros h.
      destruct (setPc_cases g h (Unlocked (now s)) (pc s)) as [[-> ->] | [Hh ->]]; [done|].
      intros Hs. specialize (Hothers h Hh). by rewrite Hs in Hothers.
    + by intros t [= <-].
    + split; [|done]. destruct (stamps (marks s)) as [|u r] eqn:Hst; [done|].
      rewrite (Hhead u eq_refl). by apply (Hstamping g).
  - (* request *)
    split; cbn; try done.
    + intros h. destruct (setPc_cases g h Idle (pc s)) as [[-> ->] | [_ ->]];
        [done | apply Hholder].
    + intros h until. destruct (setPc_cases g h Idle (pc s)) as [[-> ->] | [_ ->]];
        [done | apply Hsleeping].
    + intros h. destruct (setPc_cases g h Idle (pc s)) as [[-> ->] | [_ ->]];
        [done | apply Hstamping].
Qed.

Lemma inv_reachable (boot : Time) (s : Sched) :
  zeroTime <= boot -> reachable env boot s -> inv env s.
Proof.
  intros Hboot Hreach. unfold reachable in Hreach.
  refine (rtc_ind_r (inv env) (start boot) _ _ s Hreach); [by apply inv_start|].
  intros y z _ Hstep Hy. by apply (inv_step y z).
Qed.

(** The gap in figures: three seconds when a client id or a user name is set,
    six when neither is. *)
Lemma minGap_figures :
  (OPENSKY_CLIENT_ID env <> "" \/ OPENSKY_USERNAME env <> "" -> minGap env = 3000000000)
  /\ (OPENSKY_CLIENT_ID env = "" -> OPENSKY_USERNAME env = "" -> minGap env = 6000000000).
Proof.
  unfold minGap, hasAuth, Second. split.
  - intros [Hid%eqb_empty | Huser%eqb_empty].
    + by rewrite Hid.
    + rewrite Huser. by rewrite orb_true_r.
  - by intros -> ->.
Qed.

(** X10. However the goroutines that call [fetchOpenSkyData] interleave, at most
    one of them is between [Lock] and [Unlock], and the instants at which
    [lastOpenSkyCall] is stamped are at least three seconds apart when
    [OPENSKY_CLIENT_ID] or [OPENSKY_USERNAME] is set, and at least six seconds
    apart when neither is. *)
Theorem limiter_spaces_stamps (boot : Time) (s : Sched) :
  zeroTime <= boot -> reachable env boot s ->
  (OPENSKY_CLIENT_ID env <> "" \/ OPENSKY_USERNAME env <> "" ->
     spaced 3000000000 (stamps (marks s)))
  /\ (OPENSKY_CLIENT_ID env = "" -> OPENSKY_USERNAME env = "" ->
      spaced 6000000000 (stamps (marks s)))
  /\ forall g h, critical (pc s g) = true -> critical (pc s h) = true -> g = h.
Proof.
  intros Hboot Hreach. destruct (inv_reachable boot s Hboot Hreach) as [_ Hholder _ _ _ Hspaced].
  destruct minGap_figures as [Hset Hunset].
  split; [|split].
  - intros Hauth. by rewrite <- (Hset Hauth).
  - intros Hid Huser. by rewrite <- (Hunset Hid Huser).
  - intros g h Hg Hh.
    pose proof (Hholder g Hg) as H1. rewrite (Hholder h Hh) in H1. congruence.
Qed.

(** X11. The limiter spaces the stamps, not the requests: a request goes out
    after [Unlock], whenever its goroutine gets to it, so two goroutines can
    send theirs at the same instant. *)
Theorem limiter_requests_coincide (boot : Time) :
  zeroTime + minGap env <= boot ->
  exists s g h st st' t,
    reachable env boot s /\ g <> h
    /\ In (Requested g st t) (marks s) /\ In (Requested h st' t) (marks s).
Proof.
  intros Hboot. pose proof minGap_range as Hgap.
  set (s1 := stampNow 0 (move 0 Stamping (acquire 0 (start boot)))).
  set (s2 := acquire 1 s1).
  set (s3 := elapse (Z.to_N (minGap env)) (move 1 (Sleeping (due env s2)) s2)).
  set (s4 := stampNow 1 (move 1 Stamping s3)).
  exists (send 0 boot (send 1 (now s3) s4)), O, 1%nat, boot, (now s3), (now s3).
  split; [|split; [done|split; [by left | by right; left]]].
  unfold reachable.
  eapply rtc_l; [by apply (lock env _ 0)|].
  eapply rtc_l; [apply (measure_pass env _ 0); [done|]|].
  { cbn. revert Hboot Hgap. unfold timeSub, zeroTime, min_int64, max_int64, Second. lia. }
  eapply rtc_l; [by apply (stamp env _ 0)|].
  eapply rtc_l; [by apply (lock env _ 1)|].
  assert (Hshort : timeSub (now s2) (last s2) < minGap env).
  { cbn. unfold timeSub, min_int64, max_int64. lia. }
  eapply rtc_l; [by apply (measure_wait env _ 1)|].
  eapply rtc_l; [apply (tick env _ (Z.to_N (minGap env)))|].
  eapply rtc_l; [apply (wake env _ 1 (due env s2)); [done|]|].
  { rewrite (due_spec s2) by (cbn; lia || done). cbn. lia. }
  eapply rtc_l; [by apply (stamp env _ 1)|].
  eapply rtc_l; [by apply (request env _ 1 (now s3))|].
  eapply rtc_l; [by apply (request env _ 0 boot)|].
  apply rtc_refl.
Qed.

End LimiterProofs.

Lemma limiter_spaces_stamps_example :
  Limiter.reachable Scenario.env Scenario.boot Scenario.contended
  /\ Limiter.stamps (Limiter.marks Scenario.contended)
     = [Scenario.boot + 3 * Second; Scenario.boot]
  /\ Limiter.spaced 3000000000 (Limiter.stamps (Limiter.marks Scenario.contended)).
Proof.
  assert (Hboot : zeroTime <= Scenario.boot) by (vm_compute; discriminate).
  assert (Hreach : Limiter.reachable Scenario.env Scenario.boot Scenario.contended).
  { unfold Limiter.reachable, Scenario.contended.
    eapply rtc_l; [apply (Limiter.lock Scenario.env _ 0); reflexivity|].
    eapply rtc_l; [apply (Limiter.measure_pass Scenario.env _ 0);
                   [reflexivity | vm_compute; discriminate]|].
    eapply rtc_l; [apply (Limiter.stamp Scenario.env _ 0); reflexivity|].
    eapply rtc_l; [apply (Limiter.lock Scenario.env _ 1); reflexivity|].
    eapply rtc_l; [apply (Limiter.measure_wait Scenario.env _ 1);
                   [reflexivity | vm_compute; reflexivity]|].
    eapply rtc_l; [apply (Limiter.tick Scenario.env _ 3000000000)|].
    eapply rtc_l; [apply (Limiter.wake Scenario.env _ 1 (Scenario.boot + 3 * Second));
                   [reflexivity | vm_compute; discriminate]|].
    eapply rtc_l; [apply (Limiter.stamp Scenario.env _ 1); reflexivity|].
    eapply rtc_l; [apply (Limiter.request Scenario.env _ 1 (Scenario.boot + 3 * Second));
                   reflexivity|].
    eapply rtc_l; [apply (Limiter.request Scenario.env _ 0 Scenario.boot); reflexivity|].
    apply rtc_refl. }
  split; [exact Hreach|]. split; [reflexivity|].
  apply (proj1 (limiter_spaces_stamps Scenario.env Scenario.boot Scenario.contended
                  Hboot Hreach)).
  left. discriminate.
Defined.

Lemma limiter_requests_coincide_example :
  zeroTime + minGap Scenario.env <= Scenario.boot
  /\ exists s g h st st' t,
       Limiter.reachable Scenario.env Scenario.boot s /\ g <> h
       /\ In (Limiter.Requested g st t) (Limiter.marks s)
       /\ In (Limiter.Requested h st' t) (Limiter.marks s).
Proof.
  assert (Hboot : zeroTime + minGap Scenario.env <= Scenario.boot)
    by (vm_compute; discriminate).
  split; [exact Hboot|].
  exact (limiter_requests_coincide Scenario.env Scenario.boot Hboot).
Defined.

(** ** Who a broadcast reaches *)

Section Broadcast.

Lemma writeJSON_run (conn : Conn) (m : Message) (s : State) :
  writeJSON conn m s
  = (bool_decide (conn ∉ lost s), setTrace (WriteJSON conn m :: trace s) s).
Proof. done. Qed.

(** The subscribers of [region] among [l], in the order they are visited. *)
Lemma trace_forEach_subscribers (region line : string) (m : Message)
    (l : list (Conn * string)) (s : State) :
  exec (forEach l (fun '(conn, clientRegion) =>
          if String.eqb clientRegion region then
            writeJSON conn m ≫= fun ok : bool => if ok then mret tt else logPrintf line
          else mret tt)) s
  = setTrace (rev ((filter (fun p => p.2 = region) l).*1 ≫= attempt (lost s) m line)
              ++ trace s) s.
Proof.
  revert s. induction l as [|[conn clientRegion] l IH]; intros s; cbn [forEach].
  - cbn. by rewrite setTrace_same.
  - rewrite exec_bind, IH. rewrite filter_cons. cbn [snd].
    destruct (String.eqb_spec clientRegion region) as [->|Hne].
    + rewrite decide_True by done. rewrite exec_bind. unfold eval, exec at 2 3 5.
      rewrite writeJSON_run. cbn [fst snd fmap list_fmap mbind list_bind attempt].
      destruct (decide (conn ∈ lost s)) as [Hgone|Hthere].
      * rewrite bool_decide_eq_false_2 by (by intros Hno; apply Hno).
        assert (Ha : attempt (lost s) m line conn = [WriteJSON conn m; Log line])
          by (unfold attempt; by rewrite decide_True).
        rewrite Ha. mstep. by rewrite <- !app_assoc.
      * rewrite bool_decide_eq_true_2 by done.
        assert (Ha : attempt (lost s) m line conn = [WriteJSON conn m])
          by (unfold attempt; by rewrite decide_False).
        rewrite Ha. mstep. by rewrite <- !app_assoc.
    + rewrite decide_False by done. by mstep.
Qed.

Lemma subscribers_spec (region : string) (cs : gmap Conn string) :
  NoDup (filter (fun p : Conn * string => p.2 = region) (map_to_list cs)).*1
  /\ forall conn,
       conn ∈ (filter (fun p : Conn * string => p.2 = region) (map_to_list cs)).*1
       <-> cs !! conn = Some region.
Proof.
  split.
  - apply NoDup_fmap_2_strong.
    + intros [c1 r1] [c2 r2] [Hr1 _]%list_elem_of_filter [Hr2 _]%list_elem_of_filter.
      cbn in *. by intros ->; subst.
    + apply NoDup_filter, NoDup_map_to_list.
  - intros conn. rewrite list_elem_of_fmap. split.
    + intros ([c clientRegion] & -> & Hin). apply list_elem_of_filter in Hin as [Hr Hin].
      cbn in Hr. subst clientRegion. by apply elem_of_map_to_list in Hin.
    + intros Hconn. exists (conn, region). split; [done|].
      apply list_elem_of_filter. split; [done|]. by apply elem_of_map_to_list.
Qed.

Lemma exec_broadcastToClients (region : string) (data : AirspaceData) (s : State) :
  exec (broadcastToClients region data) s
  = setTrace (rev ((filter (fun p : Conn * string => p.2 = region) (map_to_list (clients s))).*1
                   ≫= attempt (lost s) (Snapshot data) "Write to client failed")
              ++ trace s) s.
Proof.
  unfold broadcastToClients. rewrite exec_bind.
  change (eval (gets clients) s) with (clients s). change (exec (gets clients) s) with s.
  apply trace_forEach_subscribers.
Qed.

Lemma exec_broadcastAnalysisToClients (region : string) (analysis : TacticalAnalysis)
    (s : State) :
  exec (broadcastAnalysisToClients region analysis) s
  = setTrace (rev ((filter (fun p : Conn * string => p.2 = region) (map_to_list (clients s))).*1
                   ≫= attempt (lost s) (Analysis region analysis)
                        "Write analysis to client failed")
              ++ trace s) s.
Proof.
  unfold broadcastAnalysisToClients. rewrite exec_bind.
  change (eval (gets clients) s) with (clients s). change (exec (gets clients) s) with s.
  apply trace_forEach_subscribers.
Qed.

(** The writes among the events of a broadcast. *)
Lemma written_to_subscribers (gone : gset Conn) (m : Message) (line : string)
    (order : list Conn) (conn : Conn) (m' : Message) :
  WriteJSON conn m' ∈ order ≫= attempt gone m line <-> m' = m /\ conn ∈ order.
Proof.
  rewrite list_elem_of_bind. unfold attempt. split.
  - intros (c & Hin & Hc). apply elem_of_cons in Hin as [[= -> ->] | Hin]; [done|].
    destruct (decide (c ∈ gone)); [|by apply elem_of_nil in Hin].
    by apply list_elem_of_singleton in Hin.
  - intros [-> Hc]. exists conn. split; [by left | done].
Qed.

(** X12. A broadcast of a snapshot or of an analysis for a region visits the
    connections subscribed to that region, each once and no other connection;
    for each it writes the message to it, and logs a line when that write
    fails; it does nothing else, and changes nothing of the state but the
    record of what was done. *)
Theorem broadcast_reaches_subscribers (region : string) (data : AirspaceData)
    (analysis : TacticalAnalysis) (s : State) :
  (exists order,
     NoDup order
     /\ (forall conn, conn ∈ order <-> clients s !! conn = Some region)
     /\ events (broadcastToClients region data) s
        = order ≫= attempt (lost s) (Snapshot data) "Write to client failed"
     /\ traced s (exec (broadcastToClients region data) s))
  /\ (exists order,
        NoDup order
        /\ (forall conn, conn ∈ order <-> clients s !! conn = Some region)
        /\ events (broadcastAnalysisToClients region analysis) s
           = order ≫= attempt (lost s) (Analysis region analysis)
                        "Write analysis to client failed"
        /\ traced s (exec (broadcastAnalysisToClients region analysis) s)).
Proof.
  destruct (subscribers_spec region (clients s)) as [Hnodup Hin].
  split.
  - eexists. split; [exact Hnodup|]. split; [exact Hin|]. split.
    + erewrite events_of; [|by rewrite exec_broadcastToClients]. by rewrite rev_involutive.
    + apply traced_broadcastToClients.
  - eexists. split; [exact Hnodup|]. split; [exact Hin|]. split.
    + erewrite events_of; [|by rewrite exec_broadcastAnalysisToClients].
      by rewrite rev_involutive.
    + apply traced_broadcastAnalysisToClients.
Qed.

End Broadcast.
(** ** What a run of the periodic analysis leaves behind *)

Section AnalysisOutcome.
Context {lib : GoLib}.
Variable env : Env.

(** X13. A run of the periodic analysis that gets an analysis back stores it
    under the region and writes it to exactly the connections subscribed to
    that region; a run whose call fails leaves the analysis cache as it was,
    so an older analysis stays, and writes to no connection. *)
Theorem performAnalysis_outcome (regionName : string) (openai : HttpReply) (s : State)
    (data : AirspaceData) :
  OPENAI_API_KEY env <> "" ->
  airspaceCache s !! regionName = Some data -> AirspaceData.Aircraft data <> [] ->
  match eval (callOpenAIAnalysis (OPENAI_API_KEY env) regionName
                (AirspaceData.Aircraft data) openai) s with
  | Ok analysis =>
      analysisCache (exec (performAnalysis env regionName openai) s)
        = <[regionName := analysis]> (analysisCache s)
      /\ forall conn m,
           WriteJSON conn m ∈ events (performAnalysis env regionName openai) s
           <-> m = Analysis regionName analysis /\ clients s !! conn = Some regionName
  | Err _ =>
      analysisCache (exec (performAnalysis env regionName openai) s) = analysisCache s
      /\ forall conn m, WriteJSON conn m ∉ events (performAnalysis env regionName openai) s
  end.
Proof.
  intros Hkey Hcache Hacs.
  pose proof (performAnalysis_asks env regionName openai s data Hkey Hcache Hacs) as Hexec.
  cbn zeta in Hexec.
  destruct (eval (callOpenAIAnalysis _ _ _ _) s) as [analysis|e].
  - rewrite exec_broadcastAnalysisToClients in Hexec. cbn in Hexec.
    split; [by rewrite Hexec|].
    intros conn m.
    rewrite (events_of _ _
      (rev ((filter (fun p : Conn * string => p.2 = regionName) (map_to_list (clients s))).*1
            ≫= attempt (lost s) (Analysis regionName analysis)
                 "Write analysis to client failed")
       ++ [Log "AI Analysis complete";
           OpenAIRequest (OPENAI_API_KEY env) regionName (AirspaceData.Aircraft data)]));
      [|by rewrite Hexec; cbn; rewrite <- app_assoc].
    rewrite rev_app_distr, rev_involutive. cbn [rev app].
    rewrite !elem_of_cons, written_to_subscribers,
      (proj2 (subscribers_spec regionName (clients s))).
    naive_solver.
  - split; [by rewrite Hexec|].
    intros conn m.
    rewrite (events_of _ _
      [Log "AI analysis error";
       OpenAIRequest (OPENAI_API_KEY env) regionName (AirspaceData.Aircraft data)]);
      [|by rewrite Hexec].
    cbn. set_solver.
Qed.

(** X14. The status of the reasoning service's response plays no part: two
    responses with the same body give the same result and the same state,
    in the call, in the periodic analysis and in the on-demand analysis. *)
Theorem analysis_ignores_status (apiKey region method : string) (aircraft : list Aircraft)
    (wait : N) (status status' : Z) (body : option string) (s : State) :
  callOpenAIAnalysis apiKey region aircraft (mkReply wait (HttpResponse status body)) s
    = callOpenAIAnalysis apiKey region aircraft (mkReply wait (HttpResponse status' body)) s
  /\ performAnalysis env region (mkReply wait (HttpResponse status body)) s
     = performAnalysis env region (mkReply wait (HttpResponse status' body)) s
  /\ handleRunAnalysis env method region (mkReply wait (HttpResponse status body)) s
     = handleRunAnalysis env method region (mkReply wait (HttpResponse status' body)) s.
Proof.
  assert (Hcall : forall apiKey region aircraft s,
    callOpenAIAnalysis apiKey region aircraft (mkReply wait (HttpResponse status body)) s
    = callOpenAIAnalysis apiKey region aircraft (mkReply wait (HttpResponse status' body)) s).
  { intros. unfold callOpenAIAnalysis. by rewrite !run_bind. }
  split; [apply Hcall|]. split.
  - unfold performAnalysis. cbn zeta. destruct (String.eqb _ _); [done|].
    rewrite !run_bind. destruct (eval (gets airspaceCache) s !! region) as [data|]; [|done].
    destruct (_ =? _)%nat; [done|]. rewrite !run_bind.
    unfold eval, exec. by rewrite Hcall.
  - unfold handleRunAnalysis. destruct (negb _); [done|]. cbn zeta.
    destruct (String.eqb _ _); [done|].
    rewrite !run_bind. destruct (eval (gets airspaceCache) s !! queryRegion region) as [data|];
      [|done].
    destruct (_ =? _)%nat; [done|]. rewrite !run_bind.
    unfold eval, exec. by rewrite Hcall.
Qed.

(** X15. The call to the reasoning service returns an analysis exactly when a
    response arrives whose body can be read and decodes, carries no error
    object and has at least one choice. What the content of the first choice
    is plays no part in that: content whose JSON does not decode gives an
    analysis all the same, with the threat level [UNKNOWN], the score 0, the
    summary that says that parsing failed, the content itself as the raw text,
    every list and the pattern analysis empty, no next-update priority, the
    region that was asked for and the time of the server. And every analysis
    that is returned bears the region that was asked for. *)
Theorem callOpenAIAnalysis_ok_iff (apiKey region : string) (aircraft : list Aircraft)
    (openai : HttpReply) (s : State) :
  ((exists analysis, eval (callOpenAIAnalysis apiKey region aircraft openai) s = Ok analysis)
   <-> exists status body openAIResp,
         outcome openai = HttpResponse status (Some body)
         /\ unmarshalOpenAIResponse body = Some openAIResp
         /\ OpenAIResponse.Error openAIResp = None
         /\ OpenAIResponse.Choices openAIResp <> [])
  /\ (forall body openAIResp status choice rest,
        outcome openai = HttpResponse status (Some body) ->
        unmarshalOpenAIResponse body = Some openAIResp ->
        OpenAIResponse.Error openAIResp = None ->
        OpenAIResponse.Choices openAIResp = choice :: rest ->
        unmarshalTacticalAnalysis (jsonContent (OpenAIMessage.Content (OpenAIChoice.Message choice)))
          = None ->
        exists analysis,
          eval (callOpenAIAnalysis apiKey region aircraft openai) s = Ok analysis
          /\ TacticalAnalysis.OverallThreatLevel analysis = "UNKNOWN"
          /\ TacticalAnalysis.ThreatScore analysis = 0
          /\ TacticalAnalysis.Summary analysis
             = "Analysis parsing failed - raw response available"
          /\ TacticalAnalysis.Raw analysis = OpenAIMessage.Content (OpenAIChoice.Message choice)
          /\ TacticalAnalysis.Region analysis = region
          /\ TacticalAnalysis.Timestamp analysis
             = formatRFC3339 (clock s + Z.of_N (latency openai))
          /\ TacticalAnalysis.KeyObservations analysis = []
          /\ TacticalAnalysis.AircraftOfInterest analysis = []
          /\ TacticalAnalysis.TacticalRecommendations analysis = []
          /\ TacticalAnalysis.PatternAnalysis analysis = ∅
          /\ TacticalAnalysis.NextUpdatePriority analysis = "")
  /\ (forall analysis,
        eval (callOpenAIAnalysis apiKey region aircraft openai) s = Ok analysis ->
        TacticalAnalysis.Region analysis = region).
Proof.
  split; [|split].
  - unfold callOpenAIAnalysis. rewrite eval_bind. mstep. split.
    + intros [analysis Hok].
      destruct (outcome openai) as [|status [body|]]; try done.
      destruct (unmarshalOpenAIResponse body) as [openAIResp|] eqn:Hdecode; [|done].
      destruct (OpenAIResponse.Error openAIResp) eqn:Herror; [done|].
      destruct (OpenAIResponse.Choices openAIResp) as [|choice rest] eqn:Hchoices; [done|].
      exists status, body, openAIResp. by rewrite Hchoices.
    + intros (status & body & openAIResp & -> & -> & -> & Hchoices).
      destruct (OpenAIResponse.Choices openAIResp) as [|choice rest]; [done|].
      rewrite parseAnalysis_run. by eexists.
  - intros body openAIResp status choice rest Hout Hdecode Herror Hchoices Hcontent.
    unfold callOpenAIAnalysis. rewrite eval_bind. mstep.
    rewrite Hout, Hdecode, Herror, Hchoices, parseAnalysis_run, Hcontent.
    eexists. split; [done|]. by cbn.
  - intros analysis Hok. by destruct (callOpenAIAnalysis_stamped _ _ _ _ _ _ Hok).
Qed.

End AnalysisOutcome.

(** ** The REST handlers *)

Section Rest.
Context {lib : GoLib}.
Variable env : Env.

(** X16. The on-demand analysis refuses what it cannot serve before it does
    anything: any method but POST gets 405, and a POST gets 503 when the key
    is unset or the snapshot cache holds no aircraft for the region; in both
    cases the state is left as it was and the reasoning service is not asked. *)
Theorem handleRunAnalysis_refuses (method region : string) (openai : HttpReply) (s : State) :
  (method <> "POST" ->
     handleRunAnalysis env method region openai s
     = (mkResponse 405 (Text "Method not allowed"), s))
  /\ (method = "POST" -> ~ analysable env (queryRegion region) s ->
      exists text,
        handleRunAnalysis env method region openai s = (mkResponse 503 (Text text), s)).
Proof.
  unfold handleRunAnalysis. split.
  - intros Hmethod%String.eqb_neq. by rewrite Hmethod.
  - intros -> Hno. cbn [String.eqb Ascii.eqb Bool.eqb negb]. cbn zeta.
    destruct (String.eqb (OPENAI_API_KEY env) "") eqn:Hkey; [by eexists|].
    apply eqb_empty in Hkey. rewrite run_bind.
    change (eval (gets airspaceCache) s) with (airspaceCache s).
    change (exec (gets airspaceCache) s) with s.
    destruct (airspaceCache s !! queryRegion region) as [data|] eqn:Hcache; [|by eexists].
    destruct (AirspaceData.Aircraft data) as [|ac acs] eqn:Hacs; [by eexists|].
    destruct Hno. split; [done|]. exists data. by rewrite Hacs.
Qed.

(** X17. A POST to the on-demand analysis that can be served asks the
    reasoning service once and does nothing else to the outside: an analysis
    that comes back is answered with 200 and stored under the region, but is
    not written to any connection; a failed call is answered with 500 and its
    message, and the analysis cache stays as it was. *)
Theorem handleRunAnalysis_outcome (region : string) (openai : HttpReply) (s : State)
    (data : AirspaceData) :
  OPENAI_API_KEY env <> "" ->
  airspaceCache s !! queryRegion region = Some data -> AirspaceData.Aircraft data <> [] ->
  events (handleRunAnalysis env "POST" region openai) s
    = [OpenAIRequest (OPENAI_API_KEY env) (queryRegion region) (AirspaceData.Aircraft data)]
  /\ match eval (callOpenAIAnalysis (OPENAI_API_KEY env) (queryRegion region)
                   (AirspaceData.Aircraft data) openai) s with
     | Ok analysis =>
         eval (handleRunAnalysis env "POST" region openai) s
           = mkResponse 200 (AnalysisJSON analysis)
         /\ analysisCache (exec (handleRunAnalysis env "POST" region openai) s)
            = <[queryRegion region := analysis]> (analysisCache s)
     | Err e =>
         eval (handleRunAnalysis env "POST" region openai) s = mkResponse 500 (Text e)
         /\ analysisCache (exec (handleRunAnalysis env "POST" region openai) s)
            = analysisCache s
     end.
Proof.
  intros Hkey%eqb_empty Hcache Hacs.
  assert (Hrun : handleRunAnalysis env "POST" region openai s =
    let s1 := consulted (OPENAI_API_KEY env) (queryRegion region)
                (AirspaceData.Aircraft data) openai s in
    match eval (callOpenAIAnalysis (OPENAI_API_KEY env) (queryRegion region)
                  (AirspaceData.Aircraft data) openai) s with
    | Ok analysis =>
        (mkResponse 200 (AnalysisJSON analysis),
         setAnalysisCache (<[queryRegion region := analysis]> (analysisCache s1)) s1)
    | Err e => (mkResponse 500 (Text e), s1)
    end).
  { unfold handleRunAnalysis. cbn [String.eqb Ascii.eqb Bool.eqb negb]. cbn zeta.
    rewrite Hkey, run_bind.
    change (eval (gets airspaceCache) s) with (airspaceCache s).
    change (exec (gets airspaceCache) s) with s. rewrite Hcache.
    destruct (AirspaceData.Aircraft data) as [|ac acs] eqn:Hdata; [done|].
    cbn [length Nat.eqb]. rewrite run_bind, exec_callOpenAIAnalysis.
    by destruct (eval _ s) as [analysis|e]. }
  cbn zeta in Hrun. split.
  - apply (events_of _ _ [_]). unfold exec. rewrite Hrun.
    by destruct (eval (callOpenAIAnalysis _ _ _ _) s).
  - unfold eval at 2 3, exec. rewrite Hrun.
    by destruct (eval (callOpenAIAnalysis _ _ _ _) s).
Qed.

(** X18. The aircraft handler answers from the snapshot cache when it can,
    without asking upstream and without touching the state; it refuses a
    region that is neither cached nor configured with 400, again without
    asking; and what it fetches for a configured region it does not store:
    the snapshot cache, the analysis cache and the subscriptions are as before
    in every case. *)
Theorem handleGetAircraft_reads_only (region : string) (issuer opensky : HttpReply)
    (s : State) :
  (forall data, airspaceCache s !! queryRegion region = Some data ->
     handleGetAircraft env region issuer opensky s = (mkResponse 200 (SnapshotJSON data), s))
  /\ (airspaceCache s !! queryRegion region = None -> regions !! queryRegion region = None ->
      handleGetAircraft env region issuer opensky s
      = (mkResponse 400 (Text "Unknown region"), s))
  /\ airspaceCache (exec (handleGetAircraft env region issuer opensky) s) = airspaceCache s
  /\ analysisCache (exec (handleGetAircraft env region issuer opensky) s) = analysisCache s
  /\ clients (exec (handleGetAircraft env region issuer opensky) s) = clients s.
Proof.
  split; [|split].
  - intros data Hcache. unfold handleGetAircraft. cbn zeta. rewrite run_bind.
    change (eval (gets airspaceCache) s) with (airspaceCache s).
    change (exec (gets airspaceCache) s) with s. by rewrite Hcache.
  - intros Hcache Hregion. unfold handleGetAircraft. cbn zeta. rewrite run_bind.
    change (eval (gets airspaceCache) s) with (airspaceCache s).
    change (exec (gets airspaceCache) s) with s. by rewrite Hcache, Hregion.
  - destruct (calm_handleGetAircraft env region issuer opensky s) as [? ? ? _ _]. done.
Qed.

(** X19. In every state the process can reach, a 200 from the aircraft
    handler carries a snapshot that names the region asked for, counts its own
    aircraft and holds only aircraft whose position is known, whether it came
    from the cache or from upstream; and the analysis handler always answers
    200 with an analysis that names the region asked for, and changes
    nothing. *)
Theorem rest_answers_name_region (boot : Time) (actions : list Action) (region : string)
    (issuer opensky : HttpReply) :
  (status (eval (handleGetAircraft env region issuer opensky)
             (exec (run env actions) (initial boot))) = 200 ->
   exists data,
     body (eval (handleGetAircraft env region issuer opensky)
             (exec (run env actions) (initial boot))) = SnapshotJSON data
     /\ AirspaceData.Region data = queryRegion region
     /\ AirspaceData.Count data = Z.of_nat (length (AirspaceData.Aircraft data))
     /\ forall ac, ac ∈ AirspaceData.Aircraft data ->
          is_Some (Latitude ac) /\ is_Some (Longitude ac))
  /\ (exists analysis,
        handleGetAnalysis region (exec (run env actions) (initial boot))
        = (mkResponse 200 (AnalysisJSON analysis), exec (run env actions) (initial boot))
        /\ TacticalAnalysis.Region analysis = queryRegion region).
Proof.
  pose proof (consistent_run env boot actions _ (consistent_initial boot)) as Hs.
  set (s := exec (run env actions) (initial boot)) in *.
  split.
  - unfold handleGetAircraft. cbn zeta. rewrite eval_bind.
    change (eval (gets airspaceCache) s) with (airspaceCache s).
    change (exec (gets airspaceCache) s) with s.
    destruct (airspaceCache s !! queryRegion region) as [data|] eqn:Hcache.
    + intros _. exists data. split; [done|].
      destruct (consistent_snapshots _ _ Hs _ _ Hcache) as (_ & ? & ? & _ & ?). done.
    + destruct (regions !! queryRegion region) as [regionDef|]; [|done].
      rewrite eval_bind.
      destruct (eval (fetchOpenSkyData env regionDef issuer opensky) s) as [aircraft|e]
        eqn:Hfetch; [|done].
      intros _. eexists. split; [done|]. cbn. split; [done|]. split; [done|].
      destruct (fetchOpenSkyData_parsed env _ _ _ _ _ Hfetch) as (? & ? & _ & _ & ->).
      apply parseAircraftStates_coordinates.
  - unfold handleGetAnalysis. cbn zeta. rewrite run_bind.
    change (eval (gets analysisCache) s) with (analysisCache s).
    change (exec (gets analysisCache) s) with s.
    destruct (analysisCache s !! queryRegion region) as [analysis|] eqn:Hcache.
    + exists analysis. split; [done|].
      by destruct (consistent_analyses _ _ Hs _ _ Hcache).
    + by eexists.
Qed.

End Rest.

(** ** The poller *)

Section Poller.
Context {lib : GoLib}.
Variable env : Env.

(** X20. The fetcher returns aircraft exactly when upstream answers 200 with a
    body that can be read and decodes, and then it returns the parsed rows of
    that body; whether a credential could be had plays no part. *)
Theorem fetchOpenSkyData_ok_iff (region : Region) (issuer opensky : HttpReply) (s : State)
    (aircraft : list Aircraft) :
  eval (fetchOpenSkyData env region issuer opensky) s = Ok aircraft
  <-> exists respBody openSkyResp,
        outcome opensky = HttpResponse 200 (Some respBody)
        /\ unmarshalOpenSkyResponse respBody = Some openSkyResp
        /\ aircraft = parseAircraftStates (OpenSkyResponse.States openSkyResp).
Proof.
  split; [apply fetchOpenSkyData_parsed|].
  intros (respBody & openSkyResp & Hout & Hdecode & ->).
  unfold fetchOpenSkyData. rewrite !eval_bind. mstep. rewrite Hout. cbn.
  by rewrite Hdecode.
Qed.

Lemma step_PollCycle (regionName : string) (region : Region) (issuer opensky : HttpReply)
    (s : State) :
  regions !! regionName = Some region ->
  exec (step env (PollCycle regionName issuer opensky)) s
  = exec (fetchAndBroadcast env regionName region issuer opensky) s.
Proof.
  intros Hregion. cbn [step]. unfold pollOpenSky. rewrite Hregion. cbn [forEach].
  by rewrite exec_bind.
Qed.

Lemma clock_answered (region : Region) (issuer opensky : HttpReply) (s : State) :
  clock s + Z.of_N (latency opensky) <= clock (exec (fetchOpenSkyData env region issuer opensky) s).
Proof.
  assert (Hanswered : clock s + Z.of_N (latency opensky)
                      <= clock (answered env region issuer opensky s)).
  { unfold answered. cbn zeta. cbn [clock setClock setTrace].
    pose proof (calm_clock _ _ _ (calm_rateLimit env s)).
    pose proof (calm_clock _ _ _ (calm_requestAuth env issuer (exec (rateLimit env) s))).
    lia. }
  rewrite exec_fetchOpenSkyData.
  destruct (outcome opensky) as [|status body]; [done|]. by destruct (_ && _).
Qed.

(** X21. A cycle of a poller whose fetch succeeds stores the snapshot under
    the poller's region: the aircraft fetched, the region's name, their
    count, and the Unix time of the clock as it stands when the fetch has
    returned, which is no earlier than the instant the cycle began plus the
    time upstream took to answer. The cycle writes that snapshot to exactly
    the connections subscribed to the region. *)
Theorem poll_cycle_delivers (regionName : string) (region : Region)
    (issuer opensky : HttpReply) (s : State) (aircraft : list Aircraft) :
  regions !! regionName = Some region ->
  eval (fetchOpenSkyData env region issuer opensky) s = Ok aircraft ->
  clock s + Z.of_N (latency opensky)
    <= clock (exec (fetchOpenSkyData env region issuer opensky) s)
  /\ airspaceCache (exec (step env (PollCycle regionName issuer opensky)) s)
     = <[regionName :=
           AirspaceData.mk
             (timeUnix (clock (exec (fetchOpenSkyData env region issuer opensky) s)))
             aircraft regionName (Z.of_nat (length aircraft))]> (airspaceCache s)
  /\ forall conn m,
       WriteJSON conn m ∈ events (step env (PollCycle regionName issuer opensky)) s
       <-> m = Snapshot
                 (AirspaceData.mk
                    (timeUnix (clock (exec (fetchOpenSkyData env region issuer opensky) s)))
                    aircraft regionName (Z.of_nat (length aircraft)))
           /\ clients s !! conn = Some regionName.
Proof.
  intros Hregion Hfetch.
  pose proof (step_PollCycle regionName region issuer opensky s Hregion) as Hexec.
  rewrite exec_fetchAndBroadcast, Hfetch in Hexec. cbn zeta in Hexec.
  rewrite exec_broadcastToClients in Hexec.
  remember (step env (PollCycle regionName issuer opensky)) as cycle eqn:Hcycle.
  clear Hcycle. cbn in Hexec.
  destruct (calm_fetchOpenSkyData env region issuer opensky s)
    as [Hclients Hair _ Hclock (new & Hnew & Hup)].
  pose proof (clock_answered region issuer opensky s) as Hafter.
  set (s1 := exec (fetchOpenSkyData env region issuer opensky) s) in *.
  split; [done|]. split; [by rewrite Hexec, Hair|].
  intros conn m.
  rewrite (events_of _ _
    (Log "Fetched aircraft"
     :: rev ((filter (fun p : Conn * string => p.2 = regionName) (map_to_list (clients s1))).*1
             ≫= attempt (lost s1)
                  (Snapshot (AirspaceData.mk (timeUnix (clock s1)) aircraft regionName
                               (Z.of_nat (length aircraft))))
                  "Write to client failed")
     ++ new)); [|by rewrite Hexec; cbn; rewrite Hnew, <- app_assoc].
  cbn [rev]. rewrite !rev_app_distr, rev_involutive.
  rewrite !elem_of_app, list_elem_of_singleton, written_to_subscribers,
    (proj2 (subscribers_spec regionName (clients s1))), Hclients.
  split; [|tauto].
  intros [[Hin | Hin] | Hin]; [|done|done]. exfalso.
  rewrite Forall_forall in Hup.
  apply (Hup (WriteJSON conn m)). by rewrite list_elem_of_In, in_rev, <- list_elem_of_In.
Qed.

Lemma frame_fetchAndBroadcast (regionName : string) (region : Region)
    (issuer opensky : HttpReply) (s : State) :
  clients (exec (fetchAndBroadcast env regionName region issuer opensky) s) = clients s
  /\ analysisCache (exec (fetchAndBroadcast env regionName region issuer opensky) s)
     = analysisCache s
  /\ forall key, key <> regionName ->
       airspaceCache (exec (fetchAndBroadcast env regionName region issuer opensky) s) !! key
       = airspaceCache s !! key.
Proof.
  rewrite exec_fetchAndBroadcast. cbn zeta.
  destruct (calm_fetchOpenSkyData env region issuer opensky s) as [Hclients Hair Hana _ _].
  destruct (eval _ s) as [aircraft|e].
  - rewrite exec_broadcastToClients. cbn.
    split; [done|]. split; [done|].
    intros key Hkey. by rewrite lookup_insert_ne, Hair.
  - cbn. split; [done|]. split; [done|]. intros key _. by rewrite Hair.
Qed.

(** X22. A poller, over any number of cycles and whatever upstream answers,
    writes to the snapshot cache only under its own region, and never to the
    analysis cache or the subscriptions; a poller started for a region that is
    not configured changes nothing but the log. *)
Theorem pollOpenSky_frame (regionName : string) (cycles : list (HttpReply * HttpReply))
    (s : State) :
  clients (exec (pollOpenSky env regionName cycles) s) = clients s
  /\ analysisCache (exec (pollOpenSky env regionName cycles) s) = analysisCache s
  /\ (forall key, key <> regionName ->
        airspaceCache (exec (pollOpenSky env regionName cycles) s) !! key
        = airspaceCache s !! key)
  /\ (regions !! regionName = None ->
      exec (pollOpenSky env regionName cycles) s
      = setTrace (Log "Unknown region" :: trace s) s).
Proof.
  unfold pollOpenSky. destruct (regions !! regionName) as [region|]; [|done].
  assert (Hframe : forall s,
    clients (exec (forEach cycles (fun '(issuer, opensky) =>
               fetchAndBroadcast env regionName region issuer opensky)) s) = clients s
    /\ analysisCache (exec (forEach cycles (fun '(issuer, opensky) =>
               fetchAndBroadcast env regionName region issuer opensky)) s) = analysisCache s
    /\ forall key, key <> regionName ->
         airspaceCache (exec (forEach cycles (fun '(issuer, opensky) =>
               fetchAndBroadcast env regionName region issuer opensky)) s) !! key
         = airspaceCache s !! key).
  { clear s. induction cycles as [|[issuer opensky] cycles IH]; intros s; [done|].
    cbn [forEach]. rewrite exec_bind.
    destruct (frame_fetchAndBroadcast regionName region issuer opensky s) as (Hc & Ha & Hk).
    destruct (IH (exec (fetchAndBroadcast env regionName region issuer opensky) s))
      as (Hc' & Ha' & Hk').
    split; [congruence|]. split; [congruence|].
    intros key Hkey. by rewrite Hk', Hk. }
  destruct (Hframe s) as (? & ? & ?). done.
Qed.

End Poller.

(** ** A WebSocket session from upgrade to close *)

Section Session.
Context {lib : GoLib}.

Lemma attends_refl (conn : Conn) (s : State) : attends conn s s.
Proof. split; try done. by exists []. Qed.

Lemma attends_trans (conn : Conn) (s1 s2 s3 : State) :
  attends conn s1 s2 -> attends conn s2 s3 -> attends conn s1 s3.
Proof.
  intros [Ha Hn Hk Hc [new1 [Hnew1 Hup1]]] [Ha' Hn' Hk' Hc' [new2 [Hnew2 Hup2]]].
  split; try congruence; [lia|].
  exists (new2 ++ new1). split; [by rewrite Hnew2, Hnew1, app_assoc|].
  apply Forall_app. split; [by rewrite <- Ha | done].
Qed.

Lemma attends_sendCached (conn : Conn) (region : string) (s : State) :
  attends conn s (exec (sendCached conn region) s).
Proof.
  rewrite exec_sendCached. destruct (airspaceCache s !! region) as [data|] eqn:Hcache;
    [|apply attends_refl].
  split; try done. exists [WriteJSON conn (Snapshot data)]. split; [done|].
  constructor; [|done]. split; [done|]. by exists region.
Qed.

Lemma attends_subscribe (conn : Conn) (region : string) (s : State) :
  attends conn s (setClients (<[conn := region]> (clients s)) s).
Proof.
  split; try done; [|by exists []]. cbn. apply delete_insert_eq.
Qed.

Lemma attends_log (conn : Conn) (line : string) (s : State) :
  attends conn s (setTrace (Log line :: trace s) s).
Proof. split; try done. exists [Log line]. split; [done|]. by repeat constructor. Qed.

Lemma attends_wsConnect (conn : Conn) (region : string) (s : State) :
  attends conn s (exec (wsConnect conn region) s).
Proof.
  unfold wsConnect. cbn zeta. rewrite !exec_bind.
  eapply attends_trans; [apply attends_subscribe|].
  eapply attends_trans; [apply attends_log|].
  apply attends_sendCached.
Qed.

Lemma attends_wsMessage (conn : Conn) (msg : string) (s : State) :
  attends conn s (exec (wsMessage conn msg) s).
Proof.
  unfold wsMessage.
  destruct (unmarshalRequest msg) as [request|]; [|apply attends_refl].
  destruct (String.eqb _ _); [|apply attends_refl].
  rewrite !exec_bind.
  eapply attends_trans; [apply attends_subscribe|].
  eapply attends_trans; [apply attends_sendCached|].
  apply attends_log.
Qed.

Lemma attends_readMessage (conn : Conn) (waited : N) (s : State) :
  attends conn s (exec (readMessage waited) s).
Proof. split; try done; [cbn; lia|]. by exists []. Qed.

Lemma attends_forEach (conn : Conn) (msgs : list (N * string)) (s : State) :
  attends conn s
    (exec (forEach msgs (fun '(waited, msg) => readMessage waited;; wsMessage conn msg)) s).
Proof.
  revert s. induction msgs as [|[waited msg] msgs IH]; intros s; cbn [forEach];
    [apply attends_refl|].
  rewrite !exec_bind.
  eapply attends_trans; [apply attends_readMessage|].
  eapply attends_trans; [apply attends_wsMessage | apply IH].
Qed.

Lemma clock_forEach (conn : Conn) (msgs : list (N * string)) (s : State) :
  clock (exec (forEach msgs (fun '(waited, msg) => readMessage waited;; wsMessage conn msg)) s)
  = clock s + Z.of_N (foldr N.add 0%N msgs.*1).
Proof.
  revert s. induction msgs as [|[waited msg] msgs IH]; intros s; cbn [forEach].
  - cbn. lia.
  - rewrite !exec_bind, IH.
    destruct (kept_wsMessage conn msg (exec (readMessage waited) s)) as (_ & _ & ->).
    cbn. lia.
Qed.

Lemma attends_wsDisconnect (conn : Conn) (s : State) :
  attends conn s (exec (wsDisconnect conn) s)
  /\ clients (exec (wsDisconnect conn) s) = delete conn (clients s).
Proof.
  split; [|done]. split; try done.
  - cbn. apply delete_delete_eq.
  - exists [Log "Client disconnected"; Close conn]. split; [done|]. by repeat constructor.
Qed.

(** X23. A WebSocket session, from upgrade to the failed read that ends it and
    whatever is received in between, leaves the registry without its
    connection and every other subscription and both caches as they were; the
    clock has advanced by at least the time its reads have waited; all it
    writes are cached snapshots, to its own connection; and it closes that
    connection. When the upgrade fails, only a line is logged. *)
Theorem handleWebSocket_session (conn : Conn) (region : string) (msgs : list (N * string))
    (last : N) (s : State) :
  clients (exec (handleWebSocket (Some conn) region msgs last) s) = delete conn (clients s)
  /\ airspaceCache (exec (handleWebSocket (Some conn) region msgs last) s) = airspaceCache s
  /\ analysisCache (exec (handleWebSocket (Some conn) region msgs last) s) = analysisCache s
  /\ clock s + Z.of_N (foldr N.add last msgs.*1)
     <= clock (exec (handleWebSocket (Some conn) region msgs last) s)
  /\ Forall (serves conn (airspaceCache s))
       (events (handleWebSocket (Some conn) region msgs last) s)
  /\ Close conn ∈ events (handleWebSocket (Some conn) region msgs last) s
  /\ exec (handleWebSocket None region msgs last) s
     = setTrace (Log "WebSocket upgrade failed" :: trace s) s.
Proof.
  cbn [handleWebSocket]. rewrite !exec_bind.
  set (s1 := exec (wsConnect conn region) s).
  set (s2 := exec (forEach msgs _) s1).
  set (s3 := exec (readMessage last) s2).
  assert (Hsession : attends conn s s3).
  { eapply attends_trans; [apply attends_wsConnect|].
    eapply attends_trans; [apply attends_forEach | apply attends_readMessage]. }
  destruct (attends_wsDisconnect conn s3) as [Hlast Hgone].
  pose proof (attends_trans _ _ _ _ Hsession Hlast) as [Ha Hn Hk Hc [new [Hnew Hup]]].
  split; [rewrite Hgone; apply (attends_others _ _ _ Hsession)|].
  split; [done|]. split; [done|]. split.
  { change (clock (exec (wsDisconnect conn) s3)) with (clock s2 + Z.of_N last).
    unfold s2. rewrite clock_forEach.
    destruct (kept_wsConnect conn region s) as (_ & _ & Hclock). fold s1 in Hclock.
    rewrite Hclock.
    assert (Hsum : forall l : list N, foldr N.add last l = (foldr N.add 0 l + last)%N).
    { induction l as [|x l IH]; cbn; lia. }
    rewrite Hsum. lia. }
  assert (Hevents : events (wsConnect conn region ≫= fun _ =>
            forEach msgs (fun '(waited, msg) => readMessage waited;; wsMessage conn msg)
            ≫= fun _ => readMessage last ≫= fun _ => wsDisconnect conn) s = rev new).
  { apply events_of. by rewrite !exec_bind. }
  rewrite Hevents. split; [by apply Forall_rev|]. split; [|done].
  destruct Hsession as [_ _ _ _ [new2 [Hnew2 _]]].
  assert (Hclose : trace (exec (wsDisconnect conn) s3)
                   = [Log "Client disconnected"; Close conn] ++ new2 ++ trace s).
  { change (trace (exec (wsDisconnect conn) s3))
      with (Log "Client disconnected" :: Close conn :: trace s3).
    by rewrite Hnew2. }
  rewrite Hclose in Hnew. rewrite app_assoc in Hnew. apply app_inv_tail in Hnew. subst new.
  rewrite list_elem_of_In, <- in_rev, <- list_elem_of_In. set_solver.
Qed.

End Session.

(** ** Reusing the token *)

Section Reuse.
Context {lib : GoLib}.
Variable env : Env.

Lemma getOpenSkyToken_asks (issuer : HttpReply) (s : State) :
  configured env -> ~ unexpired s ->
  exists later,
    events (getOpenSkyToken env issuer) s
    = TokenRequest (OPENSKY_CLIENT_ID env) (OPENSKY_CLIENT_SECRET env) :: later.
Proof.
  intros Hcfg Hstale. destruct (granted issuer) as [tokenResp|] eqn:Hgranted.
  - exists [Log "OpenSky OAuth2 token acquired"].
    rewrite (events_of _ _
      [Log "OpenSky OAuth2 token acquired";
       TokenRequest (OPENSKY_CLIENT_ID env) (OPENSKY_CLIENT_SECRET env)]); [done|].
    unfold exec. by rewrite (getOpenSkyToken_granted _ _ _ _ Hcfg Hstale Hgranted).
  - destruct (getOpenSkyToken_refused _ _ _ Hcfg Hstale Hgranted) as [e He].
    exists [].
    rewrite (events_of _ _
      [TokenRequest (OPENSKY_CLIENT_ID env) (OPENSKY_CLIENT_SECRET env)]); [done|].
    unfold exec. by rewrite He.
Qed.

(** X24. A token obtained in an exchange is reused by the calls that follow
    for its lifetime less 60 seconds, counted from the end of the exchange,
    and no longer: a call within that time returns it without an exchange, a
    call after it starts a new exchange. *)
Theorem token_reused_until_stale (issuer issuer' : HttpReply) (s : State)
    (tokenResp : TokenResp) (d : N) :
  configured env -> ~ unexpired s -> granted issuer = Some tokenResp ->
  TokenResp.AccessToken tokenResp <> "" ->
  min_int64 <= TokenResp.ExpiresIn tokenResp * Second <= max_int64 ->
  (Z.of_N d < TokenResp.ExpiresIn tokenResp * Second - 60 * Second ->
   getOpenSkyToken env issuer'
     (exec (step env (Wait d)) (exec (getOpenSkyToken env issuer) s))
   = (Ok (TokenResp.AccessToken tokenResp),
      exec (step env (Wait d)) (exec (getOpenSkyToken env issuer) s)))
  /\ (TokenResp.ExpiresIn tokenResp * Second - 60 * Second <= Z.of_N d ->
      exists later,
        events (getOpenSkyToken env issuer')
          (exec (step env (Wait d)) (exec (getOpenSkyToken env issuer) s))
        = TokenRequest (OPENSKY_CLIENT_ID env) (OPENSKY_CLIENT_SECRET env) :: later).
Proof.
  intros Hcfg Hstale Hgranted Htoken Hrange.
  unfold exec at 2 4 6. rewrite (getOpenSkyToken_granted _ _ _ _ Hcfg Hstale Hgranted).
  cbn [snd step]. rewrite (wrap64_small _ Hrange).
  set (s2 := exec _ _).
  assert (Htok : oauthToken s2 = TokenResp.AccessToken tokenResp) by done.
  assert (Hexp : oauthTokenExpiry s2
                 = clock s2 - Z.of_N d + TokenResp.ExpiresIn tokenResp * Second)
    by (cbn; lia).
  split.
  - intros Hearly. rewrite <- Htok. apply getOpenSkyToken_cached; [done|].
    split; [by rewrite Htok | lia].
  - intros Hlate. apply getOpenSkyToken_asks; [done|]. intros [_ Hfresh]. lia.
Qed.

End Reuse.

(** ** The parser as a filter *)

Section ParseFilter.

(** X25. The parser keeps the rows that have their 17 fields and JSON numbers
    in fields 5 and 6 (longitude and latitude), in the order of the response,
    and returns for each of them the record of that row; so it never returns
    more records than there are rows. *)
Theorem parseAircraftStates_filter (states : list (list iface)) :
  Forall2 rowRecord (filter located states) (parseAircraftStates states)
  /\ (length (parseAircraftStates states) <= length states)%nat.
Proof.
  assert (Hrows : Forall2 rowRecord (filter located states) (parseAircraftStates states)).
  { induction states as [|state states IH]; [by constructor|].
    rewrite parseAircraftStates_cons, filter_cons.
    destruct (Nat.lt_ge_cases (length state) 17) as [Hshort|Hlong].
    - rewrite (parseStep_short _ Hshort).
      rewrite decide_False; [done|]. intros [? _]. lia.
    - rewrite (parseStep_long _ Hlong).
      pose proof (aircraftOfState_rowRecord state) as Hrecord.
      destruct (rowRecord_coordinates _ _ Hrecord) as [-> ->]. unfold located.
      repeat case_bool_decide; cbn [andb app].
      + rewrite decide_True by done. by constructor.
      + rewrite decide_False; [done | tauto].
      + rewrite decide_False; [done | tauto].
      + rewrite decide_False; [done | tauto]. }
  split; [done|].
  rewrite <- (Forall2_length _ _ _ Hrows). apply length_filter.
Qed.

End ParseFilter.
(** ** The limiter in one goroutine *)

Section Gap.
Context {lib : GoLib}.
Variable env : Env.

Lemma rateLimit_run (s : State) :
  lastOpenSkyCall s <= clock s ->
  exec (rateLimit env) s
  = if clock s <? lastOpenSkyCall s + minGap env then
      let t := lastOpenSkyCall s + minGap env + Z.of_N (late s) in
      setLastOpenSkyCall t
        (setClock t
           (setTrace (Sleep (lastOpenSkyCall s + minGap env - clock s)
                      :: Log "Rate limiter: waiting before next OpenSky call" :: trace s) s))
    else setLastOpenSkyCall (clock s) s.
Proof.
  intros Hlast. pose proof (minGap_range env) as Hgap.
  unfold rateLimit. rewrite !exec_bind.
  change (eval (gets lastOpenSkyCall) s) with (lastOpenSkyCall s).
  change (exec (gets lastOpenSkyCall) s) with s.
  change (eval timeNow s) with (clock s). change (exec timeNow s) with s.
  cbn zeta.
  destruct (Z.ltb_spec (timeSub (clock s) (lastOpenSkyCall s)) (minGap env)) as [Hshort|Hlong].
  - pose proof (timeSub_short env _ _ Hlast Hshort) as Hexact.
    rewrite Hexact in *. rewrite wrap64_small
      by (revert Hgap; unfold min_int64, max_int64, Second; lia).
    destruct (Z.ltb_spec (clock s) (lastOpenSkyCall s + minGap env)); [|lia].
    mstep.
    destruct (Z.ltb_spec 0 (minGap env - (clock s - lastOpenSkyCall s))); [|lia].
    replace (clock s + (minGap env - (clock s - lastOpenSkyCall s) + Z.of_N (late s)))
      with (lastOpenSkyCall s + minGap env + Z.of_N (late s)) by lia.
    by replace (lastOpenSkyCall s + minGap env - clock s)
      with (minGap env - (clock s - lastOpenSkyCall s)) by lia.
  - pose proof (timeSub_le _ _ Hlast) as Hle.
    destruct (Z.ltb_spec (clock s) (lastOpenSkyCall s + minGap env)); [lia|]. done.
Qed.

(** X26. The limiter stamps [lastOpenSkyCall] with a reading of the clock that
    is no earlier than the instant the limiter was entered and no earlier than
    [minGap] after the last stamp, and returns no earlier than that reading.
    It sleeps exactly when it is entered less than [minGap] after the last
    stamp, and the time it then asks to sleep for is what is left of the
    gap. *)
Theorem rateLimit_gap (s : State) :
  lastOpenSkyCall s <= clock s ->
  Z.max (clock s) (lastOpenSkyCall s + minGap env) <= lastOpenSkyCall (exec (rateLimit env) s)
  /\ lastOpenSkyCall (exec (rateLimit env) s) <= clock (exec (rateLimit env) s)
  /\ ((exists d, Sleep d ∈ events (rateLimit env) s)
      <-> clock s < lastOpenSkyCall s + minGap env)
  /\ (forall d, Sleep d ∈ events (rateLimit env) s ->
        d = lastOpenSkyCall s + minGap env - clock s).
Proof.
  intros Hlast. pose proof (rateLimit_run s Hlast) as Hrun. cbn zeta in Hrun.
  destruct (Z.ltb_spec (clock s) (lastOpenSkyCall s + minGap env)) as [Hshort|Hlong].
  - rewrite (events_of _ _
      [Sleep (lastOpenSkyCall s + minGap env - clock s);
       Log "Rate limiter: waiting before next OpenSky call"]) by (by rewrite Hrun).
    rewrite Hrun. cbn [lastOpenSkyCall clock setLastOpenSkyCall setClock setTrace rev app].
    split; [lia|]. split; [lia|]. split.
    + split; [done|]. intros _. eexists. rewrite !elem_of_cons. by right; left.
    + intros d. rewrite !elem_of_cons. intros [|[[= ->]|?%elem_of_nil]]; done.
  - rewrite (events_of _ _ []) by (by rewrite Hrun; cbn; rewrite setTrace_same || done).
    rewrite Hrun. cbn [lastOpenSkyCall clock setLastOpenSkyCall rev].
    split; [lia|]. split; [lia|]. split.
    + split; [intros [d Hd]; by apply elem_of_nil in Hd | lia].
    + intros d Hd. by apply elem_of_nil in Hd.
Qed.

End Gap.
(** ** Where the entries of the caches come from *)

Section Keys.
Context {lib : GoLib}.
Variable env : Env.

Lemma performAnalysis_caches (regionName : string) (openai : HttpReply) (s : State) :
  airspaceCache (exec (performAnalysis env regionName openai) s) = airspaceCache s
  /\ forall key,
       is_Some (analysisCache (exec (performAnalysis env regionName openai) s) !! key) ->
       is_Some (analysisCache s !! key) \/ is_Some (airspaceCache s !! key).
Proof.
  destruct (analysable_dec env regionName s) as [(Hkey & data & Hcache & Hacs)|Hno].
  - rewrite (performAnalysis_asks env _ _ _ _ Hkey Hcache Hacs). cbn zeta.
    destruct (eval _ s) as [analysis|e].
    + rewrite exec_broadcastAnalysisToClients. cbn. split; [done|].
      intros key. destruct (decide (key = regionName)) as [->|Hne].
      * right. by rewrite Hcache.
      * rewrite lookup_insert_ne by done. by left.
    + cbn. split; [done|]. by left.
  - destruct (performAnalysis_skips env regionName openai s Hno) as [line ->].
    split; [done|]. by left.
Qed.

Lemma handleRunAnalysis_caches (method region : string) (openai : HttpReply) (s : State) :
  airspaceCache (exec (handleRunAnalysis env method region openai) s) = airspaceCache s
  /\ forall key,
       is_Some (analysisCache (exec (handleRunAnalysis env method region openai) s) !! key) ->
       is_Some (analysisCache s !! key) \/ is_Some (airspaceCache s !! key).
Proof.
  destruct (exec_handleRunAnalysis env method region openai s)
    as [->|(data & Hcache & _ & _ & _ & ->)]; [split; [done | by left]|].
  cbn zeta. destruct (eval _ s) as [analysis|e].
  - cbn. split; [done|].
    intros key. destruct (decide (key = queryRegion region)) as [->|Hne].
    + right. by rewrite Hcache.
    + rewrite lookup_insert_ne by done. by left.
  - cbn. split; [done|]. by left.
Qed.

(** What one action does to the keys of the caches. *)
Lemma step_keys (a : Action) (s : State) :
  (forall key, is_Some (airspaceCache s !! key) ->
     is_Some (airspaceCache (exec (step env a) s) !! key))
  /\ (forall key, is_Some (airspaceCache (exec (step env a) s) !! key) ->
        is_Some (airspaceCache s !! key)
        \/ exists issuer opensky, a = PollCycle key issuer opensky)
  /\ (forall key, is_Some (analysisCache (exec (step env a) s) !! key) ->
        is_Some (analysisCache s !! key) \/ is_Some (airspaceCache s !! key)).
Proof.
  assert (Hsame : airspaceCache (exec (step env a) s) = airspaceCache s ->
                  analysisCache (exec (step env a) s) = analysisCache s ->
    (forall key, is_Some (airspaceCache s !! key) ->
       is_Some (airspaceCache (exec (step env a) s) !! key))
    /\ (forall key, is_Some (airspaceCache (exec (step env a) s) !! key) ->
          is_Some (airspaceCache s !! key)
          \/ exists issuer opensky, a = PollCycle key issuer opensky)
    /\ (forall key, is_Some (analysisCache (exec (step env a) s) !! key) ->
          is_Some (analysisCache s !! key) \/ is_Some (airspaceCache s !! key))).
  { intros -> ->. split; [done|]. split; intros key Hkey; by left. }
  destruct a; cbn [step] in *.
  - unfold pollOpenSky in *. destruct (regions !! regionName) as [region|] eqn:Hregion;
      [|by apply Hsame].
    cbn [forEach]. rewrite exec_bind.
    change (exec (mret tt) ?x) with x.
    rewrite exec_fetchAndBroadcast. cbn zeta.
    destruct (calm_fetchOpenSkyData env region issuer opensky s) as [_ Hair Hana _ _].
    destruct (eval _ s) as [aircraft|e].
    + rewrite exec_broadcastToClients. cbn. rewrite Hair, Hana.
      split; [|split].
      * intros key Hkey. destruct (decide (key = regionName)) as [->|Hne].
        -- by rewrite lookup_insert_eq.
        -- by rewrite lookup_insert_ne.
      * intros key. destruct (decide (key = regionName)) as [->|Hne].
        -- intros _. right. by eexists _, _.
        -- rewrite lookup_insert_ne by done. by left.
      * intros key Hkey. by left.
    + cbn. rewrite Hair, Hana. split; [done|]. split; intros key Hkey; by left.
  - destruct (performAnalysis_caches regionName openai s) as [Hair Hana].
    rewrite Hair. split; [done|]. split; [by left | done].
  - destruct (kept_wsConnect conn region s) as (? & ? & _). by apply Hsame.
  - destruct (kept_wsMessage conn msg s) as (? & ? & _). by apply Hsame.
  - by apply Hsame.
  - rewrite exec_bind in *. change (exec (mret tt) ?x) with x in *.
    destruct (calm_handleGetAircraft env region issuer opensky s) as [_ ? ? _ _].
    by apply Hsame.
  - rewrite exec_bind in *. change (exec (mret tt) ?x) with x in *.
    rewrite exec_handleGetAnalysis in *. by apply Hsame.
  - rewrite exec_bind. change (exec (mret tt) ?x) with x.
    destruct (handleRunAnalysis_caches method region openai s) as [Hair Hana].
    rewrite Hair. split; [done|]. split; [by left | done].
  - by apply Hsame.
  - by apply Hsame.
  - by apply Hsame.
Qed.

Lemma run_keys (actions : list Action) (s : State) :
  (forall key, is_Some (airspaceCache s !! key) ->
     is_Some (airspaceCache (exec (run env actions) s) !! key))
  /\ (forall key, is_Some (airspaceCache (exec (run env actions) s) !! key) ->
        is_Some (airspaceCache s !! key)
        \/ exists issuer opensky, PollCycle key issuer opensky ∈ actions)
  /\ ((forall key, is_Some (analysisCache s !! key) -> is_Some (airspaceCache s !! key)) ->
      forall key, is_Some (analysisCache (exec (run env actions) s) !! key) ->
                  is_Some (airspaceCache (exec (run env actions) s) !! key)).
Proof.
  revert s. induction actions as [|a actions IH]; intros s.
  - split; [done|]. split; [by left|]. done.
  - unfold run. cbn [forEach]. rewrite exec_bind. fold (run env actions).
    destruct (step_keys a s) as (Hmono & Hfrom & Hana).
    destruct (IH (exec (step env a) s)) as (Hmono' & Hfrom' & Hana').
    split; [|split].
    + intros key Hkey. by apply Hmono', Hmono.
    + intros key Hkey. destruct (Hfrom' key Hkey) as [Hmid | (issuer & opensky & Hin)].
      * destruct (Hfrom key Hmid) as [? | (issuer & opensky & ->)]; [by left|].
        right. exists issuer, opensky. by left.
      * right. exists issuer, opensky. by right.
    + intros Hinv. apply Hana'. intros key Hkey.
      destruct (Hana key Hkey) as [?|?]; apply Hmono; [by apply Hinv | done].
Qed.

(** X27. Whatever the goroutines have done since the process started, a
    snapshot is cached only for a region that a poller has run a cycle for, so
    what the aircraft handler fetches is never stored; and an analysis is
    cached only for a region that has a cached snapshot. *)
Theorem cache_keys (boot : Time) (actions : list Action) (key : string) :
  (is_Some (airspaceCache (exec (run env actions) (initial boot)) !! key) ->
   exists issuer opensky, PollCycle key issuer opensky ∈ actions)
  /\ (is_Some (analysisCache (exec (run env actions) (initial boot)) !! key) ->
      is_Some (airspaceCache (exec (run env actions) (initial boot)) !! key)).
Proof.
  destruct (run_keys actions (initial boot)) as (_ & Hfrom & Hana). split.
  - intros Hkey. destruct (Hfrom key Hkey) as [Hempty|?]; [|done].
    cbn in Hempty. rewrite lookup_empty in Hempty. by destruct Hempty.
  - apply Hana. intros key' Hkey'. cbn in Hkey'. rewrite lookup_empty in Hkey'.
    by destruct Hkey'.
Qed.

End Keys.

(** ** The properties on the example session *)

Lemma jsonContent_cut_example :
  firstBrace "Assessment: {{}} End." 12
  /\ balancedGroup (str_drop 12 "Assessment: {{}} End.") 4
  /\ jsonContent "Assessment: {{}} End." = str_take 4 (str_drop 12 "Assessment: {{}} End.").
Proof.
  assert (Hfirst : firstBrace "Assessment: {{}} End." 12).
  { split; [reflexivity|]. intros k Hk.
    do 12 (destruct k as [|k]; [vm_compute; discriminate|]). lia. }
  assert (Hgroup : balancedGroup (str_drop 12 "Assessment: {{}} End.") 4).
  { split; [vm_compute; lia|]. split; [reflexivity|]. intros m Hm.
    do 4 (destruct m as [|m]; [vm_compute; lia || reflexivity|]). lia. }
  split; [exact Hfirst|]. split; [exact Hgroup|].
  exact (proj1 (jsonContent_cut "Assessment: {{}} End.") 12%nat 4%nat Hfirst Hgroup).
Defined.

Lemma performAnalysis_outcome_example :
  airspaceCache Scenario.connected !! "taiwan" = Some Scenario.snapshot
  /\ match eval (callOpenAIAnalysis (OPENAI_API_KEY Scenario.env) "taiwan"
                   (AirspaceData.Aircraft Scenario.snapshot) Scenario.reasoning)
             Scenario.connected with
     | Ok analysis =>
         analysisCache (exec (performAnalysis Scenario.env "taiwan" Scenario.reasoning)
                          Scenario.connected)
           = <["taiwan" := analysis]> (analysisCache Scenario.connected)
         /\ forall conn m,
              WriteJSON conn m
                ∈ events (performAnalysis Scenario.env "taiwan" Scenario.reasoning)
                    Scenario.connected
              <-> m = Analysis "taiwan" analysis
                  /\ clients Scenario.connected !! conn = Some "taiwan"
     | Err _ =>
         analysisCache (exec (performAnalysis Scenario.env "taiwan" Scenario.reasoning)
                          Scenario.connected)
           = analysisCache Scenario.connected
         /\ forall conn m,
              WriteJSON conn m
                ∉ events (performAnalysis Scenario.env "taiwan" Scenario.reasoning)
                    Scenario.connected
     end.
Proof.
  assert (Hkey : OPENAI_API_KEY Scenario.env <> "") by discriminate.
  assert (Hcache : airspaceCache Scenario.connected !! "taiwan" = Some Scenario.snapshot)
    by (vm_compute; reflexivity).
  assert (Hacs : AirspaceData.Aircraft Scenario.snapshot <> [])
    by (vm_compute; discriminate).
  split; [exact Hcache|].
  exact (performAnalysis_outcome Scenario.env "taiwan" Scenario.reasoning Scenario.connected
           Scenario.snapshot Hkey Hcache Hacs).
Defined.

Lemma handleRunAnalysis_outcome_example :
  airspaceCache Scenario.polled !! queryRegion "" = Some Scenario.snapshot
  /\ events (handleRunAnalysis Scenario.env "POST" "" Scenario.reasoning) Scenario.polled
     = [OpenAIRequest (OPENAI_API_KEY Scenario.env) (queryRegion "")
          (AirspaceData.Aircraft Scenario.snapshot)].
Proof.
  assert (Hkey : OPENAI_API_KEY Scenario.env <> "") by discriminate.
  assert (Hcache : airspaceCache Scenario.polled !! queryRegion "" = Some Scenario.snapshot)
    by (vm_compute; reflexivity).
  assert (Hacs : AirspaceData.Aircraft Scenario.snapshot <> [])
    by (vm_compute; discriminate).
  split; [exact Hcache|].
  exact (proj1 (handleRunAnalysis_outcome Scenario.env "" Scenario.reasoning Scenario.polled
                  Scenario.snapshot Hkey Hcache Hacs)).
Defined.

Lemma poll_cycle_delivers_example :
  regions !! "taiwan" = Some Scenario.taiwan
  /\ eval (fetchOpenSkyData Scenario.env Scenario.taiwan Scenario.token Scenario.states)
       (initial Scenario.boot)
     = Ok (AirspaceData.Aircraft Scenario.snapshot)
  /\ airspaceCache (exec (step Scenario.env
                            (PollCycle "taiwan" Scenario.token Scenario.states))
                      (initial Scenario.boot))
     = <["taiwan" :=
           AirspaceData.mk
             (timeUnix (clock (exec (fetchOpenSkyData Scenario.env Scenario.taiwan
                                       Scenario.token Scenario.states)
                                 (initial Scenario.boot))))
             (AirspaceData.Aircraft Scenario.snapshot) "taiwan"
             (Z.of_nat (length (AirspaceData.Aircraft Scenario.snapshot)))]> ∅.
Proof.
  assert (Hregion : regions !! "taiwan" = Some Scenario.taiwan) by (vm_compute; reflexivity).
  assert (Hfetch :
    eval (fetchOpenSkyData Scenario.env Scenario.taiwan Scenario.token Scenario.states)
      (initial Scenario.boot)
    = Ok (AirspaceData.Aircraft Scenario.snapshot)) by (vm_compute; reflexivity).
  split; [exact Hregion|]. split; [exact Hfetch|].
  exact (proj1 (proj2 (poll_cycle_delivers Scenario.env "taiwan" Scenario.taiwan
                         Scenario.token Scenario.states (initial Scenario.boot)
                         (AirspaceData.Aircraft Scenario.snapshot) Hregion Hfetch))).
Defined.

Lemma token_reused_until_stale_example :
  granted Scenario.token = Some (TokenResp.mk "T1" 1800)
  /\ getOpenSkyToken Scenario.env Scenario.unauthorized
       (exec (step Scenario.env (Wait 1000000000000))
          (exec (getOpenSkyToken Scenario.env Scenario.token) (initial Scenario.boot)))
     = (Ok "T1",
        exec (step Scenario.env (Wait 1000000000000))
          (exec (getOpenSkyToken Scenario.env Scenario.token) (initial Scenario.boot))).
Proof.
  assert (Hcfg : configured Scenario.env) by (split; discriminate).
  assert (Hstale : ~ unexpired (initial Scenario.boot)) by (intros [Hno _]; apply Hno; reflexivity).
  assert (Hgranted : granted Scenario.token = Some (TokenResp.mk "T1" 1800))
    by (vm_compute; reflexivity).
  assert (Htoken : TokenResp.AccessToken (TokenResp.mk "T1" 1800) <> "") by discriminate.
  assert (Hrange : min_int64 <= TokenResp.ExpiresIn (TokenResp.mk "T1" 1800) * Second
                   <= max_int64) by (vm_compute; split; discriminate).
  assert (Hearly : Z.of_N 1000000000000
                   < TokenResp.ExpiresIn (TokenResp.mk "T1" 1800) * Second - 60 * Second)
    by (vm_compute; reflexivity).
  split; [exact Hgranted|].
  exact (proj1 (token_reused_until_stale Scenario.env Scenario.token Scenario.unauthorized
                  (initial Scenario.boot) (TokenResp.mk "T1" 1800) 1000000000000
                  Hcfg Hstale Hgranted Htoken Hrange) Hearly).
Defined.

Lemma rateLimit_gap_example :
  lastOpenSkyCall Scenario.polled <= clock Scenario.polled
  /\ Z.max (clock Scenario.polled) (lastOpenSkyCall Scenario.polled + minGap Scenario.env)
     <= lastOpenSkyCall (exec (rateLimit Scenario.env) Scenario.polled).
Proof.
  assert (Hlast : lastOpenSkyCall Scenario.polled <= clock Scenario.polled)
    by (vm_compute; discriminate).
  split; [exact Hlast|].
  exact (proj1 (rateLimit_gap Scenario.env Scenario.polled Hlast)).
Defined.

Lemma broadcast_reaches_subscribers_example :
  events (broadcastToClients "taiwan" Scenario.snapshot) Scenario.severed
  = [WriteJSON 1%nat (Snapshot Scenario.snapshot); Log "Write to client failed"]
  /\ exists order,
       NoDup order
       /\ (forall conn, conn ∈ order <-> clients Scenario.severed !! conn = Some "taiwan")
       /\ events (broadcastToClients "taiwan" Scenario.snapshot) Scenario.severed
          = order ≫= attempt (lost Scenario.severed) (Snapshot Scenario.snapshot)
                       "Write to client failed"
       /\ traced Scenario.severed
            (exec (broadcastToClients "taiwan" Scenario.snapshot) Scenario.severed).
Proof.
  split; [vm_compute; reflexivity|].
  exact (proj1 (broadcast_reaches_subscribers "taiwan" Scenario.snapshot Scenario.analysis
                  Scenario.severed)).
Defined.

Lemma parseAircraftStates_rows_example :
  exists ac,
    parseAircraftStates
      [[IString "780a1b"; IString "CCA101"; IString "China"; INil; IFloat64 1700000000%float;
        IFloat64 121.5%float; IFloat64 25.1%float; INil; IBool false; INil; INil; INil; INil; INil; INil;
        IBool false; IFloat64 0%float]]
    = [ac]
    /\ ICAO24 ac = "780a1b" /\ Longitude ac = Some 121.5%float
    /\ Latitude ac = Some 25.1%float.
Proof.
  destruct (parseAircraftStates_rows [] []
    [IString "780a1b"; IString "CCA101"; IString "China"; INil; IFloat64 1700000000%float;
     IFloat64 121.5%float; IFloat64 25.1%float; INil; IBool false; INil; INil; INil; INil; INil; INil;
     IBool false; IFloat64 0%float]) as (kept & Heq & _ & Hlong & _).
  destruct (proj1 (Hlong ltac:(cbn; lia)) 121.5%float 25.1%float eq_refl eq_refl)
    as (ac & Hkept & Hrecord & Hlon & Hlat).
  exists ac. rewrite Hkept in Heq. split; [exact Heq|].
  split; [exact (proj1 Hrecord)|]. split; [exact Hlon | exact Hlat].
Defined.
